(** * PrincessDainaBot: the moderation core of [main.py], embedded in Rocq

    The development follows the layout of [main.py]:
    - Python string helpers used by the bot ([str.lower], [str.strip],
      [str.replace], [str.isdigit], the whole-word regular expression of
      [match_filter]);
    - the three SQLite tables ([chat_settings], [warns], [filters]) as row
      lists with the primary key enforced by the statements that write them;
    - the in-memory [spam_tracker] as a nested finite map of bounded deques;
    - handlers ([moderate_messages], [warn_cmd], ...) in a small monad that
      threads the database and tracker, records every call made to the
      Telegram API and carries Python exceptions.

    Modelling conventions.
    - A Python [str] is a [string]; characters are the 7-bit ASCII ones,
      code points above 127 are carried unchanged and count neither as
      letters, digits nor white space.
    - [time.time()] is a rational number of seconds ([Q]); the window test
      [now - t <= SPAM_WINDOW_SECONDS] is taken over exact rationals.
    - What the Telegram library computes ([get_chat_member], the outcome of
      an API call, [User.mention_html]) is an input of the model, given in
      the [Context] of a handler call and in the objects of the update.
    - The storage either answers during a handler call or is out of reach
      for the whole call ([db_available]); a statement failing in the
      middle of a transaction is not modelled. *)

From Stdlib Require Import ZArith QArith Qround Lqa Lia Bool Ascii String.
From Stdlib Require Import DecimalString Decimal DecimalPos Sorted Permutation.
From stdpp Require Import base option list gmap strings.

Local Open Scope Z_scope.

(* ===================================================================== *)
(** * Python string helpers *)
(* ===================================================================== *)

Module PyStr.

(** [c.lower()] on one ASCII character. *)
Definition lower_char (c : ascii) : ascii :=
  let n := nat_of_ascii c in
  if ((65 <=? n)%nat && (n <=? 90)%nat)%bool then ascii_of_nat (n + 32) else c.

(** [s.lower()]. *)
Fixpoint lower (s : string) : string :=
  match s with
  | EmptyString => EmptyString
  | String c s' => String (lower_char c) (lower s')
  end.

(** Characters removed by [str.strip()] (ASCII white space as Python's
    [str.isspace] has it: TAB, LF, VT, FF, CR, FS, GS, RS, US, SPACE). *)
Definition is_space (c : ascii) : bool :=
  let n := nat_of_ascii c in
  (((9 <=? n)%nat && (n <=? 13)%nat) || ((28 <=? n)%nat && (n <=? 32)%nat))%bool.

(** [s.lstrip()]. *)
Fixpoint lstrip (s : string) : string :=
  match s with
  | EmptyString => EmptyString
  | String c s' => if is_space c then lstrip s' else s
  end.

(** [s.rstrip()]: a character is dropped when it is white space and
    everything after it has been dropped. *)
Fixpoint rstrip (s : string) : string :=
  match s with
  | EmptyString => EmptyString
  | String c s' =>
      match rstrip s' with
      | EmptyString => if is_space c then EmptyString else String c EmptyString
      | r => String c r
      end
  end.

(** [s.strip()]. *)
Definition strip (s : string) : string := rstrip (lstrip s).

(** [s.isdigit()] (false on the empty string). *)
Definition is_digit (c : ascii) : bool :=
  let n := nat_of_ascii c in ((48 <=? n)%nat && (n <=? 57)%nat)%bool.

Fixpoint all_digits (s : string) : bool :=
  match s with
  | EmptyString => true
  | String c s' => is_digit c && all_digits s'
  end.

Definition isdigit (s : string) : bool :=
  match s with
  | EmptyString => false
  | _ => all_digits s
  end.

(** [int(s)] for a string of decimal digits, most significant first. *)
Fixpoint int_digits (acc : Z) (s : string) : Z :=
  match s with
  | EmptyString => acc
  | String c s' => int_digits (10 * acc + (Z.of_nat (nat_of_ascii c) - 48)) s'
  end.

Definition int_of_digits (s : string) : Z := int_digits 0 s.

(** [str(n)] for an integer. *)
Definition str_of_int (n : Z) : string := NilZero.string_of_int (Z.to_int n).

(** [s.replace(old, new)] for a non-empty [old]: the scan goes left to
    right, [skip] counts the characters of the occurrence being consumed. *)
Fixpoint replace_from (old new : string) (skip : nat) (s : string) : string :=
  match s with
  | EmptyString => EmptyString
  | String c s' =>
      match skip with
      | S k => replace_from old new k s'
      | O =>
          if String.prefix old s
          then new +:+ replace_from old new (String.length old - 1) s'
          else String c (replace_from old new 0 s')
      end
  end.

(** [s.replace("", new)] puts [new] before every character and at the end. *)
Fixpoint intersperse_all (new : string) (s : string) : string :=
  match s with
  | EmptyString => new
  | String c s' => new +:+ String c (intersperse_all new s')
  end.

(** [s.replace(old, new)]: every non-overlapping occurrence, leftmost first. *)
Definition replace (old new s : string) : string :=
  match old with
  | EmptyString => intersperse_all new s
  | _ => replace_from old new 0 s
  end.

(** What a replacement of the first occurrence only would be,
    [s.replace(old, new, 1)]; used to compare with the documentation. *)
Fixpoint replace_first (old new : string) (s : string) : string :=
  match s with
  | EmptyString => match old with EmptyString => new | _ => EmptyString end
  | String c s' =>
      if String.prefix old s
      then new +:+ String.substring (String.length old) (String.length s) s
      else String c (replace_first old new s')
  end.

(** [\w] of [re] on ASCII text. *)
Definition is_word (c : ascii) : bool :=
  let n := nat_of_ascii c in
  (((48 <=? n)%nat && (n <=? 57)%nat) || ((65 <=? n)%nat && (n <=? 90)%nat)
   || ((97 <=? n)%nat && (n <=? 122)%nat) || (n =? 95)%nat)%bool.

Definition word_at (i : nat) (t : string) : bool :=
  match String.get i t with
  | Some c => is_word c
  | None => false
  end.

(** [\b] at offset [i] of [t]: exactly one of the two neighbours is a
    word character (outside of the text counts as a non-word). *)
Definition boundary_at (i : nat) (t : string) : bool :=
  xorb (match i with O => false | S j => word_at j t end) (word_at i t).

(** The pattern [(?i)\b<k>\b] matched at offset [i] of [t], [k] literal. *)
Definition word_match_at (k t : string) (i : nat) : bool :=
  boundary_at i t
  && (i + String.length k <=? String.length t)%nat
  && String.eqb (lower (String.substring i (String.length k) t)) (lower k)
  && boundary_at (i + String.length k) t.

(** [re.search(rf"(?i)\b{re.escape(k)}\b", t)] as a truth value. *)
Definition search_word (k t : string) : bool :=
  existsb (word_match_at k t) (seq 0 (S (String.length t))).

End PyStr.

(* ===================================================================== *)
(** * Config *)
(* ===================================================================== *)

(** Anti-spam defaults. *)
Definition SPAM_WINDOW_SECONDS : Q := 6%Q.
Definition SPAM_MAX_MSGS : nat := 6.

(** [deque(maxlen=SPAM_MAX_MSGS + 3)]. *)
Definition SPAM_DEQUE_MAXLEN : nat := SPAM_MAX_MSGS + 3.

(* ===================================================================== *)
(** * Telegram objects, API calls and exceptions *)
(* ===================================================================== *)

Inductive ChatType := PRIVATE | GROUP | SUPERGROUP | CHANNEL.

Inductive ChatMemberStatus := OWNER | ADMINISTRATOR | MEMBER | RESTRICTED | LEFT | KICKED.

Record Chat := {
  chat_id : Z;
  chat_type : ChatType;
  title : string
}.

Record User := {
  user_id : Z;
  full_name : string;
  mention_html : string          (* the value of [user.mention_html()] *)
}.

Record Message := {
  text : option string;          (* [msg.text] *)
  sender_chat : option Z;        (* [msg.sender_chat.id] *)
  reply_to_message : option (option User)
                                 (* [msg.reply_to_message.from_user] *)
}.

Record Update := {
  effective_chat : option Chat;
  effective_message : option Message;
  effective_user : option User
}.

(** Calls made to the Telegram Bot API. *)
Inductive Action :=
| reply_text (text : string)                      (* [msg.reply_text(text)] *)
| delete                                          (* [msg.delete()] *)
| send_message (chat : Z) (text : string)         (* [msg.chat.send_message] *)
| restrict_chat_member (chat user : Z) (can_send_messages : bool)
                       (until_date : option Z).

Inductive exn :=
| StorageError                    (* [sqlite3.Error] raised by the storage *)
| TelegramError (reason : string) (* raised by a Bot API call *)
| ValueError
| TypeError
| AttributeError.                 (* an attribute of [None] *)

(** What a handler receives besides the update: [context.args], the process
    environment and the behaviour of the outside world during the call. *)
Record Context := {
  args : list string;                     (* [context.args] *)
  OWNER_ID : string;                      (* [os.getenv("OWNER_ID", "")] *)
  get_chat_member : Z -> Z -> option ChatMemberStatus;
                                          (* [None]: the call raises *)
  bot_api : Action -> option string;      (* [Some reason]: the call raises *)
  time_time : Q;                          (* [time.time()] *)
  db_available : bool                     (* [db()] returns a connection *)
}.

(** Values read from and written to a table cell. *)
Inductive PyVal := PNone | PInt (n : Z) | PStr (s : string).

(** Python truthiness of a cell value. *)
Definition truthy (v : PyVal) : bool :=
  match v with
  | PNone => false
  | PInt n => negb (n =? 0)
  | PStr s => negb (String.eqb s EmptyString)
  end.

(** [x or y]. *)
Definition py_or (x y : PyVal) : PyVal := if truthy x then x else y.

(** [int(time.time())]: truncation towards zero. *)
Definition int_of_float (q : Q) : Z := Z.quot (Qnum q) (Zpos (Qden q)).

(* ===================================================================== *)
(** * Storage: the three tables of [init_db] *)
(* ===================================================================== *)

Inductive setting_key := antilink | antispam | welcome | goodbye | rules.

Record SettingsRow := {
  s_chat_id : Z;                 (* INTEGER PRIMARY KEY *)
  s_antilink : PyVal;            (* INTEGER DEFAULT 0 *)
  s_antispam : PyVal;            (* INTEGER DEFAULT 0 *)
  s_welcome : PyVal;             (* TEXT *)
  s_goodbye : PyVal;             (* TEXT *)
  s_rules : PyVal                (* TEXT *)
}.

Record WarnRow := {
  w_chat_id : Z;
  w_user_id : Z;
  w_count : Z                    (* PRIMARY KEY (chat_id, user_id) *)
}.

Record FilterRow := {
  f_chat_id : Z;
  f_key : string;
  f_reply : string               (* PRIMARY KEY (chat_id, key) *)
}.

Record Database := {
  chat_settings : list SettingsRow;
  warns : list WarnRow;
  filters : list FilterRow
}.

(** The process state: the database file and the in-memory tracker
    [chat_id -> user_id -> deque[timestamps]]. *)
Record World := {
  database : Database;
  spam_tracker : gmap Z (gmap Z (list Q))
}.

Definition set_database (d : Database) (w : World) : World :=
  {| database := d; spam_tracker := spam_tracker w |}.

Definition set_spam_tracker (t : gmap Z (gmap Z (list Q))) (w : World) : World :=
  {| database := database w; spam_tracker := t |}.

(* ===================================================================== *)
(** * The handler monad *)
(* ===================================================================== *)

Inductive outcome (A : Type) :=
| Return (a : A)
| Raise (e : exn).
Arguments Return {A} a.
Arguments Raise {A} e.

(** A computation ends in a world, with the API calls it made (in order)
    and either a value or a pending exception. *)
Record Run (A : Type) := mkRun {
  final : World;
  calls : list Action;
  result : outcome A
}.
Arguments mkRun {A}.
Arguments final {A}.
Arguments calls {A}.
Arguments result {A}.

Definition M (A : Type) : Type := World -> Run A.

Global Instance M_ret : MRet M := fun A a w => mkRun w [] (Return a).

Global Instance M_bind : MBind M := fun A B k m w =>
  let r := m w in
  match result r with
  | Return a =>
      let r' := k a (final r) in
      mkRun (final r') (calls r ++ calls r') (result r')
  | Raise e => mkRun (final r) (calls r) (Raise e)
  end.

(** [raise e]. *)
Definition raise {A} (e : exn) : M A := fun w => mkRun w [] (Raise e).

(** [try: body / except Exception as e: handler(e)]. *)
Definition try_except {A} (body : M A) (handler : exn -> M A) : M A :=
  fun w =>
    let r := body w in
    match result r with
    | Return a => r
    | Raise e =>
        let r' := handler e (final r) in
        mkRun (final r') (calls r ++ calls r') (result r')
    end.

(** [await] of one Bot API call: the call is made, and raises when the
    platform rejects it. *)
Definition call (ctx : Context) (a : Action) : M unit :=
  fun w =>
    match bot_api ctx a with
    | None => mkRun w [a] (Return tt)
    | Some reason => mkRun w [a] (Raise (TelegramError reason))
    end.

(** [try: await call / except Exception: pass]. *)
Definition call_quietly (ctx : Context) (a : Action) : M unit :=
  try_except (call ctx a) (fun _ => mret tt).

(** [with db() as conn: body]: the body runs as one transaction, committed
    when it returns; when the storage cannot be opened the call raises and
    nothing is written. *)
Definition transaction {A} (ctx : Context) (body : Database -> Database * A) : M A :=
  fun w =>
    if db_available ctx
    then let '(d, a) := body (database w) in mkRun (set_database d w) [] (Return a)
    else mkRun w [] (Raise StorageError).

(* ===================================================================== *)
(** * DB helpers *)
(* ===================================================================== *)

Definition with_chat_settings (rows : list SettingsRow) (d : Database) : Database :=
  {| chat_settings := rows; warns := warns d; filters := filters d |}.

Definition with_warns (rows : list WarnRow) (d : Database) : Database :=
  {| chat_settings := chat_settings d; warns := rows; filters := filters d |}.

Definition with_filters (rows : list FilterRow) (d : Database) : Database :=
  {| chat_settings := chat_settings d; warns := warns d; filters := rows |}.

(** The row [INSERT INTO chat_settings(chat_id) VALUES (?)] creates. *)
Definition default_settings (chat : Z) : SettingsRow :=
  {| s_chat_id := chat; s_antilink := PInt 0; s_antispam := PInt 0;
     s_welcome := PNone; s_goodbye := PNone; s_rules := PNone |}.

(** [INSERT OR IGNORE INTO chat_settings(chat_id) VALUES (?)]. *)
Definition insert_or_ignore_settings (chat : Z) (rows : list SettingsRow) : list SettingsRow :=
  if existsb (fun r => s_chat_id r =? chat) rows then rows
  else rows ++ [default_settings chat].

Definition column (key : setting_key) (r : SettingsRow) : PyVal :=
  match key with
  | antilink => s_antilink r
  | antispam => s_antispam r
  | welcome => s_welcome r
  | goodbye => s_goodbye r
  | rules => s_rules r
  end.

Definition set_column (key : setting_key) (v : PyVal) (r : SettingsRow) : SettingsRow :=
  match key with
  | antilink => {| s_chat_id := s_chat_id r; s_antilink := v; s_antispam := s_antispam r;
                   s_welcome := s_welcome r; s_goodbye := s_goodbye r; s_rules := s_rules r |}
  | antispam => {| s_chat_id := s_chat_id r; s_antilink := s_antilink r; s_antispam := v;
                   s_welcome := s_welcome r; s_goodbye := s_goodbye r; s_rules := s_rules r |}
  | welcome => {| s_chat_id := s_chat_id r; s_antilink := s_antilink r; s_antispam := s_antispam r;
                  s_welcome := v; s_goodbye := s_goodbye r; s_rules := s_rules r |}
  | goodbye => {| s_chat_id := s_chat_id r; s_antilink := s_antilink r; s_antispam := s_antispam r;
                  s_welcome := s_welcome r; s_goodbye := v; s_rules := s_rules r |}
  | rules => {| s_chat_id := s_chat_id r; s_antilink := s_antilink r; s_antispam := s_antispam r;
                s_welcome := s_welcome r; s_goodbye := s_goodbye r; s_rules := v |}
  end.

(** [UPDATE chat_settings SET key=? WHERE chat_id=?]. *)
Definition update_settings (chat : Z) (key : setting_key) (v : PyVal)
    (rows : list SettingsRow) : list SettingsRow :=
  map (fun r => if s_chat_id r =? chat then set_column key v r else r) rows.

Definition get_setting (ctx : Context) (chat : Z) (key : setting_key) (default : PyVal) : M PyVal :=
  transaction ctx (fun d =>
    match List.find (fun r => s_chat_id r =? chat) (chat_settings d) with
    | None =>
        (* ensure row exists *)
        (with_chat_settings (insert_or_ignore_settings chat (chat_settings d)) d, default)
    | Some row =>
        (d, match column key row with PNone => default | v => v end)
    end).

Definition set_setting (ctx : Context) (chat : Z) (key : setting_key) (value : PyVal) : M unit :=
  transaction ctx (fun d =>
    (with_chat_settings
       (update_settings chat key value (insert_or_ignore_settings chat (chat_settings d))) d,
     tt)).

Definition warn_row_is (chat user : Z) (r : WarnRow) : bool :=
  (w_chat_id r =? chat) && (w_user_id r =? user).

Definition get_warns (ctx : Context) (chat user : Z) : M Z :=
  transaction ctx (fun d =>
    (d, match List.find (warn_row_is chat user) (warns d) with
        | Some row => w_count row
        | None => 0
        end)).

(** [INSERT INTO warns ... ON CONFLICT(chat_id, user_id) DO UPDATE SET
    count=excluded.count]. *)
Fixpoint upsert_warn (chat user count : Z) (rows : list WarnRow) : list WarnRow :=
  match rows with
  | [] => [{| w_chat_id := chat; w_user_id := user; w_count := count |}]
  | r :: rest =>
      if warn_row_is chat user r
      then {| w_chat_id := chat; w_user_id := user; w_count := count |} :: rest
      else r :: upsert_warn chat user count rest
  end.

Definition set_warns (ctx : Context) (chat user count : Z) : M unit :=
  transaction ctx (fun d => (with_warns (upsert_warn chat user count (warns d)) d, tt)).

Definition reset_warns (ctx : Context) (chat user : Z) : M unit :=
  transaction ctx (fun d =>
    (with_warns (List.filter (fun r => negb (warn_row_is chat user r)) (warns d)) d, tt)).

Definition filter_row_is (chat : Z) (key : string) (r : FilterRow) : bool :=
  (f_chat_id r =? chat) && String.eqb (f_key r) key.

(** [INSERT INTO filters ... ON CONFLICT(chat_id, key) DO UPDATE SET
    reply=excluded.reply]. *)
Fixpoint upsert_filter (chat : Z) (key reply : string) (rows : list FilterRow) : list FilterRow :=
  match rows with
  | [] => [{| f_chat_id := chat; f_key := key; f_reply := reply |}]
  | r :: rest =>
      if filter_row_is chat key r
      then {| f_chat_id := chat; f_key := key; f_reply := reply |} :: rest
      else r :: upsert_filter chat key reply rest
  end.

Definition add_filter (ctx : Context) (chat : Z) (key reply : string) : M unit :=
  let key := PyStr.lower (PyStr.strip key) in
  transaction ctx (fun d => (with_filters (upsert_filter chat key reply (filters d)) d, tt)).

Definition remove_filter (ctx : Context) (chat : Z) (key : string) : M bool :=
  let key := PyStr.lower (PyStr.strip key) in
  transaction ctx (fun d =>
    (with_filters (List.filter (fun r => negb (filter_row_is chat key r)) (filters d)) d,
     existsb (filter_row_is chat key) (filters d))).

(** The loop of [match_filter] over the fetched rows: the first row whose
    key occurs in [t] as a whole word, or equals the stripped [t], wins. *)
Fixpoint first_match (t : string) (rows : list FilterRow) : option string :=
  match rows with
  | [] => None
  | r :: rest =>
      let k := PyStr.lower (f_key r) in
      if PyStr.search_word k t || String.eqb (PyStr.strip t) k
      then Some (f_reply r)
      else first_match t rest
  end.

(** [SELECT key, reply FROM filters WHERE chat_id=?]; the rows come in
    table order. *)
Definition select_filters (chat : Z) (rows : list FilterRow) : list FilterRow :=
  List.filter (fun r => f_chat_id r =? chat) rows.

Definition match_filter (ctx : Context) (chat : Z) (text : string) : M (option string) :=
  if String.eqb text EmptyString then mret None
  else
    let t := PyStr.lower text in
    rows ← transaction ctx (fun d => (d, select_filters chat (filters d)));
    mret (first_match t rows).

(* ===================================================================== *)
(** * Permission helpers *)
(* ===================================================================== *)

Definition owner_id (ctx : Context) : option Z :=
  let v := PyStr.strip (OWNER_ID ctx) in
  if PyStr.isdigit v then Some (PyStr.int_of_digits v) else None.

Definition is_group (chat : Chat) : bool :=
  match chat_type chat with
  | GROUP | SUPERGROUP => true
  | _ => false
  end.

Definition is_admin_status (s : ChatMemberStatus) : bool :=
  match s with
  | ADMINISTRATOR | OWNER => true
  | _ => false
  end.

(** The last two steps of [is_admin]: owner bypass, then the normal check. *)
Definition is_admin_user (ctx : Context) (chat : Chat) (user : option User) : bool :=
  match user with
  | Some u =>
      if match owner_id ctx with
         | Some oid => negb (oid =? 0) && (user_id u =? oid)
         | None => false
         end
      then true
      else match get_chat_member ctx (chat_id chat) (user_id u) with
           | Some st => is_admin_status st
           | None => false
           end
  | None => false
  end.

Definition is_admin (update : Update) (ctx : Context) : bool :=
  match effective_chat update with
  | None => false
  | Some chat =>
      if negb (is_group chat) then false
      else
        match effective_message update ≫= sender_chat with
        | Some sc =>
            (* anonymous admin, or sent as a linked channel *)
            if sc =? chat_id chat then true
            else if match get_chat_member ctx (chat_id chat) sc with
                    | Some st => is_admin_status st
                    | None => false
                    end
            then true
            else is_admin_user ctx chat (effective_user update)
        | None => is_admin_user ctx chat (effective_user update)
        end
  end.

(** [await update.effective_message.reply_text(text)]. *)
Definition reply (update : Update) (ctx : Context) (text : string) : M unit :=
  match effective_message update with
  | Some _ => call ctx (reply_text text)
  | None => raise AttributeError
  end.

(** [update.effective_chat.id]. *)
Definition effective_chat_id (update : Update) : M Z :=
  match effective_chat update with
  | Some chat => mret (chat_id chat)
  | None => raise AttributeError
  end.

Definition nl : string := String "010"%char EmptyString.

Definition require_admin (update : Update) (ctx : Context) : M bool :=
  if is_admin update ctx then mret true
  else
    match effective_message update with
    | Some _ =>
        call ctx (reply_text ("⛔ Access Denied" +:+ nl +:+
                              "Only group admins can use this command."));;
        mret false
    | None => mret false
    end.

Definition parse_target_from_reply (update : Update) : option Z :=
  match effective_message update with
  | Some msg =>
      match reply_to_message msg with
      | Some (Some from_user) => Some (user_id from_user)
      | _ => None
      end
  | None => None
  end.

Definition parse_target_from_args (ctx : Context) : option Z :=
  match args ctx with
  | [] => None
  | a :: _ =>
      let arg := PyStr.strip a in
      if PyStr.isdigit arg then Some (PyStr.int_of_digits arg) else None
  end.

(** Truth value of an [Optional[int]]: [None] and [0] are false. *)
Definition truthy_id (o : option Z) : bool :=
  match o with
  | Some n => negb (n =? 0)
  | None => false
  end.

Definition get_target_user_id (update : Update) (ctx : Context) : option Z :=
  let uid := parse_target_from_reply update in
  if truthy_id uid then uid
  else
    let uid := parse_target_from_args ctx in
    if truthy_id uid then uid else None.

(** [str(e)] of a caught exception. *)
Definition str_exn (e : exn) : string :=
  match e with
  | TelegramError reason => reason
  | StorageError => "StorageError"
  | ValueError => "ValueError"
  | TypeError => "TypeError"
  | AttributeError => "AttributeError"
  end.

(** [int(v)] of a cell value; of a text only the plain digit strings
    are converted. *)
Definition py_int (v : PyVal) : M Z :=
  match v with
  | PInt n => mret n
  | PStr s => if PyStr.isdigit (PyStr.strip s) then mret (PyStr.int_of_digits (PyStr.strip s))
              else raise ValueError
  | PNone => raise TypeError
  end.

(** [int(get_setting(chat_id, key, 0) or 0)], the way the toggles are read. *)
Definition read_toggle (ctx : Context) (chat : Z) (key : setting_key) : M Z :=
  v ← get_setting ctx chat key (PInt 0);
  py_int (py_or v (PInt 0)).

(* ===================================================================== *)
(** * Moderation commands *)
(* ===================================================================== *)

(** The three reports of [warn_cmd]. *)
Definition warn_muted_text (count : Z) : string :=
  "⚠️ Warning issued: *" +:+ PyStr.str_of_int count +:+ "/3*" +:+ nl +:+
  "🔇 Reached 3 warnings — user muted for 24h.".

Definition warn_mute_failed_text (count : Z) (e : exn) : string :=
  "⚠️ Warning issued: " +:+ PyStr.str_of_int count +:+ "/3" +:+ nl +:+
  "❌ Auto-mute failed: " +:+ str_exn e.

Definition warn_count_text (count : Z) : string :=
  "⚠️ Warning issued." +:+ nl +:+
  "Current warnings: *" +:+ PyStr.str_of_int count +:+ "/3*".

Definition warn_cmd (update : Update) (ctx : Context) : M unit :=
  admin ← require_admin update ctx;
  if negb admin then mret tt
  else
    let target := get_target_user_id update ctx in
    match target with
    | Some target_id =>
        if negb (truthy_id target) then
          reply update ctx "⚠️ Reply to a user (or pass numeric user_id) to warn."
        else
          chat_id ← effective_chat_id update;
          n ← get_warns ctx chat_id target_id;
          let count := n + 1 in
          set_warns ctx chat_id target_id count;;
          (* Auto action at 3 warns: mute for 1 day *)
          if 3 <=? count then
            try_except
              (call ctx (restrict_chat_member chat_id target_id false
                           (Some (int_of_float (time_time ctx) + 86400)));;
               reply update ctx (warn_muted_text count))
              (fun e => reply update ctx (warn_mute_failed_text count e))
          else
            reply update ctx (warn_count_text count)
    | None =>
        reply update ctx "⚠️ Reply to a user (or pass numeric user_id) to warn."
    end.

Definition resetwarns_cmd (update : Update) (ctx : Context) : M unit :=
  admin ← require_admin update ctx;
  if negb admin then mret tt
  else
    let target := get_target_user_id update ctx in
    match target with
    | Some target_id =>
        if negb (truthy_id target) then
          reply update ctx "⚠️ Reply to a user (or pass numeric user_id) to reset warnings."
        else
          chat_id ← effective_chat_id update;
          reset_warns ctx chat_id target_id;;
          reply update ctx "✅ Warnings reset."
    | None =>
        reply update ctx "⚠️ Reply to a user (or pass numeric user_id) to reset warnings."
    end.

(* ===================================================================== *)
(** * Protection commands *)
(* ===================================================================== *)

Definition antilink_cmd (update : Update) (ctx : Context) : M unit :=
  admin ← require_admin update ctx;
  if negb admin then mret tt
  else
    chat_id ← effective_chat_id update;
    cur ← read_toggle ctx chat_id antilink;
    let new := if negb (cur =? 0) then 0 else 1 in
    set_setting ctx chat_id antilink (PInt new);;
    reply update ctx
      ("🛑 Anti-link " +:+ (if negb (new =? 0) then "enabled" else "disabled") +:+ ".").

Definition antispam_cmd (update : Update) (ctx : Context) : M unit :=
  admin ← require_admin update ctx;
  if negb admin then mret tt
  else
    chat_id ← effective_chat_id update;
    cur ← read_toggle ctx chat_id antispam;
    let new := if negb (cur =? 0) then 0 else 1 in
    set_setting ctx chat_id antispam (PInt new);;
    reply update ctx
      ("🛡️ Anti-spam " +:+ (if negb (new =? 0) then "enabled" else "disabled") +:+ ".").

(* ===================================================================== *)
(** * The regular expressions of the configuration *)
(* ===================================================================== *)

Module Re.
Import PyStr.

(** [\S] at offset [i]. *)
Definition nonspace_at (t : string) (i : nat) : bool :=
  match String.get i t with
  | Some c => negb (is_space c)
  | None => false
  end.

(** A lower-case literal [p] at offset [i] of [t], ignoring case. *)
Definition lit_at (p t : string) (i : nat) : bool :=
  (i + String.length p <=? String.length t)%nat
  && String.eqb (lower (String.substring i (String.length p) t)) p.

(** [p\S+] at offset [i]. *)
Definition lit_then_nonspace (p t : string) (i : nat) : bool :=
  lit_at p t i && nonspace_at t (i + String.length p).

Definition TLDS : list string :=
  ["com"; "in"; "net"; "org"; "io"; "me"; "app"; "xyz"; "co"].

(** [(?:com|in|...|co)\b] at offset [j]. *)
Definition tld_at (t : string) (j : nat) : bool :=
  existsb (fun tld => lit_at tld t j && boundary_at (j + String.length tld) t) TLDS.

(** [(?:\S+\.)+(?:com|...|co)\b\S*] at offset [i]: since [\S] also matches
    a dot, the repeated group matches exactly the white-space-free
    stretches of two or more characters that end in a dot. *)
Definition bare_domain_at (t : string) (i : nat) : bool :=
  existsb
    (fun j =>
       forallb (nonspace_at t) (seq i (j - i))
       && lit_at "." t j
       && tld_at t (S j))
    (seq (S i) (String.length t - i)).

Definition link_at (t : string) (i : nat) : bool :=
  boundary_at i t
  && (lit_then_nonspace "http://" t i
      || lit_then_nonspace "https://" t i
      || lit_then_nonspace "www." t i
      || lit_then_nonspace "t.me/" t i
      || lit_then_nonspace "telegram.me/" t i
      || bare_domain_at t i).

(** [LINK_RE.search(t)] as a truth value. *)
Definition LINK_RE_search (t : string) : bool :=
  existsb (link_at t) (seq 0 (S (String.length t))).

Definition FENCE : string := "```".

(** The text after the first fence in [s], if there is one. *)
Fixpoint after_fence (s : string) : option string :=
  match s with
  | EmptyString => None
  | String _ s' =>
      if String.prefix FENCE s
      then Some (String.substring 3 (String.length s) s)
      else after_fence s'
  end.

(** The scan of [CODEBLOCK_SAFE.sub("", s)]; [skip] counts the characters
    of the block being removed that are still to be dropped. *)
Fixpoint codeblock_scan (skip : nat) (s : string) : string :=
  match s with
  | EmptyString => EmptyString
  | String c s' =>
      match skip with
      | S k => codeblock_scan k s'
      | O =>
          if String.prefix FENCE s then
            match after_fence (String.substring 3 (String.length s) s) with
            | Some rest => codeblock_scan (String.length s' - String.length rest) s'
            | None => String c (codeblock_scan 0 s')
            end
          else String c (codeblock_scan 0 s')
      end
  end.

(** [CODEBLOCK_SAFE.sub("", s)]: every leftmost shortest span between
    two fences is removed, new lines included. *)
Definition CODEBLOCK_SAFE_sub (s : string) : string := codeblock_scan 0 s.

End Re.

(* ===================================================================== *)
(** * The in-memory anti-spam tracker *)
(* ===================================================================== *)

(** [dq.append(x)] on a [deque(maxlen=n)]: when full, the oldest entry is
    discarded. *)
Definition deque_append (maxlen : nat) (dq : list Q) (x : Q) : list Q :=
  let l := dq ++ [x] in
  drop (length l - maxlen) l.

(** [spam_tracker[chat_id][user_id]] (the deque a [defaultdict] lookup
    gives: empty where none was stored). *)
Definition tracker_get (tr : gmap Z (gmap Z (list Q))) (chat user : Z) : list Q :=
  default [] (tr !! chat ≫= (.!! user)).

Definition tracker_set (tr : gmap Z (gmap Z (list Q))) (chat user : Z) (dq : list Q)
    : gmap Z (gmap Z (list Q)) :=
  <[chat := <[user := dq]> (default ∅ (tr !! chat))]> tr.

(** [now - t <= SPAM_WINDOW_SECONDS]. *)
Definition is_recent (now t : Q) : bool := Qle_bool (now - t) SPAM_WINDOW_SECONDS.

(** [[t for t in dq if now - t <= SPAM_WINDOW_SECONDS]]. *)
Definition recent (now : Q) (dq : list Q) : list Q := List.filter (is_recent now) dq.

(** [len(recent) >= SPAM_MAX_MSGS]. *)
Definition over_limit (now : Q) (dq : list Q) : bool :=
  (SPAM_MAX_MSGS <=? length (recent now dq))%nat.

(** [dq = spam_tracker[chat_id][user_id]; dq.append(now)], giving the
    deque after the append. *)
Definition spam_record (chat user : Z) (now : Q) : M (list Q) :=
  fun w =>
    let dq := deque_append SPAM_DEQUE_MAXLEN (tracker_get (spam_tracker w) chat user) now in
    mkRun (set_spam_tracker (tracker_set (spam_tracker w) chat user dq) w) [] (Return dq).

(* ===================================================================== *)
(** * Moderation engines (antilink + antispam + filter replies) *)
(* ===================================================================== *)

(** [user and await is_admin(update, context)]. *)
Definition sender_is_admin (update : Update) (ctx : Context) : bool :=
  match effective_user update with
  | Some _ => is_admin update ctx
  | None => false
  end.

(** The notice sent after a link was deleted. *)
Definition link_notice (update : Update) : string :=
  "🛑 Links are not allowed here." +:+ nl +:+ "User: " +:+
  match effective_user update with
  | Some u => mention_html u
  | None => "Unknown"
  end.

(** The notice sent after a spammy message was deleted. *)
Definition slow_down_notice (update : Update) : string :=
  "🛡️ Please slow down, " +:+
  match effective_user update with
  | Some u => mention_html u
  | None => "user"
  end +:+ "." +:+ nl +:+ "Spamming is not allowed.".

(** 1) Filters auto reply (doesn't delete). *)
Definition filter_reply (update : Update) (ctx : Context) (chat : Z) (text : string) : M unit :=
  reply_opt ← match_filter ctx chat text;
  match reply_opt with
  | Some r => if String.eqb r EmptyString then mret tt else call ctx (reply_text r)
  | None => mret tt
  end.

(** 2) Anti-link; the value tells whether the handler returned here. *)
Definition anti_link (update : Update) (ctx : Context) (chat : Z) (text : string) : M bool :=
  antilink_on ← read_toggle ctx chat antilink;
  if negb (antilink_on =? 0) then
    (* ignore code blocks for false positives *)
    let scrub := Re.CODEBLOCK_SAFE_sub text in
    if Re.LINK_RE_search scrub then
      (* if sender is admin, skip deletion *)
      if sender_is_admin update ctx then mret true
      else
        call_quietly ctx delete;;
        call_quietly ctx (send_message chat (link_notice update));;
        mret true
    else mret false
  else mret false.

(** 3) Anti-spam (simple). *)
Definition anti_spam (update : Update) (ctx : Context) (chat user : Z) : M unit :=
  antispam_on ← read_toggle ctx chat antispam;
  if negb (antispam_on =? 0) then
    if sender_is_admin update ctx then mret tt
    else
      let now := time_time ctx in
      dq ← spam_record chat user now;
      (* Count messages within window *)
      if over_limit now dq then
        (* Delete spammy message *)
        call_quietly ctx delete;;
        (* Warn user (soft) *)
        call_quietly ctx (send_message chat (slow_down_notice update))
      else mret tt
  else mret tt.

(** The handler of text messages. The first [is_admin] query of the
    source ("Skip admin moderation (optional)") has an empty body and is
    left out; the three numbered steps are the definitions above. *)
Definition moderate_messages (update : Update) (ctx : Context) : M unit :=
  match effective_chat update with
  | None => mret tt
  | Some chat =>
      if negb (is_group chat) then mret tt
      else
        match effective_message update with
        | None => mret tt
        | Some msg =>
            match text msg with
            | None => mret tt
            | Some txt =>
                if String.eqb txt EmptyString then mret tt
                else
                  let chat_id := chat_id chat in
                  let user_id := match effective_user update with
                                 | Some u => user_id u
                                 | None => 0
                                 end in
                  filter_reply update ctx chat_id txt;;
                  stop ← anti_link update ctx chat_id txt;
                  if (stop : bool) then mret tt
                  else anti_spam update ctx chat_id user_id
            end
        end
  end.

(* ===================================================================== *)
(** * Welcome / Goodbye handler *)
(* ===================================================================== *)

Definition render_template (template : string) (user : option User) (chat : option Chat)
    : string :=
  let name := match user with Some u => full_name u | None => "there" end in
  let mention := match user with Some u => mention_html u | None => "there" end in
  let uid := match user with Some u => PyStr.str_of_int (user_id u) | None => "0" end in
  let chatname := match chat with Some c => title c | None => "this chat" end in
  let out := PyStr.replace "{name}" name template in
  let out := PyStr.replace "{mention}" mention out in
  let out := PyStr.replace "{id}" uid out in
  let out := PyStr.replace "{chat}" chatname out in
  out.

(** The rendering the documentation describes: only the first occurrence
    of each placeholder is replaced. *)
Definition render_template_first_match (template : string) (user : option User)
    (chat : option Chat) : string :=
  let name := match user with Some u => full_name u | None => "there" end in
  let mention := match user with Some u => mention_html u | None => "there" end in
  let uid := match user with Some u => PyStr.str_of_int (user_id u) | None => "0" end in
  let chatname := match chat with Some c => title c | None => "this chat" end in
  let out := PyStr.replace_first "{name}" name template in
  let out := PyStr.replace_first "{mention}" mention out in
  let out := PyStr.replace_first "{id}" uid out in
  let out := PyStr.replace_first "{chat}" chatname out in
  out.

(* ===================================================================== *)
(** * Vocabulary of the properties *)
(* ===================================================================== *)

(** ** Templates as sequences of literal text and placeholders *)

Module Template.

(** A string without the character [c]. *)
Fixpoint free_of (c : ascii) (s : string) : bool :=
  match s with
  | EmptyString => true
  | String a s' => negb (Ascii.eqb a c) && free_of c s'
  end.

Inductive Piece :=
| Lit (s : string)
| Name
| Mention
| Id
| ChatName.

(** How a piece is written in a template. *)
Definition source (p : Piece) : string :=
  match p with
  | Lit s => s
  | Name => "{name}"
  | Mention => "{mention}"
  | Id => "{id}"
  | ChatName => "{chat}"
  end.

Fixpoint template_of (ps : list Piece) : string :=
  match ps with
  | [] => EmptyString
  | p :: rest => source p +:+ template_of rest
  end.

(** The four values [render_template] substitutes. *)
Definition name_field (user : option User) : string :=
  match user with Some u => full_name u | None => "there" end.
Definition mention_field (user : option User) : string :=
  match user with Some u => mention_html u | None => "there" end.
Definition id_field (user : option User) : string :=
  match user with Some u => PyStr.str_of_int (user_id u) | None => "0" end.
Definition chat_field (chat : option Chat) : string :=
  match chat with Some c => title c | None => "this chat" end.

Definition value (user : option User) (chat : option Chat) (p : Piece) : string :=
  match p with
  | Lit s => s
  | Name => name_field user
  | Mention => mention_field user
  | Id => id_field user
  | ChatName => chat_field chat
  end.

(** The text in which every placeholder carries its value. *)
Fixpoint filled (user : option User) (chat : option Chat) (ps : list Piece) : string :=
  match ps with
  | [] => EmptyString
  | p :: rest => value user chat p +:+ filled user chat rest
  end.

(** Literal text has no opening brace (it cannot be taken for, or
    complete, a placeholder). *)
Definition plain (p : Piece) : bool :=
  match p with
  | Lit s => free_of "{" s
  | _ => true
  end.

(** The substituted values have no opening brace either. *)
Definition plain_fields (user : option User) (chat : option Chat) : bool :=
  free_of "{" (name_field user) && free_of "{" (mention_field user)
  && free_of "{" (chat_field chat).

Definition same_kind (p q : Piece) : bool :=
  match p, q with
  | Name, Name | Mention, Mention | Id, Id | ChatName, ChatName => true
  | _, _ => false
  end.

(** One pass: the pieces of kind [p0] become the literal [v]. *)
Definition pass (p0 : Piece) (v : string) (ps : list Piece) : list Piece :=
  map (fun p => if same_kind p p0 then Lit v else p) ps.

End Template.


(** ** Reading the tables *)

(** The cell of a setting, [PNone] when the chat has no row. *)
Definition setting_cell (d : Database) (chat : Z) (key : setting_key) : PyVal :=
  match List.find (fun r => s_chat_id r =? chat) (chat_settings d) with
  | Some row => column key row
  | None => PNone
  end.

(** A toggle is on when its cell holds a non-zero integer, off when the
    cell is false in Python's sense (0, NULL, no row). *)
Definition setting_on (d : Database) (chat : Z) (key : setting_key) : bool :=
  match setting_cell d chat key with
  | PInt n => negb (n =? 0)
  | _ => false
  end.

Definition setting_off (d : Database) (chat : Z) (key : setting_key) : bool :=
  negb (truthy (setting_cell d chat key)).

(** The stored infraction count of a (chat, user) pair, 0 without a row. *)
Definition warn_count (d : Database) (chat user : Z) : Z :=
  match List.find (warn_row_is chat user) (warns d) with
  | Some row => w_count row
  | None => 0
  end.

(** No count of the ledger is lower in the second world. *)
Definition counts_grow (w w' : World) : Prop :=
  forall c u, warn_count (database w) c u <= warn_count (database w') c u.

(** The key of a row of [filters]. *)
Definition filter_key (r : FilterRow) : Z * string := (f_chat_id r, f_key r).

(** The primary key of [filters]: no two rows share (chat_id, key). *)
Definition filters_pk (rows : list FilterRow) : Prop :=
  List.NoDup (map filter_key rows).


(** ** Observing a run *)

#[global] Instance Action_eq_dec : EqDecision Action.
Proof. solve_decision. Defined.



Definition is_delete (a : Action) : bool :=
  match a with
  | delete => true
  | _ => false
  end.

(** What the link check and the spam check emit when they fire. *)
Definition link_actions (chat : Z) (update : Update) : list Action :=
  [delete; send_message chat (link_notice update)].

Definition spam_actions (chat : Z) (update : Update) : list Action :=
  [delete; send_message chat (slow_down_notice update)].

(** The message of [update] was flagged by the spam check: it was deleted
    and the slow-down notice was sent. *)
Definition spam_flagged (chat : Z) (update : Update) (r : Run unit) : bool :=
  bool_decide (delete ∈ calls r)
  && bool_decide (send_message chat (slow_down_notice update) ∈ calls r).

(** ** Message events *)

Definition Event : Type := Update * Context.

(** The handler runs on each event in turn. *)
Fixpoint run_messages (evs : list Event) (w : World) : list (Run unit) :=
  match evs with
  | [] => []
  | (update, ctx) :: rest =>
      let r := moderate_messages update ctx w in
      r :: run_messages rest (final r)
  end.

Fixpoint world_after (evs : list Event) (w : World) : World :=
  match evs with
  | [] => w
  | (update, ctx) :: rest => world_after rest (final (moderate_messages update ctx w))
  end.

Definition text_of (update : Update) : option string :=
  effective_message update ≫= text.

(** The key under which the sender is tracked: [user.id if user else 0]. *)
Definition sender_key (update : Update) : Z :=
  match effective_user update with
  | Some u => user_id u
  | None => 0
  end.

Definition in_group (chat : Z) (update : Update) : bool :=
  match effective_chat update with
  | Some c => is_group c && (chat_id c =? chat)
  | None => false
  end.

(** The calls of the filter step on a text. *)
Definition filter_calls (d : Database) (chat : Z) (txt : string) : list Action :=
  match first_match (PyStr.lower txt) (select_filters chat (filters d)) with
  | Some r => if String.eqb r EmptyString then [] else [reply_text r]
  | None => []
  end.

(** The filter reply, if there is one, is accepted by the platform. *)
Definition filter_reply_ok (d : Database) (ctx : Context) (chat : Z) (txt : string) : bool :=
  forallb (fun a => bool_decide (bot_api ctx a = None)) (filter_calls d chat txt).

(** The link check lets the text through: the toggle is off, or it is on
    and the scrubbed text holds no link. *)
Definition link_check_passes (d : Database) (chat : Z) (txt : string) : bool :=
  setting_off d chat antilink
  || (setting_on d chat antilink && negb (Re.LINK_RE_search (Re.CODEBLOCK_SAFE_sub txt))).

(** The link check fires on the text. *)
Definition link_check_fires (d : Database) (chat : Z) (txt : string) : bool :=
  setting_on d chat antilink && Re.LINK_RE_search (Re.CODEBLOCK_SAFE_sub txt).

(** The event is a text message of the group [chat] whose handling gets
    to the spam check: the storage answers, the filter reply (if any) is
    delivered and the link check lets the text through. *)
Definition reaches_spam_check (d : Database) (chat : Z) (e : Event) : bool :=
  let '(update, ctx) := e in
  in_group chat update
  && db_available ctx
  && match text_of update with
     | Some txt =>
         negb (String.eqb txt EmptyString)
         && filter_reply_ok d ctx chat txt
         && link_check_passes d chat txt
     | None => false
     end.

(** Such an event of a sender tracked under [uid] and not bypassed. *)
Definition spam_checked (d : Database) (chat uid : Z) (e : Event) : bool :=
  reaches_spam_check d chat e
  && (sender_key (fst e) =? uid)
  && negb (sender_is_admin (fst e) (snd e)).

(** Such an event with no resolvable sender user. *)
Definition senderless (d : Database) (chat : Z) (e : Event) : bool :=
  reaches_spam_check d chat e
  && bool_decide (effective_user (fst e) = None).

(** The timestamps of the events. *)
Definition times (evs : list Event) : list Q := map (fun e => time_time (snd e)) evs.

(** For each event, whether the spam check flagged its message. *)
Definition flags (chat : Z) (evs : list Event) (w : World) : list bool :=
  zip_with (fun e r => spam_flagged chat (fst e) r) evs (run_messages evs w).

(** ** Timestamps *)

(** Every timestamp of [ts] is at most [SPAM_WINDOW_SECONDS] before [now]. *)
Definition within_window (now : Q) (ts : list Q) : bool := forallb (is_recent now) ts.


(** The verdicts of the spam check on the timestamps [ts], starting from
    the deque [dq]. *)
Fixpoint verdicts (dq : list Q) (ts : list Q) : list bool :=
  match ts with
  | [] => []
  | t :: rest =>
      let dq' := deque_append SPAM_DEQUE_MAXLEN dq t in
      over_limit t dq' :: verdicts dq' rest
  end.

(** The deque after the timestamps [ts] were appended to [dq]. *)
Definition deque_after (dq : list Q) (ts : list Q) : list Q :=
  fold_left (deque_append SPAM_DEQUE_MAXLEN) ts dq.

(** ** Commands and messages as one stream *)

Inductive Handler := MODERATE | WARN | RESETWARNS | ANTILINK | ANTISPAM.

Definition dispatch (h : Handler) : Update -> Context -> M unit :=
  match h with
  | MODERATE => moderate_messages
  | WARN => warn_cmd
  | RESETWARNS => resetwarns_cmd
  | ANTILINK => antilink_cmd
  | ANTISPAM => antispam_cmd
  end.

Fixpoint run_handlers (hs : list (Handler * Event)) (w : World) : World :=
  match hs with
  | [] => w
  | (h, (update, ctx)) :: rest => run_handlers rest (final (dispatch h update ctx w))
  end.

Definition is_reset (h : Handler * Event) : bool :=
  match fst h with
  | RESETWARNS => true
  | _ => false
  end.

(** A list of calls made of filter replies only. *)
Definition only_replies (cs : list Action) : bool :=
  forallb (fun a => match a with reply_text _ => true | _ => false end) cs.

(** ** Computations whose final world is related to the initial one *)

Definition keeps (R : World -> World -> Prop) {A} (m : M A) : Prop :=
  forall w, R w (final (m w)).

(** ** Sample objects used to exercise the definitions *)

(** An administrator [al] of the supergroup [room] and a member [bob]. *)
Definition al : User := {| user_id := 7; full_name := "Al"; mention_html := "<a>Al</a>" |}.
Definition bob : User := {| user_id := 42; full_name := "Bob"; mention_html := "<a>Bob</a>" |}.
Definition room : Chat := {| chat_id := -100; chat_type := SUPERGROUP; title := "Room" |}.

(** A call at time [now]: no arguments, no owner configured, user 7 is an
    administrator, the platform accepts every call, the storage answers. *)
Definition sample_ctx (now : Q) : Context :=
  {| args := [];
     OWNER_ID := "";
     get_chat_member := fun _ u => if u =? 7 then Some ADMINISTRATOR else Some MEMBER;
     bot_api := fun _ => None;
     time_time := now;
     db_available := true |}.


Definition sample_settings (link spam : Z) : SettingsRow :=
  {| s_chat_id := -100; s_antilink := PInt link; s_antispam := PInt spam;
     s_welcome := PNone; s_goodbye := PNone; s_rules := PNone |}.

(** A world in which [bob] has [n] warnings in [room]. *)
Definition sample_world (link spam n : Z) : World :=
  {| database :=
       {| chat_settings := [sample_settings link spam];
          warns := [{| w_chat_id := -100; w_user_id := 42; w_count := n |}];
          filters := [] |};
     spam_tracker := ∅ |}.

(** [al] replies to a message of [bob] with a command. *)
Definition sample_command (cmd : string) : Update :=
  {| effective_chat := Some room;
     effective_message :=
       Some {| text := Some cmd; sender_chat := None;
               reply_to_message := Some (Some bob) |};
     effective_user := Some al |}.

(** [bob] posts a text in [room]. *)
Definition sample_message (txt : string) : Update :=
  {| effective_chat := Some room;
     effective_message :=
       Some {| text := Some txt; sender_chat := None; reply_to_message := None |};
     effective_user := Some bob |}.

(** A text posted in [room] on behalf of the chat [sender], with no user. *)
Definition sample_senderless (sender : Z) (txt : string) : Update :=
  {| effective_chat := Some room;
     effective_message :=
       Some {| text := Some txt; sender_chat := Some sender; reply_to_message := None |};
     effective_user := None |}.

(** Six messages of [bob] in three seconds, then the same sender at one
    message every ten seconds. *)
Definition sample_burst : list Event :=
  [(sample_message "a", sample_ctx 100); (sample_message "b", sample_ctx 100.5);
   (sample_message "c", sample_ctx 101); (sample_message "d", sample_ctx 102);
   (sample_message "e", sample_ctx 102.5); (sample_message "f", sample_ctx 103)].


(** Eight messages of [bob] in four seconds. *)
Definition sample_flood : list Event :=
  sample_burst ++ [(sample_message "g", sample_ctx 103.5); (sample_message "h", sample_ctx 104)].

(** Six sender-less messages in three seconds, posted on behalf of six
    different chats, the group itself (an anonymous administrator) among
    them. *)
Definition sample_senderless_burst : list Event :=
  [(sample_senderless (-201) "a", sample_ctx 100);
   (sample_senderless (-202) "b", sample_ctx 100.5);
   (sample_senderless (-100) "c", sample_ctx 101);
   (sample_senderless (-204) "d", sample_ctx 102);
   (sample_senderless (-205) "e", sample_ctx 102.5);
   (sample_senderless (-206) "f", sample_ctx 103)].

(** A world with empty tables and an empty tracker. *)
Definition empty_world : World :=
  {| database := {| chat_settings := []; warns := []; filters := [] |};
     spam_tracker := ∅ |}.

(** [room] after [/filter foo A] and [/filter foo-bar B]. *)
Definition sample_filters : World :=
  final (add_filter (sample_ctx 0) (-100) "foo-bar" "B"
           (final (add_filter (sample_ctx 0) (-100) "foo" "A" empty_world))).

(* ===================================================================== *)
(** * Further helpers and handlers of [main.py] *)
(* ===================================================================== *)

Module PySplit.
Import PyStr.

(** The longest white-space-free prefix of [s]. *)
Fixpoint word (s : string) : string :=
  match s with
  | EmptyString => EmptyString
  | String c s' => if is_space c then EmptyString else String c (word s')
  end.

(** What follows that prefix. *)
Fixpoint after_word (s : string) : string :=
  match s with
  | EmptyString => EmptyString
  | String c s' => if is_space c then s else after_word s'
  end.

(** [s.split(None, maxsplit)]: at most [maxsplit] words are cut off at
    runs of white space; what remains after them, leading white space
    dropped, is the last part when it is not empty. *)
Fixpoint split (maxsplit : nat) (s : string) : list string :=
  match maxsplit with
  | O =>
      match lstrip s with
      | EmptyString => []
      | rest => [rest]
      end
  | S m =>
      match lstrip s with
      | EmptyString => []
      | rest => word rest :: split m (after_word rest)
      end
  end.

End PySplit.

(** ** DB helpers: the listing of the filters *)

(** The place of a key in a list in ascending order. *)
Fixpoint insert_key (k : string) (ks : list string) : list string :=
  match ks with
  | [] => [k]
  | x :: rest => if String.leb k x then k :: ks else x :: insert_key k rest
  end.

(** [ORDER BY key ASC] (binary collation: byte order, a prefix first). *)
Definition order_by_key (ks : list string) : list string :=
  fold_right insert_key [] ks.

Definition list_filters (ctx : Context) (chat : Z) : M (list string) :=
  transaction ctx (fun d => (d, order_by_key (map f_key (select_filters chat (filters d))))).

(** ** Moderation commands: [/warns] and [/mute] *)

(** [update.effective_user.id]. *)
Definition effective_user_id (update : Update) : M Z :=
  match effective_user update with
  | Some u => mret (user_id u)
  | None => raise AttributeError
  end.

Definition warns_text (count : Z) : string :=
  "⚠️ Warnings: *" +:+ PyStr.str_of_int count +:+ "/3*".

Definition warns_cmd (update : Update) (ctx : Context) : M unit :=
  chat_id ← effective_chat_id update;
  let target := get_target_user_id update ctx in
  target_id ← match target with
              | Some t =>
                  if negb (truthy_id target)
                  then effective_user_id update
                  else mret t
              | None =>
                  (* If used as reply, good; otherwise show sender's warns *)
                  effective_user_id update
              end;
  count ← get_warns ctx chat_id target_id;
  reply update ctx (warns_text count).

(** The units of a mute duration. *)
Definition is_unit (c : ascii) : bool :=
  match c with
  | "s" | "m" | "h" | "d" => true
  | _ => false
  end%char.

(** [{"s": 1, "m": 60, "h": 3600, "d": 86400}[unit]]. *)
Definition unit_seconds (c : ascii) : Z :=
  match c with
  | "s" => 1
  | "m" => 60
  | "h" => 3600
  | "d" => 86400
  | _ => 0
  end%char.

(** The groups of [re.fullmatch(r"(\d+)([smhd])", s)], the first one
    possibly empty here: digits up to the last character, which is a
    unit. *)
Fixpoint duration_groups (s : string) : option (string * ascii) :=
  match s with
  | EmptyString => None
  | String c EmptyString => if is_unit c then Some (EmptyString, c) else None
  | String c rest =>
      if PyStr.is_digit c then
        match duration_groups rest with
        | Some (ds, u) => Some (String c ds, u)
        | None => None
        end
      else None
  end.

(** The seconds a duration such as [10m] stands for; [None] when the
    pattern does not match. *)
Definition parse_duration (dur : string) : option Z :=
  match duration_groups (PyStr.lower dur) with
  | Some (ds, u) =>
      if String.eqb ds EmptyString then None
      else Some (PyStr.int_of_digits ds * unit_seconds u)
  | None => None
  end.

(** The argument of [/mute] taken for the duration: the second one when
    the first is a numeric user id and a second exists, else the first. *)
Definition mute_duration_arg (args : list string) : option string :=
  match args with
  | [] => None
  | a0 :: rest =>
      match rest with
      | a1 :: _ => if PyStr.isdigit a0 then Some a1 else Some a0
      | [] => Some a0
      end
  end.

(** [until_date] of [/mute]; [None] mutes for ever. *)
Definition mute_until (ctx : Context) : option Z :=
  match mute_duration_arg (args ctx) with
  | Some dur =>
      if String.eqb dur EmptyString then None
      else
        match parse_duration dur with
        | Some seconds => Some (int_of_float (time_time ctx) + seconds)
        | None => None
        end
  | None => None
  end.

Definition mute_cmd (update : Update) (ctx : Context) : M unit :=
  admin ← require_admin update ctx;
  if negb admin then mret tt
  else
    let target := get_target_user_id update ctx in
    match target with
    | Some target_id =>
        if negb (truthy_id target) then
          reply update ctx "⚠️ Reply to a user (or pass numeric user_id) to mute."
        else
          (* Optional: /mute 10m or /mute 1h  (we'll parse but default to forever) *)
          let until_date := mute_until ctx in
          try_except
            (chat_id ← effective_chat_id update;
             call ctx (restrict_chat_member chat_id target_id false until_date);;
             reply update ctx "🔇 User muted.")
            (fun e => reply update ctx ("❌ Failed to mute: " +:+ str_exn e))
    | None =>
        reply update ctx "⚠️ Reply to a user (or pass numeric user_id) to mute."
    end.

(** ** Welcome/Goodbye + Rules *)

(** [update.effective_message.text], the empty string when it is [None]. *)
Definition message_text (update : Update) : M string :=
  match effective_message update with
  | Some msg => mret (default EmptyString (text msg))
  | None => raise AttributeError
  end.

(** The common body of [setwelcome_cmd], [setgoodbye_cmd] and
    [setrules_cmd], which differ in the column and in the two texts. *)
Definition set_text_setting (key : setting_key) (usage saved : string)
    (update : Update) (ctx : Context) : M unit :=
  admin ← require_admin update ctx;
  if negb admin then mret tt
  else
    chat_id ← effective_chat_id update;
    txt ← message_text update;
    match PySplit.split 1 txt with
    | _ :: body :: _ =>
        set_setting ctx chat_id key (PStr (PyStr.strip body));;
        reply update ctx saved
    | _ => reply update ctx usage
    end.

Definition setwelcome_cmd : Update -> Context -> M unit :=
  set_text_setting welcome
    ("Usage:" +:+ nl +:+ "/setwelcome Welcome {name}! 🎉" +:+ nl +:+ nl +:+
     "Placeholders: {name} {mention} {id} {chat}")
    "🎉 Welcome message updated successfully.".

Definition setgoodbye_cmd : Update -> Context -> M unit :=
  set_text_setting goodbye
    ("Usage:" +:+ nl +:+ "/setgoodbye Goodbye {name}! 👋" +:+ nl +:+ nl +:+
     "Placeholders: {name} {mention} {id} {chat}")
    "👋 Goodbye message updated successfully.".

Definition setrules_cmd : Update -> Context -> M unit :=
  set_text_setting rules
    ("Usage:" +:+ nl +:+ "/setrules 1) Be respectful" +:+ nl +:+ "2) No spam" +:+ nl +:+
     "3) No links")
    "📜 Group rules updated.".

(** [f"{v}"] of a cell value that is not [None]. *)
Definition str_pyval (v : PyVal) : string :=
  match v with
  | PStr s => s
  | PInt n => PyStr.str_of_int n
  | PNone => "None"
  end.

Definition rules_cmd (update : Update) (ctx : Context) : M unit :=
  chat_id ← effective_chat_id update;
  r ← get_setting ctx chat_id rules PNone;
  if negb (truthy r) then
    reply update ctx "📜 No rules set yet. Admins can set with /setrules"
  else
    reply update ctx ("📜 *Group Rules*" +:+ nl +:+ nl +:+ str_pyval r).

(** ** Filters *)

Definition filter_usage : string :=
  "Usage:" +:+ nl +:+ "/filter hello Hi! 😊" +:+ nl +:+
  "/filter price Contact admin for pricing.".

Definition filter_cmd (update : Update) (ctx : Context) : M unit :=
  admin ← require_admin update ctx;
  if negb admin then mret tt
  else
    txt ← message_text update;
    match PySplit.split 2 txt with
    | _ :: part1 :: part2 :: _ =>
        let key := PyStr.strip part1 in
        let answer := PyStr.strip part2 in
        chat_id ← effective_chat_id update;
        add_filter ctx chat_id key answer;;
        reply update ctx ("✅ Filter saved for: *" +:+ key +:+ "*")
    | _ => reply update ctx filter_usage
    end.

Definition stop_cmd (update : Update) (ctx : Context) : M unit :=
  admin ← require_admin update ctx;
  if negb admin then mret tt
  else
    match args ctx with
    | [] => reply update ctx ("Usage:" +:+ nl +:+ "/stop <key>")
    | a :: _ =>
        let key := PyStr.strip a in
        chat_id ← effective_chat_id update;
        ok ← remove_filter ctx chat_id key;
        reply update ctx
          (if (ok : bool) then "✅ Filter removed." else "ℹ️ No such filter found.")
    end.

Definition filters_cmd (update : Update) (ctx : Context) : M unit :=
  chat_id ← effective_chat_id update;
  keys ← list_filters ctx chat_id;
  match keys with
  | [] => reply update ctx "ℹ️ No filters set."
  | _ =>
      reply update ctx
        ("🧠 *Active Filters*" +:+ nl +:+
         String.concat nl (map (fun k => "• `" +:+ k +:+ "`") keys))
  end.

(** ** Welcome / Goodbye handler *)

Record ChatMember := {
  member_status : ChatMemberStatus;      (* [member.status] *)
  member_user : User                     (* [member.user] *)
}.

(** [update.chat_member]. *)
Record ChatMemberUpdated := {
  member_chat : Chat;                    (* [update.chat_member.chat] *)
  old_chat_member : option ChatMember;
  new_chat_member : option ChatMember
}.

Definition status_in (s : ChatMemberStatus) (l : list ChatMemberStatus) : bool :=
  existsb (fun x => match x, s with
                    | OWNER, OWNER | ADMINISTRATOR, ADMINISTRATOR | MEMBER, MEMBER
                    | RESTRICTED, RESTRICTED | LEFT, LEFT | KICKED, KICKED => true
                    | _, _ => false
                    end) l.

(** [old and new and old.status in (...) and new.status in (...)]. *)
Definition transition (cm : ChatMemberUpdated) (from to : list ChatMemberStatus) : bool :=
  match old_chat_member cm, new_chat_member cm with
  | Some old, Some new => status_in (member_status old) from && status_in (member_status new) to
  | _, _ => false
  end.

(** The greeting of one direction: read the template, and when it is set
    send its rendering; a failure to render or to send is passed over. *)
Definition greet (ctx : Context) (cm : ChatMemberUpdated) (key : setting_key) : M unit :=
  tpl ← get_setting ctx (chat_id (member_chat cm)) key PNone;
  match tpl with
  | PStr template =>
      if String.eqb template EmptyString then mret tt
      else
        call_quietly ctx
          (send_message (chat_id (member_chat cm))
             (render_template template (member_user <$> new_chat_member cm) (Some (member_chat cm))))
  | PInt _ => mret tt      (* [template.replace] raises inside the [try] *)
  | PNone => mret tt
  end.

Definition chat_member_update (chat_member : option ChatMemberUpdated) (ctx : Context)
    : M unit :=
  match chat_member with
  | None => mret tt
  | Some cm =>
      (* Joined *)
      (if transition cm [LEFT; KICKED] [MEMBER; RESTRICTED]
       then greet ctx cm welcome else mret tt);;
      (* Left / kicked *)
      (if transition cm [MEMBER; RESTRICTED] [LEFT; KICKED]
       then greet ctx cm goodbye else mret tt)
  end.

(** ** Everything the application handles *)

Inductive Entry :=
| CLAIMED (h : Handler)
| WARNS | MUTE | FILTER | STOP | FILTERS | SETWELCOME | SETGOODBYE | SETRULES | RULES.

Definition entry_point (e : Entry) : Update -> Context -> M unit :=
  match e with
  | CLAIMED h => dispatch h
  | WARNS => warns_cmd
  | MUTE => mute_cmd
  | FILTER => filter_cmd
  | STOP => stop_cmd
  | FILTERS => filters_cmd
  | SETWELCOME => setwelcome_cmd
  | SETGOODBYE => setgoodbye_cmd
  | SETRULES => setrules_cmd
  | RULES => rules_cmd
  end.

(** An update with its handler, or a membership transition. *)
Inductive Incoming :=
| COMMAND (e : Entry) (update : Update) (ctx : Context)
| MEMBER_UPDATE (chat_member : option ChatMemberUpdated) (ctx : Context).

Definition handle (i : Incoming) : M unit :=
  match i with
  | COMMAND e update ctx => entry_point e update ctx
  | MEMBER_UPDATE chat_member ctx => chat_member_update chat_member ctx
  end.

Fixpoint handle_all (incoming : list Incoming) (w : World) : World :=
  match incoming with
  | [] => w
  | i :: rest => handle_all rest (final (handle i w))
  end.

(** ** Invariants of the state *)

(** No deque of the tracker is longer than its [maxlen]. *)
Definition tracker_bounded (w : World) : Prop :=
  forall chat user,
    (length (tracker_get (spam_tracker w) chat user) <= SPAM_DEQUE_MAXLEN)%nat.

Definition warn_key (r : WarnRow) : Z * Z := (w_chat_id r, w_user_id r).

(** The primary keys of the three tables. *)
Definition primary_keys (d : Database) : Prop :=
  List.NoDup (map s_chat_id (chat_settings d))
  /\ List.NoDup (map warn_key (warns d))
  /\ filters_pk (filters d).

(** The deques of all keys but (chat, user) are the same in both worlds. *)
Definition same_deques_but (chat user : Z) (w w' : World) : Prop :=
  forall c u, (c, u) <> (chat, user) ->
    tracker_get (spam_tracker w') c u = tracker_get (spam_tracker w) c u.

(** Boundedness of the tracker carries over from the first world to the
    second. *)
Definition bounded_stays (w w' : World) : Prop := tracker_bounded w -> tracker_bounded w'.

(** The primary keys carry over from the first world to the second. *)
Definition keys_stay (w w' : World) : Prop :=
  primary_keys (database w) -> primary_keys (database w').

(** ** Further sample objects *)

(** The messages of [sample_flood] as incoming updates. *)
Definition sample_incoming : list Incoming :=
  map (fun e => COMMAND (CLAIMED MODERATE) (fst e) (snd e)) sample_flood.

(** A call at time [now] of a command given the arguments [a]. *)
Definition sample_ctx_args (now : Q) (a : list string) : Context :=
  {| args := a;
     OWNER_ID := "";
     get_chat_member := fun _ u => if u =? 7 then Some ADMINISTRATOR else Some MEMBER;
     bot_api := fun _ => None;
     time_time := now;
     db_available := true |}.

(** A session that touches the three tables and the tracker. *)
Definition sample_session : list Incoming :=
  [COMMAND FILTER (sample_command "/filter Hello Hi there!") (sample_ctx 1);
   COMMAND (CLAIMED WARN) (sample_command "/warn") (sample_ctx 2);
   COMMAND SETWELCOME (sample_command "/setwelcome Welcome {name}!") (sample_ctx 3);
   COMMAND (CLAIMED ANTISPAM) (sample_command "/antispam") (sample_ctx 4);
   COMMAND (CLAIMED MODERATE) (sample_message "hello") (sample_ctx 5);
   COMMAND (CLAIMED WARN) (sample_command "/warn") (sample_ctx 6);
   COMMAND STOP (sample_command "/stop hello") (sample_ctx_args 7 ["hello"])].

(** The default the source passes when it reads a setting: 0 for the two
    toggles, [None] for the three texts. *)
Definition source_default (key : setting_key) : PyVal :=
  match key with
  | antilink | antispam => PInt 0
  | welcome | goodbye | rules => PNone
  end.

(** The reply of [require_admin] to someone who is not an administrator. *)
Definition access_denied : string :=
  "⛔ Access Denied" +:+ nl +:+ "Only group admins can use this command.".

(** The commands that begin with [require_admin]. *)
Definition admin_only (e : Entry) : bool :=
  match e with
  | CLAIMED WARN | CLAIMED RESETWARNS | CLAIMED ANTILINK | CLAIMED ANTISPAM
  | MUTE | FILTER | STOP | SETWELCOME | SETGOODBYE | SETRULES => true
  | _ => false
  end.

(** What the program reads for a setting: the cell, or the default of the
    source when the chat has no row or the cell is empty. *)
Definition setting_read (d : Database) (chat : Z) (key : setting_key) : PyVal :=
  match setting_cell d chat key with
  | PNone => source_default key
  | PInt n => PInt n
  | PStr s => PStr s
  end.

#[global] Instance setting_key_eq_dec : EqDecision setting_key.
Proof. solve_decision. Defined.



(** The outcome of a reply: normal return, or the error of the platform. *)
Definition reply_outcome (ctx : Context) (txt : string) : outcome unit :=
  match bot_api ctx (reply_text txt) with
  | None => Return tt
  | Some reason => Raise (TelegramError reason)
  end.

(** The two toggle commands, by their column and label. *)
Definition toggle_of (e : Entry) : option (setting_key * string) :=
  match e with
  | CLAIMED ANTILINK => Some (antilink, "🛑 Anti-link ")
  | CLAIMED ANTISPAM => Some (antispam, "🛡️ Anti-spam ")
  | _ => None
  end.

(** [bob], who is no administrator, sends a command as a reply to [al]. *)
Definition sample_command_by_member (cmd : string) : Update :=
  {| effective_chat := Some room;
     effective_message :=
       Some {| text := Some cmd; sender_chat := None;
               reply_to_message := Some (Some al) |};
     effective_user := Some bob |}.

(** [al] sends a command that replies to nothing. *)
Definition sample_command_no_reply (cmd : string) : Update :=
  {| effective_chat := Some room;
     effective_message :=
       Some {| text := Some cmd; sender_chat := None; reply_to_message := None |};
     effective_user := Some al |}.


(** The count of (c, u) is the same in both worlds. *)
Definition same_count (c u : Z) (w w' : World) : Prop :=
  warn_count (database w') c u = warn_count (database w) c u.

(** The platform refuses to restrict members and accepts the rest. *)
Definition sample_ctx_no_restrict (now : Q) : Context :=
  {| args := [];
     OWNER_ID := "";
     get_chat_member := fun _ u => if u =? 7 then Some ADMINISTRATOR else Some MEMBER;
     bot_api := fun a => match a with
                         | restrict_chat_member _ _ _ _ => Some "Not enough rights"
                         | _ => None
                         end;
     time_time := now;
     db_available := true |}.

(** A call with the given arguments and owner configuration, on a
    platform whose member lookup fails: nobody is known as administrator. *)
Definition sample_ctx_owner (owner : string) (a : list string) : Context :=
  {| args := a;
     OWNER_ID := owner;
     get_chat_member := fun _ _ => None;
     bot_api := fun _ => None;
     time_time := 0;
     db_available := true |}.

(** The value of a decimal numeral read after the value [acc]. *)
Fixpoint uint_value (acc : Z) (d : Decimal.uint) : Z :=
  match d with
  | Nil => acc
  | D0 l => uint_value (10 * acc + 0) l
  | D1 l => uint_value (10 * acc + 1) l
  | D2 l => uint_value (10 * acc + 2) l
  | D3 l => uint_value (10 * acc + 3) l
  | D4 l => uint_value (10 * acc + 4) l
  | D5 l => uint_value (10 * acc + 5) l
  | D6 l => uint_value (10 * acc + 6) l
  | D7 l => uint_value (10 * acc + 7) l
  | D8 l => uint_value (10 * acc + 8) l
  | D9 l => uint_value (10 * acc + 9) l
  end.


(** ** The table of filters *)

(** Ascending byte order of two keys. *)
Definition key_order (a b : string) : Prop := String.leb a b = true.

(** A string without white space. *)
Fixpoint no_space (s : string) : bool :=
  match s with
  | EmptyString => true
  | String c s' => negb (PyStr.is_space c) && no_space s'
  end.

(** A row as [/filter] stores it: the key is a non-empty lower-case word,
    the reply is not empty. *)
Definition well_kept (r : FilterRow) : bool :=
  negb (String.eqb (f_key r) EmptyString)
  && no_space (f_key r)
  && String.eqb (PyStr.lower (f_key r)) (f_key r)
  && negb (String.eqb (f_reply r) EmptyString).

Definition filters_well_kept (w : World) : Prop :=
  forallb well_kept (filters (database w)) = true.

Definition well_kept_stays (w w' : World) : Prop :=
  filters_well_kept w -> filters_well_kept w'.

(** A session in which [al] saves two filters and removes one that was
    never saved. *)
Definition sample_filter_session : list Incoming :=
  [COMMAND FILTER (sample_command "/filter  Hello   Hi  there! ") (sample_ctx 1);
   COMMAND FILTER (sample_command "/filter PRICE ask an admin") (sample_ctx 2);
   COMMAND FILTER (sample_command "/filter lonely") (sample_ctx 3);
   COMMAND STOP (sample_command "/stop nothing") (sample_ctx_args 4 ["nothing"])].

(** ** Greetings and stored texts *)



(** The column a text command writes and its confirmation. *)
Definition text_setting_of (e : Entry) : option (setting_key * string) :=
  match e with
  | SETWELCOME => Some (welcome, "🎉 Welcome message updated successfully.")
  | SETGOODBYE => Some (goodbye, "👋 Goodbye message updated successfully.")
  | SETRULES => Some (rules, "📜 Group rules updated.")
  | _ => None
  end.



(** ** Moderation of administrators, and mutes *)

(** A computation that only replies and leaves the tracker alone. *)
Definition replies_only {A} (m : M A) : Prop :=
  forall w, spam_tracker (final (m w)) = spam_tracker w
            /\ only_replies (calls (m w)) = true.

(** What [/mute] replies after its restriction of a resolved target: the
    confirmation, or the reason of the refusal; a confirmation that the
    platform rejects is itself reported as a failure. *)
Definition mute_replies (ctx : Context) (chat target : Z) : list string :=
  match bot_api ctx (restrict_chat_member chat target false (mute_until ctx)) with
  | Some reason => ["❌ Failed to mute: " +:+ reason]
  | None =>
      match bot_api ctx (reply_text "🔇 User muted.") with
      | None => ["🔇 User muted."]
      | Some reason => ["🔇 User muted."; "❌ Failed to mute: " +:+ reason]
      end
  end.

(** [al], an administrator, posts a link in [room]. *)
Definition sample_admin_link : Update :=
  {| effective_chat := Some room;
     effective_message :=
       Some {| text := Some "see https://example.com"; sender_chat := None;
               reply_to_message := None |};
     effective_user := Some al |}.
(* ===================================================================== *)
(** * Properties of the string helpers *)
(* ===================================================================== *)

Module PyStrFacts.
Import PyStr Template.

Lemma append_cons (c : ascii) (s t : string) :
  String c s +:+ t = String c (s +:+ t).
Proof. reflexivity. Qed.

Lemma append_empty_l (t : string) : EmptyString +:+ t = t.
Proof. reflexivity. Qed.

Lemma append_empty_r (s : string) : s +:+ EmptyString = s.
Proof. induction s as [|c s IH]; [reflexivity|]. now rewrite append_cons, IH. Qed.

Lemma append_assoc (s t u : string) : (s +:+ t) +:+ u = s +:+ (t +:+ u).
Proof. induction s as [|c s IH]; [reflexivity|]. now rewrite !append_cons, IH. Qed.

Lemma prefix_append (s t : string) : String.prefix s (s +:+ t) = true.
Proof.
  induction s as [|c s IH]; [now destruct t|].
  rewrite append_cons. simpl. destruct (ascii_dec c c); [exact IH|congruence].
Qed.

Lemma free_of_append c s t : free_of c (s +:+ t) = free_of c s && free_of c t.
Proof.
  induction s as [|a s IH]; [reflexivity|].
  rewrite append_cons. simpl. now rewrite IH, andb_assoc.
Qed.

(** Characters of an occurrence being consumed are dropped. *)
Lemma replace_from_skip old new (a t : string) :
  replace_from old new (String.length a) (a +:+ t) = replace_from old new 0 t.
Proof.
  induction a as [|c a IH]; [now destruct t|].
  rewrite append_cons. simpl. exact IH.
Qed.

(** An occurrence at the head of the text is replaced and the scan goes
    on after it. *)
Lemma replace_from_occurrence c old new t :
  replace_from (String c old) new 0 (String c old +:+ t)
  = new +:+ replace_from (String c old) new 0 t.
Proof.
  rewrite append_cons.
  change (replace_from (String c old) new 0 (String c (old +:+ t)))
    with (if String.prefix (String c old) (String c (old +:+ t))
          then new +:+ replace_from (String c old) new
                         (String.length (String c old) - 1) (old +:+ t)
          else String c (replace_from (String c old) new 0 (old +:+ t))).
  rewrite <- append_cons, prefix_append.
  replace (String.length (String c old) - 1)%nat with (String.length old)
    by (simpl; lia).
  now rewrite replace_from_skip.
Qed.

(** Text without the first character of [old] is copied. *)
Lemma replace_from_free c old new s t :
  free_of c s = true ->
  replace_from (String c old) new 0 (s +:+ t)
  = s +:+ replace_from (String c old) new 0 t.
Proof.
  induction s as [|a s IH]; intros Hfree; [reflexivity|].
  simpl in Hfree. apply andb_prop in Hfree as [Ha Hs].
  rewrite !append_cons. simpl.
  destruct (ascii_dec c a) as [->|_].
  - now rewrite Ascii.eqb_refl in Ha.
  - now rewrite IH.
Qed.

(** A text that starts like [old] without being an occurrence of it, and
    has no further candidate start, is copied. *)
Lemma replace_from_other c old new s t :
  free_of c s = true ->
  String.prefix (String c old) (String c s +:+ t) = false ->
  replace_from (String c old) new 0 (String c s +:+ t)
  = String c s +:+ replace_from (String c old) new 0 t.
Proof.
  intros Hfree Hpre. rewrite append_cons in *.
  change (replace_from (String c old) new 0 (String c (s +:+ t)))
    with (if String.prefix (String c old) (String c (s +:+ t))
          then new +:+ replace_from (String c old) new
                         (String.length (String c old) - 1) (s +:+ t)
          else String c (replace_from (String c old) new 0 (s +:+ t))).
  rewrite Hpre. now rewrite replace_from_free.
Qed.

Lemma string_of_uint_free (d : Decimal.uint) :
  free_of "{" (NilEmpty.string_of_uint d) = true.
Proof. induction d; simpl; auto. Qed.

(** [str(n)] never contains a brace. *)
Lemma str_of_int_free (n : Z) : free_of "{" (str_of_int n) = true.
Proof.
  unfold str_of_int, NilZero.string_of_int, NilZero.string_of_uint.
  destruct (Z.to_int n) as [d|d];
    pose proof (string_of_uint_free d) as H; destruct d; simpl in *; auto.
Qed.

End PyStrFacts.

(* ===================================================================== *)
(** * Welcome / Goodbye templates *)
(* ===================================================================== *)

Module TemplateFacts.
Import PyStr Template PyStrFacts.

Lemma replace_pass (p0 : Piece) (v : string) (ps : list Piece) :
  (if p0 is Lit _ then false else true) = true ->
  forallb plain ps = true ->
  replace (source p0) v (template_of ps) = template_of (pass p0 v ps).
Proof.
  intros Hp0 Hps.
  assert (Hr : forall t, replace (source p0) v t = replace_from (source p0) v 0 t)
    by (destruct p0; [discriminate|reflexivity..]).
  rewrite Hr. clear Hr.
  induction ps as [|p ps IH]; [reflexivity|].
  simpl in Hps. apply andb_prop in Hps as [Hp Hps].
  specialize (IH Hps). simpl template_of.
  destruct p0; try discriminate; destruct p; simpl source in *; simpl same_kind; cbv iota;
    first [ rewrite replace_from_occurrence; now rewrite IH
          | rewrite replace_from_free by exact Hp; now rewrite IH
          | rewrite replace_from_other by reflexivity; now rewrite IH ].
Qed.

Lemma pass_plain p0 v ps :
  free_of "{" v = true -> forallb plain ps = true -> forallb plain (pass p0 v ps) = true.
Proof.
  intros Hv. induction ps as [|p ps IH]; [reflexivity|]. simpl.
  intros [Hp Hps]%andb_prop. rewrite IH by exact Hps.
  destruct (same_kind p p0); simpl; [now rewrite Hv | now rewrite Hp].
Qed.

Lemma passes_filled user chat ps :
  template_of
    (pass ChatName (chat_field chat)
       (pass Id (id_field user)
          (pass Mention (mention_field user) (pass Name (name_field user) ps))))
  = filled user chat ps.
Proof.
  induction ps as [|p ps IH]; [reflexivity|].
  unfold pass in *. simpl. rewrite IH. now destruct p.
Qed.

Lemma render_template_unfold template user chat :
  render_template template user chat
  = replace "{chat}" (chat_field chat)
      (replace "{id}" (id_field user)
         (replace "{mention}" (mention_field user)
            (replace "{name}" (name_field user) template))).
Proof. reflexivity. Qed.

End TemplateFacts.

(** C4 (as the documentation has it) fails: with two occurrences of
    [{name}] the code replaces both, a first-match substitution would
    leave the second one in place. *)
Lemma render_template_not_first_match :
  render_template "Hi {name} and {name}" (Some al) (Some room) = "Hi Al and Al"
  /\ render_template_first_match "Hi {name} and {name}" (Some al) (Some room)
     = "Hi Al and {name}"
  /\ render_template "Hi {name} and {name}" (Some al) (Some room)
     <> render_template_first_match "Hi {name} and {name}" (Some al) (Some room).
Proof.
  split; [reflexivity | split; [reflexivity |]].
  intros H. vm_compute in H. discriminate H.
Qed.

(** C4, amended: [render_template] substitutes [{name}], [{mention}],
    [{id}] and [{chat}] by literal substring replacement, replacing every
    occurrence of each placeholder, the four replacements being applied in
    the order name, mention, id, chat. For a template made of brace-free
    text and placeholders, and brace-free values, the result is the
    template with every placeholder filled. *)
Theorem render_template_every_occurrence
    (user : option User) (chat : option Chat) (ps : list Template.Piece)
    (Hps : forallb Template.plain ps = true)
    (Hfields : Template.plain_fields user chat = true) :
  (forall template,
     render_template template user chat
     = PyStr.replace "{chat}" (Template.chat_field chat)
         (PyStr.replace "{id}" (Template.id_field user)
            (PyStr.replace "{mention}" (Template.mention_field user)
               (PyStr.replace "{name}" (Template.name_field user) template))))
  /\ render_template (Template.template_of ps) user chat = Template.filled user chat ps.
Proof.
  split; [intros; apply TemplateFacts.render_template_unfold|].
  unfold Template.plain_fields in Hfields.
  apply andb_prop in Hfields as [[Hn Hm]%andb_prop Hc].
  pose proof (PyStrFacts.str_of_int_free) as Hint.
  assert (Hi : Template.free_of "{" (Template.id_field user) = true)
    by (destruct user; [apply Hint | reflexivity]).
  rewrite TemplateFacts.render_template_unfold.
  rewrite (TemplateFacts.replace_pass Template.Name) by auto.
  rewrite (TemplateFacts.replace_pass Template.Mention)
    by auto using TemplateFacts.pass_plain.
  rewrite (TemplateFacts.replace_pass Template.Id)
    by auto using TemplateFacts.pass_plain.
  rewrite (TemplateFacts.replace_pass Template.ChatName)
    by auto using TemplateFacts.pass_plain.
  apply TemplateFacts.passes_filled.
Qed.

Lemma render_template_every_occurrence_witness :
  render_template "Hi {name} ({id}) in {chat}, {name}" (Some al) (Some room)
  = "Hi Al (7) in Room, Al".
Proof.
  exact (proj2 (render_template_every_occurrence (Some al) (Some room)
                  [Template.Lit "Hi "; Template.Name; Template.Lit " ("; Template.Id;
                   Template.Lit ") in "; Template.ChatName; Template.Lit ", ";
                   Template.Name]
                  eq_refl eq_refl)).
Defined.

(* ===================================================================== *)
(** * Running handlers: equations of the monad *)
(* ===================================================================== *)

Lemma set_database_same (w : World) : set_database (database w) w = w.
Proof. now destruct w. Qed.

Lemma run_eta {A} (r : Run A) : mkRun (final r) (calls r) (result r) = r.
Proof. now destruct r. Qed.

Lemma bind_run {A B} (m : M A) (k : A -> M B) (w w' : World) (cs : list Action) (a : A) :
  m w = mkRun w' cs (Return a) ->
  (m ≫= k) w = mkRun (final (k a w')) (cs ++ calls (k a w')) (result (k a w')).
Proof. intros H. unfold mbind, M_bind. now rewrite H. Qed.

Lemma bind_run_raise {A B} (m : M A) (k : A -> M B) (w w' : World) (cs : list Action) (e : exn) :
  m w = mkRun w' cs (Raise e) ->
  (m ≫= k) w = mkRun w' cs (Raise e).
Proof. intros H. unfold mbind, M_bind. now rewrite H. Qed.

Lemma bind_ret {A B} (a : A) (k : A -> M B) (w : World) : (mret a ≫= k) w = k a w.
Proof. unfold mbind, M_bind, mret, M_ret. simpl. apply run_eta. Qed.

Lemma transaction_up {A} ctx (body : Database -> Database * A) w :
  db_available ctx = true ->
  transaction ctx body w
  = mkRun (set_database (fst (body (database w))) w) [] (Return (snd (body (database w)))).
Proof. intros H. unfold transaction. rewrite H. now destruct (body (database w)). Qed.

Lemma transaction_down {A} ctx (body : Database -> Database * A) w :
  db_available ctx = false -> transaction ctx body w = mkRun w [] (Raise StorageError).
Proof. intros H. unfold transaction. now rewrite H. Qed.

Lemma call_quietly_run ctx a w : call_quietly ctx a w = mkRun w [a] (Return tt).
Proof.
  unfold call_quietly, try_except, call.
  destruct (bot_api ctx a); reflexivity.
Qed.

(** ** Computations that keep a relation between the worlds *)

Section Keeps.
Variable R : World -> World -> Prop.
Hypothesis R_refl : forall w, R w w.
Hypothesis R_trans : forall w1 w2 w3, R w1 w2 -> R w2 w3 -> R w1 w3.

Lemma keeps_ret {A} (a : A) : keeps R (mret a).
Proof using R_refl. intros w. apply R_refl. Qed.

Lemma keeps_raise {A} (e : exn) : keeps R (@raise A e).
Proof using R_refl. intros w. apply R_refl. Qed.

Lemma keeps_call ctx a : keeps R (call ctx a).
Proof using R_refl. intros w. unfold call. destruct (bot_api ctx a); apply R_refl. Qed.

Lemma keeps_bind {A B} (m : M A) (k : A -> M B) :
  keeps R m -> (forall a, keeps R (k a)) -> keeps R (m ≫= k).
Proof using R_trans.
  intros Hm Hk w. unfold mbind, M_bind.
  destruct (result (m w)) as [a|e] eqn:E; simpl.
  - eapply R_trans; [apply Hm | apply Hk].
  - apply Hm.
Qed.

Lemma keeps_try_except {A} (m : M A) (h : exn -> M A) :
  keeps R m -> (forall e, keeps R (h e)) -> keeps R (try_except m h).
Proof using R_trans.
  intros Hm Hh w. unfold try_except.
  destruct (result (m w)) as [a|e] eqn:E; simpl.
  - apply Hm.
  - eapply R_trans; [apply Hm | apply Hh].
Qed.

Lemma keeps_call_quietly ctx a : keeps R (call_quietly ctx a).
Proof using R_refl. intros w. rewrite call_quietly_run. apply R_refl. Qed.

Lemma keeps_transaction {A} ctx (body : Database -> Database * A) :
  (forall w, R w (set_database (fst (body (database w))) w)) ->
  keeps R (transaction ctx body).
Proof using R_refl.
  intros H w. unfold transaction.
  destruct (db_available ctx); [|apply R_refl].
  specialize (H w). now destruct (body (database w)).
Qed.

Lemma keeps_reply update ctx txt : keeps R (reply update ctx txt).
Proof using R_refl.
  unfold reply. destruct (effective_message update);
    [apply keeps_call | apply keeps_raise].
Qed.

Lemma keeps_effective_chat_id update : keeps R (effective_chat_id update).
Proof using R_refl.
  unfold effective_chat_id. destruct (effective_chat update);
    [apply keeps_ret | apply keeps_raise].
Qed.

Lemma keeps_require_admin update ctx : keeps R (require_admin update ctx).
Proof using R_refl R_trans.
  unfold require_admin.
  destruct (is_admin update ctx); [apply keeps_ret|].
  destruct (effective_message update); [|apply keeps_ret].
  apply keeps_bind; [apply keeps_call | intros; apply keeps_ret].
Qed.

Lemma keeps_py_int v : keeps R (py_int v).
Proof using R_refl.
  destruct v as [|n|s]; simpl; [apply keeps_raise | apply keeps_ret |].
  destruct (PyStr.isdigit (PyStr.strip s)); [apply keeps_ret | apply keeps_raise].
Qed.

End Keeps.

(* ===================================================================== *)
(** * The infraction ledger *)
(* ===================================================================== *)

Section Ledger.

Lemma find_upsert_warn chat user count c u rows :
  List.find (warn_row_is c u) (upsert_warn chat user count rows)
  = if (chat =? c) && (user =? u)
    then Some {| w_chat_id := chat; w_user_id := user; w_count := count |}
    else List.find (warn_row_is c u) rows.
Proof.
  induction rows as [|r rows IH]; simpl.
  - unfold warn_row_is; simpl. now destruct ((chat =? c) && (user =? u)).
  - destruct (warn_row_is chat user r) eqn:Er; simpl.
    + unfold warn_row_is in *; simpl.
      destruct ((chat =? c) && (user =? u)) eqn:Ek; [reflexivity|].
      apply andb_prop in Er as [E1%Z.eqb_eq E2%Z.eqb_eq]. rewrite E1, E2, Ek. reflexivity.
    + rewrite IH. destruct (warn_row_is c u r) eqn:Ec; [|reflexivity].
      destruct ((chat =? c) && (user =? u)) eqn:Ek; [|reflexivity].
      apply andb_prop in Ek as [->%Z.eqb_eq ->%Z.eqb_eq]. congruence.
Qed.

(** After the upsert the key reads the new count, other keys are as
    before. *)
Lemma warn_count_upsert d chat user count c u :
  warn_count (with_warns (upsert_warn chat user count (warns d)) d) c u
  = if (chat =? c) && (user =? u) then count else warn_count d c u.
Proof.
  unfold warn_count. simpl. rewrite find_upsert_warn.
  now destruct ((chat =? c) && (user =? u)).
Qed.

Lemma find_after_delete (f : WarnRow -> bool) rows :
  List.find f (List.filter (fun r => negb (f r)) rows) = None.
Proof.
  induction rows as [|r rows IH]; [reflexivity|]. simpl.
  destruct (f r) eqn:E; simpl; [exact IH | now rewrite E].
Qed.

(** After [DELETE FROM warns WHERE chat_id=? AND user_id=?] the key has
    no row, hence count 0. *)
Lemma warn_count_delete d chat user :
  warn_count
    (with_warns (List.filter (fun r => negb (warn_row_is chat user r)) (warns d)) d)
    chat user = 0.
Proof. unfold warn_count. simpl. now rewrite find_after_delete. Qed.

Lemma get_warns_run ctx chat user w :
  db_available ctx = true ->
  get_warns ctx chat user w = mkRun w [] (Return (warn_count (database w) chat user)).
Proof.
  intros H. unfold get_warns. rewrite transaction_up by exact H. simpl.
  now rewrite set_database_same.
Qed.

Lemma set_warns_run ctx chat user count w :
  db_available ctx = true ->
  set_warns ctx chat user count w
  = mkRun (set_database (with_warns (upsert_warn chat user count (warns (database w)))
                           (database w)) w) [] (Return tt).
Proof. intros H. unfold set_warns. now rewrite transaction_up by exact H. Qed.

Lemma reset_warns_run ctx chat user w :
  db_available ctx = true ->
  reset_warns ctx chat user w
  = mkRun (set_database
             (with_warns (List.filter (fun r => negb (warn_row_is chat user r))
                            (warns (database w))) (database w)) w) [] (Return tt).
Proof. intros H. unfold reset_warns. now rewrite transaction_up by exact H. Qed.

Lemma counts_grow_refl w : counts_grow w w.
Proof. intros c u. lia. Qed.

Lemma counts_grow_trans w1 w2 w3 :
  counts_grow w1 w2 -> counts_grow w2 w3 -> counts_grow w1 w3.
Proof. intros H1 H2 c u. specialize (H1 c u). specialize (H2 c u). lia. Qed.

Lemma counts_grow_same_warns w w' :
  warns (database w') = warns (database w) -> counts_grow w w'.
Proof. intros H c u. unfold warn_count. rewrite H. lia. Qed.

End Ledger.

(** ** Every handler but [resetwarns_cmd] lets the counts grow *)

Ltac keeps_step :=
  lazymatch goal with
  | |- keeps _ (mret _) => apply (keeps_ret _ counts_grow_refl)
  | |- keeps _ (raise _) => apply (keeps_raise _ counts_grow_refl)
  | |- keeps _ (call _ _) => apply (keeps_call _ counts_grow_refl)
  | |- keeps _ (call_quietly _ _) => apply (keeps_call_quietly _ counts_grow_refl)
  | |- keeps _ (reply _ _ _) => apply (keeps_reply _ counts_grow_refl)
  | |- keeps _ (effective_chat_id _) => apply (keeps_effective_chat_id _ counts_grow_refl)
  | |- keeps _ (require_admin _ _) =>
      apply (keeps_require_admin _ counts_grow_refl counts_grow_trans)
  | |- keeps _ (py_int _) => apply (keeps_py_int _ counts_grow_refl)
  | |- keeps _ (read_toggle _ _ _) => unfold read_toggle
  | |- keeps _ (transaction _ _) =>
      apply (keeps_transaction _ counts_grow_refl); intros ?;
      apply counts_grow_same_warns; repeat case_match; reflexivity
  | |- keeps _ (try_except _ _) => apply (keeps_try_except _ counts_grow_trans); [|intros ?]
  | |- keeps _ (_ ≫= _) => apply (keeps_bind _ counts_grow_trans); [|intros ?]
  | |- keeps _ (if _ then _ else _) => case_match
  | |- keeps _ (match _ with _ => _ end) => case_match
  end.

Section LedgerHandlers.

Lemma get_setting_grows ctx chat key dflt : keeps counts_grow (get_setting ctx chat key dflt).
Proof. unfold get_setting. keeps_step. Qed.

Lemma set_setting_grows ctx chat key v : keeps counts_grow (set_setting ctx chat key v).
Proof. unfold set_setting. keeps_step. Qed.

Lemma match_filter_grows ctx chat txt : keeps counts_grow (match_filter ctx chat txt).
Proof. unfold match_filter. repeat keeps_step. Qed.

Lemma spam_record_grows chat user now : keeps counts_grow (spam_record chat user now).
Proof. intros w. apply counts_grow_same_warns. reflexivity. Qed.

Lemma moderate_messages_grows update ctx : keeps counts_grow (moderate_messages update ctx).
Proof.
  unfold moderate_messages, filter_reply, anti_link, anti_spam.
  repeat first [ apply match_filter_grows | apply get_setting_grows
               | apply spam_record_grows | keeps_step ].
Qed.

Lemma antilink_cmd_grows update ctx : keeps counts_grow (antilink_cmd update ctx).
Proof.
  unfold antilink_cmd.
  repeat first [ apply get_setting_grows | apply set_setting_grows | keeps_step ].
Qed.

Lemma antispam_cmd_grows update ctx : keeps counts_grow (antispam_cmd update ctx).
Proof.
  unfold antispam_cmd.
  repeat first [ apply get_setting_grows | apply set_setting_grows | keeps_step ].
Qed.

(** The increment of [warn_cmd]: read the count, store it plus one. *)
Lemma increment_grows {A} ctx chat user (k : Z -> M A) :
  (forall n, keeps counts_grow (k n)) ->
  keeps counts_grow (n ← get_warns ctx chat user; set_warns ctx chat user (n + 1);; k n).
Proof.
  intros Hk w. destruct (db_available ctx) eqn:Hdb.
  - erewrite bind_run by (apply get_warns_run; exact Hdb). simpl.
    erewrite bind_run by (apply set_warns_run; exact Hdb). simpl.
    eapply counts_grow_trans; [|apply Hk].
    intros c u. simpl. rewrite warn_count_upsert.
    destruct ((chat =? c) && (user =? u)) eqn:E; [|lia].
    apply andb_prop in E as [->%Z.eqb_eq ->%Z.eqb_eq]. lia.
  - unfold get_warns. erewrite bind_run_raise by (apply transaction_down; exact Hdb).
    apply counts_grow_refl.
Qed.

Lemma warn_cmd_grows update ctx : keeps counts_grow (warn_cmd update ctx).
Proof.
  unfold warn_cmd.
  repeat first [ apply increment_grows; intros ? | keeps_step ].
Qed.

Lemma dispatch_grows h update ctx :
  is_reset (h, (update, ctx)) = false -> keeps counts_grow (dispatch h update ctx).
Proof.
  destruct h; simpl; intros H; try discriminate.
  - apply moderate_messages_grows.
  - apply warn_cmd_grows.
  - apply antilink_cmd_grows.
  - apply antispam_cmd_grows.
Qed.

Lemma run_handlers_grows hs w :
  forallb (fun h => negb (is_reset h)) hs = true -> counts_grow w (run_handlers hs w).
Proof.
  revert w. induction hs as [|[h [update ctx]] hs IH]; intros w Hhs; simpl.
  - apply counts_grow_refl.
  - simpl in Hhs. apply andb_prop in Hhs as [Hh Hhs].
    eapply counts_grow_trans; [|apply IH; exact Hhs].
    apply dispatch_grows. now apply negb_true_iff in Hh.
Qed.

(** What [resetwarns_cmd] does when it goes through. *)
Lemma resetwarns_cmd_run update ctx w chat msg target :
  is_admin update ctx = true ->
  effective_chat update = Some chat ->
  effective_message update = Some msg ->
  get_target_user_id update ctx = Some target ->
  db_available ctx = true ->
  final (resetwarns_cmd update ctx w)
  = set_database
      (with_warns (List.filter (fun r => negb (warn_row_is (chat_id chat) target r))
                     (warns (database w))) (database w)) w.
Proof.
  intros Hadmin Hchat Hmsg Htarget Hdb.
  assert (Ht : truthy_id (Some target) = true).
  { unfold get_target_user_id in Htarget.
    destruct (truthy_id (parse_target_from_reply update)) eqn:E1; [congruence|].
    destruct (truthy_id (parse_target_from_args ctx)) eqn:E2; congruence. }
  unfold resetwarns_cmd, require_admin. rewrite Hadmin, bind_ret. simpl.
  rewrite Htarget, Ht. simpl.
  unfold effective_chat_id. rewrite Hchat, bind_ret.
  erewrite bind_run by (apply reset_warns_run; exact Hdb).
  unfold reply, call. rewrite Hmsg. simpl. now destruct (bot_api ctx _).
Qed.

End LedgerHandlers.

(** C7: for every (group, user) key the warn count never decreases along a
    stream of handler runs (messages, warns, toggles) that contains no
    reset; after a reset the count read back is exactly 0, both for
    [reset_warns] and for the [/resetwarns] command that goes through. *)
Theorem warn_count_monotone_until_reset
    (hs : list (Handler * Event)) (w : World) (chat user : Z)
    (Hhs : forallb (fun h => negb (is_reset h)) hs = true) :
  warn_count (database w) chat user
  <= warn_count (database (run_handlers hs w)) chat user
  /\ (forall ctx,
        db_available ctx = true ->
        let after := final (reset_warns ctx chat user (run_handlers hs w)) in
        warn_count (database after) chat user = 0
        /\ result (get_warns ctx chat user after) = Return 0)
  /\ (forall update ctx c msg,
        is_admin update ctx = true ->
        effective_chat update = Some c -> chat_id c = chat ->
        effective_message update = Some msg ->
        get_target_user_id update ctx = Some user ->
        db_available ctx = true ->
        warn_count (database (final (resetwarns_cmd update ctx (run_handlers hs w))))
          chat user = 0).
Proof.
  split; [apply run_handlers_grows; exact Hhs|]. split.
  - intros ctx Hdb after. subst after.
    rewrite reset_warns_run by exact Hdb. simpl.
    rewrite get_warns_run by exact Hdb. simpl.
    now rewrite warn_count_delete.
  - intros update ctx c msg Hadmin Hchat <- Hmsg Htarget Hdb.
    erewrite resetwarns_cmd_run by eassumption. simpl.
    apply warn_count_delete.
Qed.

Lemma warn_count_monotone_until_reset_witness :
  warn_count (database (sample_world 0 0 1)) (-100) 42
  <= warn_count
       (database
          (run_handlers
             [(WARN, (sample_command "/warn", sample_ctx 10));
              (MODERATE, (sample_message "hello", sample_ctx 11));
              (WARN, (sample_command "/warn", sample_ctx 12))]
             (sample_world 0 0 1))) (-100) 42.
Proof.
  exact (proj1 (warn_count_monotone_until_reset
                  [(WARN, (sample_command "/warn", sample_ctx 10));
                   (MODERATE, (sample_message "hello", sample_ctx 11));
                   (WARN, (sample_command "/warn", sample_ctx 12))]
                  (sample_world 0 0 1) (-100) 42 eq_refl)).
Defined.

(* ===================================================================== *)
(** * Warn escalation *)
(* ===================================================================== *)

Section Escalation.

Lemma get_target_truthy update ctx target :
  get_target_user_id update ctx = Some target -> truthy_id (Some target) = true.
Proof.
  unfold get_target_user_id. intros H.
  destruct (truthy_id (parse_target_from_reply update)) eqn:E1; [congruence|].
  destruct (truthy_id (parse_target_from_args ctx)) eqn:E2; congruence.
Qed.


End Escalation.




(* ===================================================================== *)
(** * The settings store *)
(* ===================================================================== *)

Section Settings.

Lemma calls_bind {A B} (m : M A) (k : A -> M B) w :
  calls ((m ≫= k) w)
  = calls (m w) ++ match result (m w) with
                   | Return a => calls (k a (final (m w)))
                   | Raise _ => []
                   end.
Proof.
  unfold mbind, M_bind. destruct (result (m w)); simpl; [reflexivity|].
  now rewrite app_nil_r.
Qed.

(** A read finds the row of the chat, or materialises the default row and
    answers the default. *)
Lemma get_setting_run ctx chat key dflt w :
  db_available ctx = true ->
  get_setting ctx chat key dflt w
  = match List.find (fun r => s_chat_id r =? chat) (chat_settings (database w)) with
    | Some row =>
        mkRun w [] (Return (match column key row with PNone => dflt | v => v end))
    | None =>
        mkRun (set_database
                 (with_chat_settings
                    (insert_or_ignore_settings chat (chat_settings (database w)))
                    (database w)) w) [] (Return dflt)
    end.
Proof.
  intros Hdb. unfold get_setting. rewrite transaction_up by exact Hdb.
  destruct (List.find _ _); simpl; [now rewrite set_database_same | reflexivity].
Qed.

Lemma get_setting_down ctx chat key dflt w :
  db_available ctx = false ->
  get_setting ctx chat key dflt w = mkRun w [] (Raise StorageError).
Proof. apply transaction_down. Qed.


Lemma read_toggle_on ctx chat key w :
  db_available ctx = true ->
  setting_on (database w) chat key = true ->
  exists n, n <> 0 /\ read_toggle ctx chat key w = mkRun w [] (Return n).
Proof.
  intros Hdb Hon. unfold setting_on, setting_cell in Hon.
  unfold read_toggle.
  destruct (List.find _ _) as [row|] eqn:Efind; [|discriminate].
  destruct (column key row) as [|n|] eqn:Ecol; try discriminate.
  exists n. apply negb_true_iff, Z.eqb_neq in Hon. split; [exact Hon|].
  erewrite bind_run by (rewrite get_setting_run, Efind by exact Hdb; reflexivity).
  rewrite Ecol. unfold py_or. simpl.
  apply Z.eqb_neq in Hon. now rewrite Hon.
Qed.

Lemma py_int_falsy v :
  truthy v = false ->
  py_int (py_or (match v with PNone => PInt 0 | PInt n => PInt n | PStr s => PStr s end)
            (PInt 0))
  = mret 0.
Proof.
  destruct v as [|n|s]; simpl; intros H.
  - reflexivity.
  - unfold py_or. simpl. rewrite H. reflexivity.
  - unfold py_or. simpl. rewrite H. reflexivity.
Qed.

(** With the toggle off the read gives 0; it touches nothing but the
    settings table, and nothing at all when the chat has its row. *)
Lemma read_toggle_off ctx chat key w :
  db_available ctx = true ->
  setting_off (database w) chat key = true ->
  exists w',
    read_toggle ctx chat key w = mkRun w' [] (Return 0)
    /\ spam_tracker w' = spam_tracker w
    /\ warns (database w') = warns (database w)
    /\ filters (database w') = filters (database w)
    /\ (List.find (fun r => s_chat_id r =? chat) (chat_settings (database w)) <> None ->
        w' = w).
Proof.
  intros Hdb Hoff. unfold setting_off, setting_cell in Hoff.
  apply negb_true_iff in Hoff. unfold read_toggle.
  destruct (List.find _ _) as [row|] eqn:Efind.
  - exists w. split; [|auto].
    erewrite bind_run by (rewrite get_setting_run, Efind by exact Hdb; reflexivity).
    rewrite py_int_falsy by exact Hoff. reflexivity.
  - eexists. split; [|split; [|split; [|split]]].
    + erewrite bind_run by (rewrite get_setting_run, Efind by exact Hdb; reflexivity).
      reflexivity.
    + reflexivity.
    + reflexivity.
    + reflexivity.
    + congruence.
Qed.

End Settings.

(* ===================================================================== *)
(** * The per-message decision procedure *)
(* ===================================================================== *)

Section Engine.

Lemma calls_transaction {A} ctx (body : Database -> Database * A) w :
  calls (transaction ctx body w) = [].
Proof.
  unfold transaction. destruct (db_available ctx); [|reflexivity].
  now destruct (body (database w)).
Qed.

Lemma calls_py_int v w : calls (py_int v w) = [].
Proof. destruct v as [|n|s]; simpl; try reflexivity. now destruct (PyStr.isdigit _). Qed.

Lemma calls_read_toggle ctx chat key w : calls (read_toggle ctx chat key w) = [].
Proof.
  unfold read_toggle. rewrite calls_bind. unfold get_setting.
  rewrite calls_transaction. simpl.
  destruct (result _); [apply calls_py_int | reflexivity].
Qed.

(** The handler on a text message of a group, as the three steps. *)
Lemma moderate_messages_steps update ctx chat txt :
  in_group chat update = true ->
  text_of update = Some txt ->
  txt <> EmptyString ->
  moderate_messages update ctx
  = (filter_reply update ctx chat txt;;
     stop ← anti_link update ctx chat txt;
     if (stop : bool) then mret tt
     else anti_spam update ctx chat (sender_key update)).
Proof.
  unfold in_group, text_of, moderate_messages, sender_key.
  destruct (effective_chat update) as [c|]; [|discriminate].
  intros [Hg ->%Z.eqb_eq]%andb_prop. rewrite Hg. simpl.
  destruct (effective_message update) as [msg|]; [|discriminate]. simpl.
  intros -> Htxt. apply String.eqb_neq in Htxt. now rewrite Htxt.
Qed.

Lemma match_filter_run ctx chat txt w :
  db_available ctx = true ->
  txt <> EmptyString ->
  match_filter ctx chat txt w
  = mkRun w []
      (Return (first_match (PyStr.lower txt) (select_filters chat (filters (database w))))).
Proof.
  intros Hdb Htxt. unfold match_filter. apply String.eqb_neq in Htxt. rewrite Htxt.
  erewrite bind_run by (apply transaction_up; exact Hdb). simpl.
  now rewrite set_database_same.
Qed.

(** The filter step never changes the world and only replies. *)
Lemma filter_reply_frame update ctx chat txt w :
  final (filter_reply update ctx chat txt w) = w
  /\ only_replies (calls (filter_reply update ctx chat txt w)) = true.
Proof.
  unfold filter_reply, match_filter.
  destruct (String.eqb txt EmptyString).
  - rewrite bind_ret. split; reflexivity.
  - destruct (db_available ctx) eqn:Hdb.
    + erewrite bind_run.
      2:{ erewrite bind_run by (apply transaction_up; exact Hdb). simpl.
          rewrite set_database_same. reflexivity. }
      simpl. destruct (first_match _ _) as [r|]; [|split; reflexivity].
      destruct (String.eqb r EmptyString); [split; reflexivity|].
      unfold call. destruct (bot_api ctx _); split; reflexivity.
    + erewrite bind_run_raise.
      2:{ erewrite bind_run_raise by (apply transaction_down; exact Hdb). reflexivity. }
      split; reflexivity.
Qed.

Lemma filter_reply_run update ctx chat txt w :
  db_available ctx = true ->
  txt <> EmptyString ->
  filter_reply_ok (database w) ctx chat txt = true ->
  filter_reply update ctx chat txt w
  = mkRun w (filter_calls (database w) chat txt) (Return tt).
Proof.
  intros Hdb Htxt Hok. unfold filter_reply.
  erewrite bind_run by (apply match_filter_run; assumption).
  unfold filter_reply_ok, filter_calls in *. simpl.
  destruct (first_match _ _) as [r|]; [|reflexivity].
  destruct (String.eqb r EmptyString); [reflexivity|].
  simpl in Hok. rewrite andb_true_r in Hok. apply bool_decide_eq_true in Hok.
  unfold call. now rewrite Hok.
Qed.


(** With the toggle off the link check makes no call and does not stop
    the handler. *)
Lemma anti_link_off update ctx chat txt w :
  setting_off (database w) chat antilink = true ->
  calls (anti_link update ctx chat txt w) = []
  /\ result (anti_link update ctx chat txt w)
     = (if db_available ctx then Return false else Raise StorageError)
  /\ spam_tracker (final (anti_link update ctx chat txt w)) = spam_tracker w.
Proof.
  intros Hoff. unfold anti_link.
  destruct (db_available ctx) eqn:Hdb.
  - destruct (read_toggle_off ctx chat antilink w Hdb Hoff) as (w' & Hrun & Htr & _).
    erewrite bind_run by exact Hrun. simpl. auto.
  - erewrite bind_run_raise.
    2:{ unfold read_toggle. erewrite bind_run_raise by (apply get_setting_down; exact Hdb).
        reflexivity. }
    auto.
Qed.

(** When the link check fires on a sender who is not bypassed. *)
Lemma anti_link_fires update ctx chat txt w :
  db_available ctx = true ->
  link_check_fires (database w) chat txt = true ->
  sender_is_admin update ctx = false ->
  anti_link update ctx chat txt w = mkRun w (link_actions chat update) (Return true).
Proof.
  intros Hdb [Hon Hlink]%andb_prop Hna. unfold anti_link.
  destruct (read_toggle_on ctx chat antilink w Hdb Hon) as (n & Hn & Hrun).
  erewrite bind_run by exact Hrun.
  apply Z.eqb_neq in Hn. rewrite Hn. simpl. rewrite Hlink, Hna.
  unfold mbind, M_bind. rewrite !call_quietly_run. reflexivity.
Qed.

(** When the link check lets the text through and the chat has its row. *)
Lemma anti_link_passes update ctx chat txt w :
  db_available ctx = true ->
  link_check_passes (database w) chat txt = true ->
  List.find (fun r => s_chat_id r =? chat) (chat_settings (database w)) <> None ->
  anti_link update ctx chat txt w = mkRun w [] (Return false).
Proof.
  intros Hdb Hpass Hrow. unfold anti_link.
  apply orb_prop in Hpass as [Hoff|[Hon Hno]%andb_prop].
  - destruct (read_toggle_off ctx chat antilink w Hdb Hoff) as (w' & Hrun & _ & _ & _ & Hw).
    rewrite (Hw Hrow) in Hrun. erewrite bind_run by exact Hrun. reflexivity.
  - destruct (read_toggle_on ctx chat antilink w Hdb Hon) as (n & Hn & Hrun).
    erewrite bind_run by exact Hrun.
    apply Z.eqb_neq in Hn. rewrite Hn. simpl.
    apply negb_true_iff in Hno. now rewrite Hno.
Qed.

(** The spam check, whatever the state, either makes no call or deletes
    and sends the slow-down notice. *)
Lemma anti_spam_calls update ctx chat uid w :
  calls (anti_spam update ctx chat uid w) = []
  \/ calls (anti_spam update ctx chat uid w) = spam_actions chat update.
Proof.
  unfold anti_spam. rewrite calls_bind, calls_read_toggle. simpl.
  destruct (result _) as [n|]; [|now left].
  destruct (negb (n =? 0)); [|now left].
  destruct (sender_is_admin update ctx); [now left|].
  rewrite calls_bind. simpl.
  destruct (over_limit _ _); [|now left].
  right. unfold mbind, M_bind. rewrite !call_quietly_run. reflexivity.
Qed.

(** The spam check on a sender who is not bypassed, toggle on. *)
Lemma anti_spam_run update ctx chat uid w :
  db_available ctx = true ->
  setting_on (database w) chat antispam = true ->
  sender_is_admin update ctx = false ->
  let dq := deque_append SPAM_DEQUE_MAXLEN (tracker_get (spam_tracker w) chat uid)
              (time_time ctx) in
  anti_spam update ctx chat uid w
  = mkRun (set_spam_tracker (tracker_set (spam_tracker w) chat uid dq) w)
      (if over_limit (time_time ctx) dq then spam_actions chat update else [])
      (Return tt).
Proof.
  intros Hdb Hon Hna dq. unfold anti_spam.
  destruct (read_toggle_on ctx chat antispam w Hdb Hon) as (n & Hn & Hrun).
  erewrite bind_run by exact Hrun.
  apply Z.eqb_neq in Hn. rewrite Hn. simpl. rewrite Hna.
  unfold mbind, M_bind, spam_record. simpl. fold dq.
  destruct (over_limit (time_time ctx) dq); [|reflexivity].
  rewrite !call_quietly_run. reflexivity.
Qed.

Lemma setting_on_row d chat key :
  setting_on d chat key = true ->
  List.find (fun r => s_chat_id r =? chat) (chat_settings d) <> None.
Proof.
  unfold setting_on, setting_cell. now destruct (List.find _ _).
Qed.

Lemma notices_differ update : link_notice update <> slow_down_notice update.
Proof.
  unfold link_notice, slow_down_notice. intros H.
  vm_compute in H. discriminate H.
Qed.

Lemma only_replies_not_in cs a :
  only_replies cs = true ->
  (match a with reply_text _ => false | _ => true end) = true ->
  a ∉ cs.
Proof.
  intros Hcs Ha Hin. unfold only_replies in Hcs.
  rewrite forallb_forall in Hcs. apply list_elem_of_In in Hin.
  specialize (Hcs a Hin). destruct a; discriminate.
Qed.

End Engine.

Section EngineShape.

(** With the link toggle off, the calls of the handler are filter
    replies followed by nothing or by the actions of the spam check. *)
Lemma moderate_messages_calls_off update ctx w c :
  effective_chat update = Some c ->
  setting_off (database w) (chat_id c) antilink = true ->
  exists fc sc,
    calls (moderate_messages update ctx w) = fc ++ sc
    /\ only_replies fc = true
    /\ (sc = [] \/ sc = spam_actions (chat_id c) update).
Proof.
  intros Hchat Hoff.
  destruct (is_group c) eqn:Hg.
  2:{ exists [], []. unfold moderate_messages. rewrite Hchat, Hg. simpl. auto. }
  destruct (text_of update) as [txt|] eqn:Htext.
  2:{ exists [], []. unfold moderate_messages, text_of in *. rewrite Hchat, Hg. simpl.
      destruct (effective_message update) as [msg|]; simpl in *; [|auto].
      rewrite Htext. auto. }
  destruct (String.eqb txt EmptyString) eqn:Etxt.
  { exists [], []. unfold moderate_messages, text_of in *. rewrite Hchat, Hg. simpl.
    destruct (effective_message update) as [msg|]; simpl in *; [|auto].
    rewrite Htext, Etxt. auto. }
  apply String.eqb_neq in Etxt.
  rewrite (moderate_messages_steps update ctx (chat_id c) txt);
    [| unfold in_group; now rewrite Hchat, Hg, Z.eqb_refl | exact Htext | exact Etxt].
  destruct (filter_reply_frame update ctx (chat_id c) txt w) as [Hfw Hfc].
  rewrite calls_bind. eexists _, _. split; [reflexivity|]. split; [exact Hfc|].
  destruct (result (filter_reply update ctx (chat_id c) txt w)); [|now left].
  rewrite Hfw, calls_bind.
  destruct (anti_link_off update ctx (chat_id c) txt w Hoff) as (Hlc & Hlr & _).
  rewrite Hlc, Hlr. simpl.
  destruct (db_available ctx); [|now left].
  apply anti_spam_calls.
Qed.

End EngineShape.

(** C3: in a group whose antilink setting is off, the link check makes no
    call at all, whatever the text; the handler sends no link notice, and
    a message that gets deleted is one the spam check flagged. *)
Theorem antilink_off_never_deletes
    (update : Update) (ctx : Context) (w : World) (c : Chat)
    (Hchat : effective_chat update = Some c)
    (Hoff : setting_off (database w) (chat_id c) antilink = true) :
  (forall txt, calls (anti_link update ctx (chat_id c) txt w) = [])
  /\ (send_message (chat_id c) (link_notice update)
      ∉ calls (moderate_messages update ctx w))
  /\ (delete ∈ calls (moderate_messages update ctx w) ->
      spam_flagged (chat_id c) update (moderate_messages update ctx w) = true).
Proof.
  split; [intros txt; apply (anti_link_off update ctx (chat_id c) txt w Hoff)|].
  destruct (moderate_messages_calls_off update ctx w c Hchat Hoff)
    as (fc & sc & Hcalls & Hfc & Hsc).
  unfold spam_flagged. rewrite Hcalls. split.
  - intros [Hin|Hin]%elem_of_app.
    + revert Hin. now apply only_replies_not_in.
    + destruct Hsc as [->| ->]; [inversion Hin|].
      unfold spam_actions in Hin.
      apply elem_of_cons in Hin as [Hin|Hin]; [discriminate|].
      apply list_elem_of_singleton in Hin.
      apply (notices_differ update). congruence.
  - intros [Hin|Hin]%elem_of_app.
    + exfalso. revert Hin. now apply only_replies_not_in.
    + destruct Hsc as [->| ->]; [inversion Hin|].
      apply andb_true_intro.
      split; apply bool_decide_eq_true, elem_of_app; right; unfold spam_actions;
        [apply list_elem_of_here | apply list_elem_of_further, list_elem_of_here].
Qed.

Lemma antilink_off_never_deletes_witness :
  calls (moderate_messages (sample_message "see http://example.com") (sample_ctx 100)
           (sample_world 0 0 0)) = []
  /\ calls (anti_link (sample_message "see http://example.com") (sample_ctx 100)
              (-100) "see http://example.com" (sample_world 0 0 0)) = [].
Proof.
  split; [reflexivity|].
  exact (proj1 (antilink_off_never_deletes (sample_message "see http://example.com")
                  (sample_ctx 100) (sample_world 0 0 0) room eq_refl eq_refl)
           "see http://example.com").
Defined.

(** C6: when the link check fires (antilink on, sender not bypassed, link
    found in the scrubbed text), the handler emits the delete then the
    notice, after the filter reply if any, and returns: the world, hence
    the spam window of the sender, is as before and no action of the spam
    check is emitted. *)
Theorem link_check_short_circuits
    (update : Update) (ctx : Context) (w : World) (chat : Z) (txt : string)
    (Hgroup : in_group chat update = true)
    (Htext : text_of update = Some txt)
    (Hne : txt <> EmptyString)
    (Hdb : db_available ctx = true)
    (Hreply : filter_reply_ok (database w) ctx chat txt = true)
    (Hfires : link_check_fires (database w) chat txt = true)
    (Hna : sender_is_admin update ctx = false) :
  let r := moderate_messages update ctx w in
  calls r = filter_calls (database w) chat txt
            ++ [delete; send_message chat (link_notice update)]
  /\ result r = Return tt
  /\ final r = w
  /\ tracker_get (spam_tracker (final r)) chat (sender_key update)
     = tracker_get (spam_tracker w) chat (sender_key update)
  /\ (send_message chat (slow_down_notice update) ∉ calls r).
Proof.
  intros r. subst r.
  rewrite (moderate_messages_steps update ctx chat txt Hgroup Htext Hne).
  erewrite bind_run by (apply filter_reply_run; assumption).
  erewrite bind_run by (apply anti_link_fires; assumption).
  simpl. repeat split.
  intros [Hin|Hin]%elem_of_app.
  - revert Hin. apply only_replies_not_in; [|reflexivity].
    unfold filter_calls. repeat case_match; reflexivity.
  - apply elem_of_cons in Hin as [Hin|Hin]; [discriminate|].
      apply list_elem_of_singleton in Hin.
      apply (notices_differ update). congruence.
Qed.

Lemma link_check_short_circuits_witness :
  let r := moderate_messages (sample_message "see http://example.com") (sample_ctx 100)
             (sample_world 1 1 0) in
  calls r = [delete; send_message (-100) (link_notice (sample_message "see http://example.com"))]
  /\ final r = sample_world 1 1 0.
Proof.
  pose proof (link_check_short_circuits (sample_message "see http://example.com")
                (sample_ctx 100) (sample_world 1 1 0) (-100) "see http://example.com"
                eq_refl eq_refl ltac:(discriminate) eq_refl eq_refl eq_refl eq_refl) as H.
  split; [exact (proj1 H) | exact (proj1 (proj2 (proj2 H)))].
Defined.

(* ===================================================================== *)
(** * Storage failures *)
(* ===================================================================== *)




(* ===================================================================== *)
(** * The spam rate tracker *)
(* ===================================================================== *)

Section Tracker.

Lemma tracker_get_set tr chat uid dq :
  tracker_get (tracker_set tr chat uid dq) chat uid = dq.
Proof.
  unfold tracker_get, tracker_set.
  rewrite lookup_insert_eq. simpl. now rewrite lookup_insert_eq.
Qed.

Lemma is_recent_spec now t : is_recent now t = true <-> (now - t <= 6)%Q.
Proof. unfold is_recent, SPAM_WINDOW_SECONDS. apply Qle_bool_iff. Qed.

Lemma deque_append_drop n dq x :
  deque_append n dq x = drop (length dq + 1 - n) (dq ++ [x]).
Proof. unfold deque_append. now rewrite length_app. Qed.

(** The deque after some appends is the tail of the whole history. *)
Lemma deque_after_history ts : forall dq,
  ts <> [] ->
  deque_after dq ts
  = drop (length (dq ++ ts) - SPAM_DEQUE_MAXLEN) (dq ++ ts).
Proof.
  unfold deque_after.
  induction ts as [|t ts IH]; intros dq Hne; [congruence|]. simpl.
  destruct ts as [|t' ts].
  - simpl. unfold deque_append. reflexivity.
  - rewrite IH by discriminate.
    set (n := SPAM_DEQUE_MAXLEN). rewrite deque_append_drop.
    set (k := (length dq + 1 - n)%nat).
    assert (Hk : (k <= length (dq ++ [t]))%nat) by (rewrite length_app; simpl; lia).
    rewrite <- (drop_app_le (dq ++ [t]) (t' :: ts) k Hk).
    rewrite drop_drop, <- app_assoc. simpl.
    f_equal. rewrite !length_app, length_drop, !length_app. simpl. lia.
Qed.

Lemma verdicts_app pre : forall dq rest,
  verdicts dq (pre ++ rest) = verdicts dq pre ++ verdicts (deque_after dq pre) rest.
Proof.
  induction pre as [|t pre IH]; intros dq rest; [reflexivity|].
  simpl. now rewrite IH.
Qed.

Lemma deque_after_app dq pre rest :
  deque_after dq (pre ++ rest) = deque_after (deque_after dq pre) rest.
Proof. unfold deque_after. apply fold_left_app. Qed.

Lemma length_verdicts ts : forall dq, length (verdicts dq ts) = length ts.
Proof. induction ts; intros; simpl; [reflexivity|]. now rewrite IHts. Qed.

(** The verdict on a message: the limit test on the deque that holds the
    history up to and including its timestamp. *)
Lemma verdict_at dq pre t post :
  verdicts dq (pre ++ t :: post) !! length pre
  = Some (over_limit t (deque_after dq (pre ++ [t]))).
Proof.
  rewrite verdicts_app, lookup_app_r by (rewrite length_verdicts; lia).
  rewrite length_verdicts, Nat.sub_diag. simpl. now rewrite deque_after_app.
Qed.

Lemma length_recent_all now l :
  forallb (is_recent now) l = true -> length (recent now l) = length l.
Proof.
  unfold recent. induction l as [|a l IH]; [reflexivity|]. simpl.
  intros [Ha Hl]%andb_prop. rewrite Ha. simpl. now rewrite IH.
Qed.

Lemma length_recent_app now a b :
  length (recent now (a ++ b)) = (length (recent now a) + length (recent now b))%nat.
Proof. unfold recent. now rewrite List.filter_app, length_app. Qed.

Lemma forallb_drop {A} (f : A -> bool) k l :
  forallb f l = true -> forallb f (drop k l) = true.
Proof.
  revert k. induction l as [|a l IH]; intros [|k]; simpl; auto.
  intros [_ Hl]%andb_prop. now apply IH.
Qed.

(** A history that ends in six or more timestamps within the window of
    [now] is over the limit once cut to the deque length. *)
Lemma over_limit_burst now a b :
  forallb (is_recent now) b = true ->
  (SPAM_MAX_MSGS <= length b)%nat ->
  over_limit now (drop (length (a ++ b) - SPAM_DEQUE_MAXLEN) (a ++ b)) = true.
Proof.
  intros Hb Hlen. unfold over_limit. apply Nat.leb_le.
  set (k := (length (a ++ b) - SPAM_DEQUE_MAXLEN)%nat).
  destruct (Nat.le_gt_cases k (length a)) as [Hk|Hk].
  - rewrite drop_app_le by exact Hk.
    rewrite length_recent_app, (length_recent_all now b Hb). lia.
  - rewrite drop_app_ge by lia.
    rewrite length_recent_all by (now apply forallb_drop).
    rewrite length_drop. subst k. rewrite length_app in *.
    unfold SPAM_DEQUE_MAXLEN, SPAM_MAX_MSGS in *. lia.
Qed.

(** ** Spaced messages *)







End Tracker.

(* ===================================================================== *)
(** * The spam check along a stream of messages *)
(* ===================================================================== *)

Section SpamRuns.

Lemma filter_calls_only_replies d chat txt : only_replies (filter_calls d chat txt) = true.
Proof. unfold filter_calls. repeat case_match; reflexivity. Qed.

(** The handler on an event that gets to the spam check. *)
Lemma moderate_messages_spam_checked update ctx w chat uid :
  spam_checked (database w) chat uid (update, ctx) = true ->
  setting_on (database w) chat antispam = true ->
  let dq := deque_append SPAM_DEQUE_MAXLEN (tracker_get (spam_tracker w) chat uid)
              (time_time ctx) in
  exists fc,
    only_replies fc = true
    /\ moderate_messages update ctx w
       = mkRun (set_spam_tracker (tracker_set (spam_tracker w) chat uid dq) w)
           (fc ++ if over_limit (time_time ctx) dq then spam_actions chat update else [])
           (Return tt).
Proof.
  intros H Hon dq. unfold spam_checked, reaches_spam_check in H. cbn [fst snd] in H.
  apply andb_prop in H as [[Hreach Hkey%Z.eqb_eq]%andb_prop Hna%negb_true_iff].
  apply andb_prop in Hreach as [[Hg Hdb]%andb_prop Ht].
  destruct (text_of update) as [txt|] eqn:Htext; [|discriminate].
  apply andb_prop in Ht as [[Hne%negb_true_iff%String.eqb_neq Hreply]%andb_prop Hpass].
  exists (filter_calls (database w) chat txt).
  split; [apply filter_calls_only_replies|].
  rewrite (moderate_messages_steps update ctx chat txt Hg Htext Hne).
  erewrite bind_run by (apply filter_reply_run; assumption).
  erewrite bind_run
    by (apply anti_link_passes; [assumption..| now apply (setting_on_row _ _ antispam)]).
  simpl. rewrite Hkey.
  rewrite (anti_spam_run update ctx chat uid w Hdb Hon Hna). reflexivity.
Qed.

Lemma spam_flagged_shape chat update w' fc (b : bool) res :
  only_replies fc = true ->
  spam_flagged chat update
    (mkRun w' (fc ++ if b then spam_actions chat update else []) res) = b.
Proof.
  intros Hfc. unfold spam_flagged. simpl. destruct b.
  - apply andb_true_intro.
    split; apply bool_decide_eq_true, elem_of_app; right; unfold spam_actions;
      [apply list_elem_of_here | apply list_elem_of_further, list_elem_of_here].
  - rewrite app_nil_r. apply andb_false_intro1, bool_decide_eq_false.
    now apply only_replies_not_in.
Qed.

(** Along events that all get to the spam check for one (chat, user)
    key, the flags are the verdicts on the timestamps, the deque of the
    key receives every timestamp, and the database stays as it is. *)
Lemma run_spam_checked chat uid evs : forall w,
  setting_on (database w) chat antispam = true ->
  forallb (spam_checked (database w) chat uid) evs = true ->
  flags chat evs w = verdicts (tracker_get (spam_tracker w) chat uid) (times evs)
  /\ tracker_get (spam_tracker (world_after evs w)) chat uid
     = deque_after (tracker_get (spam_tracker w) chat uid) (times evs)
  /\ database (world_after evs w) = database w.
Proof.
  induction evs as [|[update ctx] evs IH]; intros w Hon Hevs; [now repeat split|].
  simpl in Hevs. apply andb_prop in Hevs as [He Hevs].
  destruct (moderate_messages_spam_checked update ctx w chat uid He Hon) as (fc & Hfc & Hrun).
  unfold flags, times in *. simpl. rewrite !Hrun. simpl.
  set (w1 := set_spam_tracker _ w) in *.
  specialize (IH w1 Hon Hevs). destruct IH as (IH1 & IH2 & IH3).
  rewrite IH1, IH2, IH3. unfold w1. simpl. rewrite tracker_get_set.
  rewrite spam_flagged_shape by exact Hfc. now repeat split.
Qed.

Lemma senderless_spam_checked d chat e :
  senderless d chat e = true -> spam_checked d chat 0 e = true.
Proof.
  unfold senderless, spam_checked, sender_key, sender_is_admin.
  intros [Hr Hu%bool_decide_eq_true]%andb_prop. rewrite Hr, Hu. reflexivity.
Qed.

Lemma times_last evs e :
  last evs = Some e -> exists pre, times evs = times pre ++ [time_time (snd e)].
Proof.
  intros [pre ->]%last_Some. exists pre. unfold times. now rewrite map_app.
Qed.

(** The last message of a burst of six or more within the window. *)
Lemma verdicts_burst dq ts t :
  (SPAM_MAX_MSGS <= length ts)%nat ->
  last ts = Some t ->
  within_window t ts = true ->
  last (verdicts dq ts) = Some true.
Proof.
  intros Hlen Hlast Hwin. apply last_Some in Hlast as [pre ->].
  rewrite verdicts_app. simpl.
  rewrite last_snoc. f_equal.
  change (deque_append SPAM_DEQUE_MAXLEN (deque_after dq pre) t)
    with (deque_after (deque_after dq pre) [t]).
  rewrite <- deque_after_app.
  rewrite deque_after_history by (now destruct pre).
  now apply over_limit_burst.
Qed.

(** The burst property on the flags of a run. *)
Lemma spam_check_burst_core chat uid evs w :
  setting_on (database w) chat antispam = true ->
  forallb (spam_checked (database w) chat uid) evs = true ->
  forall e,
    (6 <= length evs)%nat ->
    last evs = Some e ->
    within_window (time_time (snd e)) (times evs) = true ->
    last (flags chat evs w) = Some true.
Proof.
  intros Hon Hevs e Hlen Hlast Hwin.
  destruct (run_spam_checked chat uid evs w Hon Hevs) as (Hflags & _ & _).
  rewrite Hflags.
  apply verdicts_burst with (t := time_time (snd e)).
  - unfold times. now rewrite length_map.
  - destruct (times_last evs e Hlast) as [pre ->]. apply last_snoc.
  - exact Hwin.
Qed.

End SpamRuns.



Section SpamHistory.

(** Five or more earlier timestamps of which the last five are within
    the window of [t]: the message at [t] is over the limit. *)
Lemma over_limit_six_recent dq pre t :
  let history := dq ++ pre in
  (5 <= length history)%nat ->
  within_window t (drop (length history - 5) history) = true ->
  over_limit t (deque_after dq (pre ++ [t])) = true.
Proof.
  intros history Hlen Hwin.
  rewrite deque_after_history by (now destruct pre).
  rewrite app_assoc. fold history.
  rewrite <- (take_drop (length history - 5) history), <- app_assoc.
  apply over_limit_burst.
  - unfold within_window in Hwin. rewrite forallb_app, Hwin. simpl.
    rewrite andb_true_r. apply is_recent_spec. lra.
  - rewrite length_app, length_drop. simpl. unfold SPAM_MAX_MSGS. lia.
Qed.

Lemma flags_at chat uid pre e post w :
  setting_on (database w) chat antispam = true ->
  forallb (spam_checked (database w) chat uid) (pre ++ e :: post) = true ->
  flags chat (pre ++ e :: post) w !! length pre
  = Some (over_limit (time_time (snd e))
            (deque_after (tracker_get (spam_tracker w) chat uid) (times (pre ++ [e])))).
Proof.
  intros Hon Hevs.
  destruct (run_spam_checked chat uid _ w Hon Hevs) as (Hflags & _ & _).
  rewrite Hflags. unfold times. rewrite !map_app. simpl.
  replace (length pre) with (length (map (fun e0 : Event => time_time (snd e0)) pre))
    by apply length_map.
  apply verdict_at.
Qed.

End SpamHistory.

(** C9: the spam check appends the timestamp of every message it examines
    to the deque of the sender, flagged or not, so that the deque is the
    tail of the whole history and a flag neither clears nor shrinks it;
    the verdict on a message depends on that history alone, and every
    message whose timestamp and the five before it lie within the window
    is flagged, whatever was flagged before. *)
Theorem flagging_keeps_the_window
    (chat uid : Z) (evs : list Event) (w : World)
    (Hon : setting_on (database w) chat antispam = true)
    (Hevs : forallb (spam_checked (database w) chat uid) evs = true) :
  let dq0 := tracker_get (spam_tracker w) chat uid in
  tracker_get (spam_tracker (world_after evs w)) chat uid = deque_after dq0 (times evs)
  /\ (evs <> [] ->
      deque_after dq0 (times evs)
      = drop (length (dq0 ++ times evs) - SPAM_DEQUE_MAXLEN) (dq0 ++ times evs))
  /\ (forall pre e post,
        evs = pre ++ e :: post ->
        flags chat evs w !! length pre
        = Some (over_limit (time_time (snd e)) (deque_after dq0 (times (pre ++ [e])))))
  /\ (forall pre e post,
        evs = pre ++ e :: post ->
        let history := dq0 ++ times pre in
        (5 <= length history)%nat ->
        within_window (time_time (snd e)) (drop (length history - 5) history) = true ->
        flags chat evs w !! length pre = Some true).
Proof.
  intros dq0.
  destruct (run_spam_checked chat uid evs w Hon Hevs) as (_ & Htr & _).
  split; [exact Htr|]. split; [|split].
  - intros Hne. apply deque_after_history. unfold times. now destruct evs.
  - intros pre e post ->. now apply flags_at.
  - intros pre e post -> history Hlen Hwin.
    rewrite (flags_at chat uid pre e post w Hon Hevs). f_equal.
    unfold times. rewrite map_app. simpl.
    now apply over_limit_six_recent.
Qed.

Lemma flagging_keeps_the_window_witness :
  flags (-100) sample_flood (sample_world 0 1 0)
  = [false; false; false; false; false; true; true; true]
  /\ tracker_get (spam_tracker (world_after sample_flood (sample_world 0 1 0))) (-100) 42
     = deque_after [] (times sample_flood).
Proof.
  split; [reflexivity|].
  exact (proj1 (flagging_keeps_the_window (-100) 42 sample_flood (sample_world 0 1 0)
                  eq_refl eq_refl)).
Defined.

(** C10: a group text message with no resolvable sender user is tracked
    under the user id 0 and is never bypassed as an administrator's, so
    all such messages of a chat share one deque: the last of six or more
    of them within one window is flagged, whoever sent them, and the
    deque of key 0 holds all their timestamps. *)
Theorem senderless_messages_share_window
    (chat : Z) (evs : list Event) (w : World)
    (Hon : setting_on (database w) chat antispam = true)
    (Hevs : forallb (senderless (database w) chat) evs = true) :
  (forall e, e ∈ evs ->
     sender_key (fst e) = 0 /\ sender_is_admin (fst e) (snd e) = false)
  /\ tracker_get (spam_tracker (world_after evs w)) chat 0
     = deque_after (tracker_get (spam_tracker w) chat 0) (times evs)
  /\ (forall e,
        (6 <= length evs)%nat ->
        last evs = Some e ->
        within_window (time_time (snd e)) (times evs) = true ->
        last (flags chat evs w) = Some true).
Proof.
  assert (Hchecked : forallb (spam_checked (database w) chat 0) evs = true).
  { rewrite forallb_forall in *. intros e He. apply senderless_spam_checked. auto. }
  split; [|split].
  - intros e He%list_elem_of_In. rewrite forallb_forall in Hevs.
    specialize (Hevs e He). unfold senderless in Hevs.
    apply andb_prop in Hevs as [_ Hu%bool_decide_eq_true].
    unfold sender_key, sender_is_admin. now rewrite Hu.
  - apply (run_spam_checked chat 0 evs w Hon Hchecked).
  - apply (spam_check_burst_core chat 0 evs w Hon Hchecked).
Qed.

Lemma senderless_messages_share_window_witness :
  last (flags (-100) sample_senderless_burst (sample_world 0 1 0)) = Some true
  /\ is_admin (sample_senderless (-100) "c") (sample_ctx 101) = true.
Proof.
  split; [|reflexivity].
  exact (proj2 (proj2 (senderless_messages_share_window (-100) sample_senderless_burst
                         (sample_world 0 1 0) eq_refl eq_refl))
           (sample_senderless (-206) "f", sample_ctx 103) ltac:(simpl; lia) eq_refl eq_refl).
Defined.

(* ===================================================================== *)
(** * The filter table *)
(* ===================================================================== *)

Section FilterTable.
Import PyStr.

Lemma is_space_lower c : is_space (lower_char c) = is_space c.
Proof. destruct c as [[] [] [] [] [] [] [] []]; reflexivity. Qed.




Lemma filter_row_is_key chat key r :
  filter_row_is chat key r = true <-> filter_key r = (chat, key).
Proof.
  unfold filter_row_is, filter_key. rewrite andb_true_iff, Z.eqb_eq, String.eqb_eq.
  split; [intros [-> ->]; reflexivity | intros [= -> ->]; auto].
Qed.

Lemma filter_row_is_new chat key reply :
  filter_row_is chat key {| f_chat_id := chat; f_key := key; f_reply := reply |} = true.
Proof. now apply filter_row_is_key. Qed.


Lemma upsert_filter_keys chat key reply rows :
  map filter_key (upsert_filter chat key reply rows)
  = if existsb (filter_row_is chat key) rows then map filter_key rows
    else map filter_key rows ++ [(chat, key)].
Proof.
  induction rows as [|r rows IH]; simpl; [reflexivity|].
  destruct (filter_row_is chat key r) eqn:E; simpl.
  - apply filter_row_is_key in E. now rewrite E.
  - rewrite IH. now destruct (existsb _ rows).
Qed.

Lemma not_in_keys chat key rows :
  existsb (filter_row_is chat key) rows = false -> ~ In (chat, key) (map filter_key rows).
Proof.
  intros Hex Hin. apply in_map_iff in Hin as (r & Hr & Hin).
  apply filter_row_is_key in Hr.
  assert (existsb (filter_row_is chat key) rows = true) by (apply existsb_exists; eauto).
  congruence.
Qed.

(** The primary key survives an upsert. *)
Lemma upsert_filter_pk chat key reply rows :
  filters_pk rows -> filters_pk (upsert_filter chat key reply rows).
Proof.
  unfold filters_pk. fold filter_key. intros Hpk. rewrite upsert_filter_keys.
  destruct (existsb _ rows) eqn:Hex; [exact Hpk|].
  apply NoDup_ListNoDup, NoDup_app. apply NoDup_ListNoDup in Hpk.
  split; [exact Hpk|]. split; [|apply NoDup_singleton].
  intros x Hx Hx'. apply list_elem_of_singleton in Hx'. subst x.
  apply list_elem_of_In in Hx. now apply not_in_keys in Hx.
Qed.



Lemma add_filter_run ctx chat key reply w :
  db_available ctx = true ->
  add_filter ctx chat key reply w
  = mkRun (set_database
             (with_filters
                (upsert_filter chat (lower (strip key)) reply (filters (database w)))
                (database w)) w) [] (Return tt).
Proof. intros Hdb. unfold add_filter. now rewrite transaction_up by exact Hdb. Qed.



End FilterTable.




(* ===================================================================== *)
(** * The parts of a command text *)
(* ===================================================================== *)

Module PySplitFacts.
Import PyStr PySplit.

Lemma split_S m s :
  split (S m) s
  = match lstrip s with
    | EmptyString => []
    | String c r => word (String c r) :: split m (after_word (String c r))
    end.
Proof. destruct s; reflexivity. Qed.

Lemma split_O s :
  split 0 s = match lstrip s with EmptyString => [] | String c r => [String c r] end.
Proof. destruct s; reflexivity. Qed.

(** What [lstrip] leaves begins with a character that is not white space. *)
Lemma lstrip_head s c r : lstrip s = String c r -> is_space c = false.
Proof.
  induction s as [|a s IH]; simpl; [discriminate|].
  destruct (is_space a) eqn:E; [exact IH|]. intros [= <- <-]. exact E.
Qed.

Lemma word_no_space s : no_space (word s) = true.
Proof.
  induction s as [|c s IH]; simpl; [reflexivity|].
  destruct (is_space c) eqn:E; simpl; [reflexivity|]. now rewrite E, IH.
Qed.

Lemma rstrip_no_space s : no_space s = true -> rstrip s = s.
Proof.
  induction s as [|c s IH]; [reflexivity|]. simpl.
  intros [Hc Hs]%andb_prop. apply negb_true_iff in Hc. rewrite (IH Hs), Hc.
  now destruct s.
Qed.

(** Stripping leaves a string without white space as it is. *)
Lemma strip_no_space s : no_space s = true -> strip s = s.
Proof.
  intros H. unfold strip.
  replace (lstrip s) with s; [now apply rstrip_no_space|].
  destruct s as [|c s]; [reflexivity|]. simpl in *.
  apply andb_prop in H as [Hc _]. apply negb_true_iff in Hc. now rewrite Hc.
Qed.

(** Stripping cannot empty a string that begins with a visible character. *)
Lemma strip_visible c r : is_space c = false -> strip (String c r) <> EmptyString.
Proof.
  intros Hc. unfold strip. simpl. rewrite Hc. simpl. rewrite Hc.
  destruct (rstrip r); discriminate.
Qed.

Lemma split_cons m s p l :
  split (S m) s = p :: l ->
  exists c r, is_space c = false /\ p = String c (word r)
              /\ l = split m (after_word (String c r)).
Proof.
  rewrite split_S. destruct (lstrip s) as [|c r] eqn:E; [discriminate|].
  pose proof (lstrip_head s c r E) as Hc. simpl. rewrite Hc.
  intros [= <- <-]. exists c, r. rewrite Hc. auto.
Qed.

Lemma split_last s p l :
  split 0 s = p :: l -> exists c r, is_space c = false /\ p = String c r.
Proof.
  rewrite split_O. destruct (lstrip s) as [|c r] eqn:E; [discriminate|].
  intros [= <- <-]. exists c, r. split; [exact (lstrip_head s c r E) | reflexivity].
Qed.

(** A part cut off by [split] is a non-empty word. *)
Lemma split_word m s p l :
  split (S m) s = p :: l ->
  p <> EmptyString /\ no_space p = true /\ strip p = p.
Proof.
  intros (c & r & Hc & -> & _)%split_cons.
  assert (Hns : no_space (String c (word r)) = true).
  { simpl. now rewrite Hc, word_no_space. }
  split; [discriminate | split; [exact Hns | now apply strip_no_space]].
Qed.

(** The key and the reply that [/filter] takes from a text of three
    parts: the key is a non-empty word, the reply is not empty. *)
Lemma split_filter_parts s p0 p1 p2 l :
  split 2 s = p0 :: p1 :: p2 :: l ->
  strip p1 <> EmptyString /\ no_space (strip p1) = true /\ strip p2 <> EmptyString.
Proof.
  intros H. apply split_cons in H as (c & r & _ & _ & H).
  symmetry in H. pose proof H as H1.
  apply split_word in H1 as (Hne & Hns & Hs).
  apply split_cons in H as (c1 & r1 & _ & _ & H).
  symmetry in H. apply split_last in H as (c2 & r2 & Hc2 & ->).
  rewrite Hs. split; [exact Hne | split; [exact Hns | now apply strip_visible]].
Qed.

(** The body that [/setwelcome] and its siblings store is not empty. *)
Lemma split_body s p0 p1 l :
  split 1 s = p0 :: p1 :: l -> strip p1 <> EmptyString.
Proof.
  intros H. apply split_cons in H as (c & r & _ & _ & H).
  symmetry in H. apply split_last in H as (c2 & r2 & Hc2 & ->).
  now apply strip_visible.
Qed.

End PySplitFacts.

(* ===================================================================== *)
(** * Invariants kept by every handler *)
(* ===================================================================== *)

Section HandlersKeep.
Variable R : World -> World -> Prop.
Hypothesis R_refl : forall w, R w w.
Hypothesis R_trans : forall w1 w2 w3, R w1 w2 -> R w2 w3 -> R w1 w3.
Hypothesis R_get_setting : forall ctx c key dflt, keeps R (get_setting ctx c key dflt).
Hypothesis R_set_setting : forall ctx c key v, keeps R (set_setting ctx c key v).
Hypothesis R_get_warns : forall ctx c u, keeps R (get_warns ctx c u).
Hypothesis R_set_warns : forall ctx c u n, keeps R (set_warns ctx c u n).
Hypothesis R_reset_warns : forall ctx c u, keeps R (reset_warns ctx c u).
Hypothesis R_add_filter : forall ctx c k r,
  k <> EmptyString -> no_space k = true -> r <> EmptyString ->
  keeps R (add_filter ctx c k r).
Hypothesis R_remove_filter : forall ctx c k, keeps R (remove_filter ctx c k).
Hypothesis R_match_filter : forall ctx c t, keeps R (match_filter ctx c t).
Hypothesis R_list_filters : forall ctx c, keeps R (list_filters ctx c).

Ltac keeps_R :=
  lazymatch goal with
  | |- keeps _ (mret _) => apply (keeps_ret R R_refl)
  | |- keeps _ (raise _) => apply (keeps_raise R R_refl)
  | |- keeps _ (call _ _) => apply (keeps_call R R_refl)
  | |- keeps _ (call_quietly _ _) => apply (keeps_call_quietly R R_refl)
  | |- keeps _ (reply _ _ _) => apply (keeps_reply R R_refl)
  | |- keeps _ (effective_chat_id _) => apply (keeps_effective_chat_id R R_refl)
  | |- keeps _ (require_admin _ _) => apply (keeps_require_admin R R_refl R_trans)
  | |- keeps _ (py_int _) => apply (keeps_py_int R R_refl)
  | |- keeps _ (read_toggle _ _ _) => unfold read_toggle
  | |- keeps _ (get_setting _ _ _ _) => apply R_get_setting
  | |- keeps _ (set_setting _ _ _ _) => apply R_set_setting
  | |- keeps _ (get_warns _ _ _) => apply R_get_warns
  | |- keeps _ (set_warns _ _ _ _) => apply R_set_warns
  | |- keeps _ (reset_warns _ _ _) => apply R_reset_warns
  | |- keeps _ (add_filter _ _ _ _) => apply R_add_filter
  | |- keeps _ (remove_filter _ _ _) => apply R_remove_filter
  | |- keeps _ (match_filter _ _ _) => apply R_match_filter
  | |- keeps _ (list_filters _ _) => apply R_list_filters
  | |- keeps _ (try_except _ _) => apply (keeps_try_except R R_trans); [|intros ?]
  | |- keeps _ (_ ≫= _) => apply (keeps_bind R R_trans); [|intros ?]
  | |- keeps _ (if _ then _ else _) => case_match
  | |- keeps _ (match _ with _ => _ end) => case_match
  end.

(** The message handler, given that recording under the key of the
    sender keeps the relation. *)
Lemma moderate_messages_keeps update ctx :
  (forall c now, effective_chat update = Some c ->
                 keeps R (spam_record (chat_id c) (sender_key update) now)) ->
  keeps R (moderate_messages update ctx).
Proof using All.
  intros Hrec. unfold moderate_messages.
  destruct (effective_chat update) as [c|] eqn:Hc; [|keeps_R].
  specialize (Hrec c). unfold sender_key in Hrec.
  unfold filter_reply, anti_link, anti_spam.
  repeat first [ apply Hrec; reflexivity | keeps_R ].
Qed.

Lemma commands_keep e update ctx :
  (e = CLAIMED MODERATE ->
   forall c now, effective_chat update = Some c ->
                 keeps R (spam_record (chat_id c) (sender_key update) now)) ->
  keeps R (entry_point e update ctx).
Proof using All.
  intros Hrec. destruct e as [[]| | | | | | | | |]; simpl.
  - apply moderate_messages_keeps. now apply Hrec.
  - unfold warn_cmd. repeat keeps_R.
  - unfold resetwarns_cmd. repeat keeps_R.
  - unfold antilink_cmd. repeat keeps_R.
  - unfold antispam_cmd. repeat keeps_R.
  - unfold warns_cmd, effective_user_id. repeat keeps_R.
  - unfold mute_cmd. repeat keeps_R.
  - unfold filter_cmd, message_text. repeat keeps_R;
      match goal with
      | H : PySplit.split 2 _ = _ |- _ =>
          apply PySplitFacts.split_filter_parts in H as (Hkey & Hword & Hreply)
      end; assumption.
  - unfold stop_cmd. repeat keeps_R.
  - unfold filters_cmd. repeat keeps_R.
  - unfold setwelcome_cmd, set_text_setting, message_text. repeat keeps_R.
  - unfold setgoodbye_cmd, set_text_setting, message_text. repeat keeps_R.
  - unfold setrules_cmd, set_text_setting, message_text. repeat keeps_R.
  - unfold rules_cmd. repeat keeps_R.
Qed.

Lemma chat_member_update_keeps cm ctx : keeps R (chat_member_update cm ctx).
Proof using All. unfold chat_member_update, greet. repeat keeps_R. Qed.

Lemma handle_keeps i :
  (forall update c now, effective_chat update = Some c ->
                        keeps R (spam_record (chat_id c) (sender_key update) now)) ->
  keeps R (handle i).
Proof using All.
  intros Hrec. destruct i as [e update ctx|cm ctx]; simpl.
  - apply commands_keep. intros _. apply Hrec.
  - apply chat_member_update_keeps.
Qed.

Lemma handle_all_keeps incoming :
  (forall update c now, effective_chat update = Some c ->
                        keeps R (spam_record (chat_id c) (sender_key update) now)) ->
  forall w, R w (handle_all incoming w).
Proof using All.
  intros Hrec. induction incoming as [|i rest IH]; intros w; simpl; [apply R_refl|].
  eapply R_trans; [apply handle_keeps; exact Hrec | apply IH].
Qed.

End HandlersKeep.

Section TrackerInvariants.

Lemma tracker_get_set_ne tr c u dq c' u' :
  (c', u') <> (c, u) ->
  tracker_get (tracker_set tr c u dq) c' u' = tracker_get tr c' u'.
Proof.
  intros Hne. unfold tracker_get, tracker_set.
  destruct (decide (c = c')) as [<-|Hc].
  - rewrite lookup_insert_eq. simpl.
    rewrite lookup_insert_ne by congruence.
    now destruct (tr !! c).
  - now rewrite lookup_insert_ne.
Qed.

Lemma length_deque_append n dq x : (length (deque_append n dq x) <= n)%nat.
Proof. unfold deque_append. rewrite length_drop. lia. Qed.

(** A relation that only looks at the tracker is kept by the storage. *)
Lemma transaction_keeps_tracker (R : World -> World -> Prop) :
  (forall w, R w w) ->
  (forall w d, R w (set_database d w)) ->
  forall A ctx (body : Database -> Database * A), keeps R (transaction ctx body).
Proof.
  intros Hrefl Hdb A ctx body. apply keeps_transaction; [exact Hrefl|]. intros w. apply Hdb.
Qed.

Lemma match_filter_keeps_tracker (R : World -> World -> Prop) :
  (forall w, R w w) ->
  (forall w1 w2 w3, R w1 w2 -> R w2 w3 -> R w1 w3) ->
  (forall w d, R w (set_database d w)) ->
  forall ctx c t, keeps R (match_filter ctx c t).
Proof.
  intros Hrefl Htrans Hdb ctx c t. unfold match_filter.
  destruct (String.eqb t EmptyString); [now apply keeps_ret|].
  apply keeps_bind; [exact Htrans | now apply transaction_keeps_tracker |].
  intros rows. now apply keeps_ret.
Qed.

(** All handlers keep a reflexive, transitive relation on the tracker
    that the recording of the sender's timestamp keeps. *)
Lemma handlers_keep_tracker_relation (R : World -> World -> Prop) :
  (forall w, R w w) ->
  (forall w1 w2 w3, R w1 w2 -> R w2 w3 -> R w1 w3) ->
  (forall w d, R w (set_database d w)) ->
  forall e update ctx,
    (e = CLAIMED MODERATE ->
     forall c now, effective_chat update = Some c ->
                   keeps R (spam_record (chat_id c) (sender_key update) now)) ->
    keeps R (entry_point e update ctx).
Proof.
  intros Hrefl Htrans Hdb e update ctx Hrec.
  apply commands_keep; try assumption; intros;
    first [ now apply match_filter_keeps_tracker
          | now apply transaction_keeps_tracker ].
Qed.

Lemma member_update_keeps_tracker_relation (R : World -> World -> Prop) :
  (forall w, R w w) ->
  (forall w1 w2 w3, R w1 w2 -> R w2 w3 -> R w1 w3) ->
  (forall w d, R w (set_database d w)) ->
  forall cm ctx, keeps R (chat_member_update cm ctx).
Proof.
  intros Hrefl Htrans Hdb cm ctx.
  apply chat_member_update_keeps; try assumption; intros;
    first [ now apply match_filter_keeps_tracker
          | now apply transaction_keeps_tracker ].
Qed.

Lemma spam_record_bounded c u now : keeps bounded_stays (spam_record c u now).
Proof.
  intros w Hw c' u'. unfold spam_record. simpl.
  destruct (decide ((c', u') = (c, u))) as [[= -> ->]|Hne].
  - rewrite tracker_get_set. apply length_deque_append.
  - rewrite tracker_get_set_ne by exact Hne. apply Hw.
Qed.

End TrackerInvariants.

Section TrackerTheorems.

Lemma handle_keeps_tracker_relation (R : World -> World -> Prop) :
  (forall w, R w w) ->
  (forall w1 w2 w3, R w1 w2 -> R w2 w3 -> R w1 w3) ->
  (forall w d, R w (set_database d w)) ->
  (forall update c now, effective_chat update = Some c ->
                        keeps R (spam_record (chat_id c) (sender_key update) now)) ->
  forall incoming w, R w (handle_all incoming w).
Proof.
  intros Hrefl Htrans Hdb Hrec incoming.
  induction incoming as [|i rest IH]; intros w; simpl; [apply Hrefl|].
  eapply Htrans; [|apply IH].
  destruct i as [e update ctx|cm ctx]; simpl.
  - apply handlers_keep_tracker_relation; try assumption. intros _. apply Hrec.
  - now apply member_update_keeps_tracker_relation.
Qed.

Lemma tracker_bounded_empty d : tracker_bounded {| database := d; spam_tracker := ∅ |}.
Proof. intros c u. unfold tracker_get. simpl. rewrite lookup_empty. simpl. lia. Qed.

End TrackerTheorems.

(** X1: whatever is handled — messages, commands, membership
    transitions — no deque of the spam tracker grows beyond its [maxlen]
    of [SPAM_MAX_MSGS + 3] entries. *)
Theorem tracker_stays_bounded (incoming : list Incoming) (w : World)
    (Hw : tracker_bounded w) :
  tracker_bounded (handle_all incoming w).
Proof.
  revert Hw. change (bounded_stays w (handle_all incoming w)).
  apply handle_keeps_tracker_relation.
  - intros w0 H. exact H.
  - intros w1 w2 w3 H12 H23 H. auto.
  - intros w0 d H. exact H.
  - intros update c now _. apply spam_record_bounded.
Qed.

Lemma tracker_stays_bounded_witness :
  tracker_bounded (handle_all sample_incoming (sample_world 0 1 0))
  /\ length (tracker_get (spam_tracker (handle_all sample_incoming (sample_world 0 1 0)))
               (-100) 42) = 8%nat.
Proof.
  split; [|reflexivity].
  apply (tracker_stays_bounded sample_incoming (sample_world 0 1 0)).
  apply tracker_bounded_empty.
Defined.

(** X2: the message handler writes the tracker under the key of the
    sender only — the deque of every other (chat, user) key is as before
    — and no other handler writes the tracker at all. *)
Theorem tracker_written_for_sender_only (i : Incoming) (w : World) :
  match i with
  | COMMAND (CLAIMED MODERATE) update ctx =>
      forall c u,
        (forall ch, effective_chat update = Some ch ->
                    (c, u) <> (chat_id ch, sender_key update)) ->
        tracker_get (spam_tracker (final (handle i w))) c u
        = tracker_get (spam_tracker w) c u
  | _ => spam_tracker (final (handle i w)) = spam_tracker w
  end.
Proof.
  assert (Hother : forall e update ctx,
             e <> CLAIMED MODERATE ->
             spam_tracker (final (entry_point e update ctx w)) = spam_tracker w).
  { intros e update ctx He.
    apply (handlers_keep_tracker_relation
             (fun w1 w2 => spam_tracker w2 = spam_tracker w1)); try congruence; auto. }
  destruct i as [e update ctx|cm ctx].
  - destruct e as [[]| | | | | | | | |]; try (apply Hother; discriminate).
    intros c u Hne. simpl.
    apply (handlers_keep_tracker_relation
             (fun w1 w2 => tracker_get (spam_tracker w2) c u
                           = tracker_get (spam_tracker w1) c u)) with (e := CLAIMED MODERATE).
    + reflexivity.
    + intros w1 w2 w3 H12 H23. congruence.
    + reflexivity.
    + intros _ ch now Hch w0. unfold spam_record. simpl.
      apply tracker_get_set_ne. now apply Hne.
  - apply (member_update_keeps_tracker_relation
             (fun w1 w2 => spam_tracker w2 = spam_tracker w1)); try congruence; auto.
Qed.

Lemma tracker_written_for_sender_only_witness :
  tracker_get (spam_tracker (final (moderate_messages (sample_message "hi") (sample_ctx 1)
                                      (sample_world 0 1 0)))) (-100) 7 = []
  /\ tracker_get (spam_tracker (final (moderate_messages (sample_message "hi") (sample_ctx 1)
                                         (sample_world 0 1 0)))) (-100) 42 = [1%Q].
Proof.
  split; [|reflexivity].
  refine (tracker_written_for_sender_only
            (COMMAND (CLAIMED MODERATE) (sample_message "hi") (sample_ctx 1))
            (sample_world 0 1 0) (-100) 7 _).
  intros ch [= <-]. discriminate.
Defined.

(* ===================================================================== *)
(** * The primary keys *)
(* ===================================================================== *)

Section PrimaryKeys.

Lemma NoDup_map_filter {A B} (f : A -> B) (p : A -> bool) (l : list A) :
  List.NoDup (map f l) -> List.NoDup (map f (List.filter p l)).
Proof.
  induction l as [|a l IH]; intros H; [exact H|].
  simpl in *. inversion H as [|x xs Hnot Hrest]; subst.
  destruct (p a); [|now apply IH].
  simpl. constructor; [|now apply IH].
  intros Hin. apply Hnot. apply in_map_iff in Hin as (y & Hy & Hin).
  apply List.filter_In in Hin as [Hin _]. apply in_map_iff. eauto.
Qed.

Lemma NoDup_snoc {A} (l : list A) (x : A) :
  List.NoDup l -> ~ In x l -> List.NoDup (l ++ [x]).
Proof.
  intros Hl Hx. apply NoDup_ListNoDup, NoDup_app. apply NoDup_ListNoDup in Hl.
  split; [exact Hl|]. split; [|apply NoDup_singleton].
  intros y Hy Hy'. apply list_elem_of_singleton in Hy'. subst y.
  now apply list_elem_of_In in Hy.
Qed.

Lemma insert_or_ignore_settings_pk chat rows :
  List.NoDup (map s_chat_id rows) ->
  List.NoDup (map s_chat_id (insert_or_ignore_settings chat rows)).
Proof.
  intros H. unfold insert_or_ignore_settings.
  destruct (existsb _ rows) eqn:Hex; [exact H|].
  rewrite map_app. simpl. apply NoDup_snoc; [exact H|].
  intros Hin. apply in_map_iff in Hin as (r & Hr & Hin).
  assert (existsb (fun r => s_chat_id r =? chat) rows = true)
    by (apply existsb_exists; exists r; split; [exact Hin | now apply Z.eqb_eq]).
  congruence.
Qed.

Lemma update_settings_ids chat key v rows :
  map s_chat_id (update_settings chat key v rows) = map s_chat_id rows.
Proof.
  unfold update_settings. rewrite map_map. apply map_ext. intros r.
  destruct (s_chat_id r =? chat); [now destruct key | reflexivity].
Qed.

Lemma warn_row_is_key chat user r :
  warn_row_is chat user r = true <-> warn_key r = (chat, user).
Proof.
  unfold warn_row_is, warn_key. rewrite andb_true_iff, !Z.eqb_eq.
  split; [intros [-> ->]; reflexivity | intros [= -> ->]; auto].
Qed.

Lemma upsert_warn_keys chat user count rows :
  map warn_key (upsert_warn chat user count rows)
  = if existsb (warn_row_is chat user) rows then map warn_key rows
    else map warn_key rows ++ [(chat, user)].
Proof.
  induction rows as [|r rows IH]; simpl; [reflexivity|].
  destruct (warn_row_is chat user r) eqn:E; simpl.
  - apply warn_row_is_key in E. now rewrite E.
  - rewrite IH. now destruct (existsb _ rows).
Qed.

Lemma upsert_warn_pk chat user count rows :
  List.NoDup (map warn_key rows) ->
  List.NoDup (map warn_key (upsert_warn chat user count rows)).
Proof.
  intros H. rewrite upsert_warn_keys.
  destruct (existsb _ rows) eqn:Hex; [exact H|].
  apply NoDup_snoc; [exact H|].
  intros Hin. apply in_map_iff in Hin as (r & Hr & Hin).
  apply warn_row_is_key in Hr.
  assert (existsb (warn_row_is chat user) rows = true) by (apply existsb_exists; eauto).
  congruence.
Qed.

Lemma get_setting_keys ctx c key dflt : keeps keys_stay (get_setting ctx c key dflt).
Proof.
  unfold get_setting. apply keeps_transaction; [now intros w H|].
  intros w (Hs & Hw & Hf).
  destruct (List.find _ _); simpl; repeat split; auto.
  now apply insert_or_ignore_settings_pk.
Qed.

Lemma set_setting_keys ctx c key v : keeps keys_stay (set_setting ctx c key v).
Proof.
  unfold set_setting. apply keeps_transaction; [now intros w H|].
  intros w (Hs & Hw & Hf). cbn -[update_settings]. repeat split; auto.
  change (chat_settings (with_chat_settings ?rows _)) with rows.
  rewrite update_settings_ids. now apply insert_or_ignore_settings_pk.
Qed.

Lemma get_warns_keys ctx c u : keeps keys_stay (get_warns ctx c u).
Proof.
  unfold get_warns. apply keeps_transaction; [now intros w H|]. now intros w H.
Qed.

Lemma set_warns_keys ctx c u n : keeps keys_stay (set_warns ctx c u n).
Proof.
  unfold set_warns. apply keeps_transaction; [now intros w H|].
  intros w (Hs & Hw & Hf). simpl. repeat split; auto. now apply upsert_warn_pk.
Qed.

Lemma reset_warns_keys ctx c u : keeps keys_stay (reset_warns ctx c u).
Proof.
  unfold reset_warns. apply keeps_transaction; [now intros w H|].
  intros w (Hs & Hw & Hf). simpl. repeat split; auto. now apply NoDup_map_filter.
Qed.

Lemma add_filter_keys ctx c k r : keeps keys_stay (add_filter ctx c k r).
Proof.
  unfold add_filter. apply keeps_transaction; [now intros w H|].
  intros w (Hs & Hw & Hf). simpl. repeat split; auto. now apply upsert_filter_pk.
Qed.

Lemma remove_filter_keys ctx c k : keeps keys_stay (remove_filter ctx c k).
Proof.
  unfold remove_filter. apply keeps_transaction; [now intros w H|].
  intros w (Hs & Hw & Hf). simpl. repeat split; auto.
  unfold filters_pk. now apply NoDup_map_filter.
Qed.

Lemma match_filter_keys ctx c t : keeps keys_stay (match_filter ctx c t).
Proof.
  unfold match_filter. destruct (String.eqb t EmptyString); [now intros w H|].
  apply keeps_bind.
  - intros w1 w2 w3 H12 H23 H. auto.
  - apply keeps_transaction; [now intros w H|]. now intros w H.
  - intros rows w H. exact H.
Qed.

Lemma list_filters_keys ctx c : keeps keys_stay (list_filters ctx c).
Proof.
  unfold list_filters. apply keeps_transaction; [now intros w H|]. now intros w H.
Qed.

End PrimaryKeys.

(** X3: whatever is handled, the statements the handlers issue respect
    the primary keys of the three tables: one settings row per chat, one
    warn row per (chat, user), one filter row per (chat, key). *)
Theorem primary_keys_kept (incoming : list Incoming) (w : World)
    (Hw : primary_keys (database w)) :
  primary_keys (database (handle_all incoming w)).
Proof.
  revert Hw. change (keys_stay w (handle_all incoming w)).
  apply handle_all_keeps.
  - now intros w0 H.
  - intros w1 w2 w3 H12 H23 H. auto.
  - apply get_setting_keys.
  - apply set_setting_keys.
  - apply get_warns_keys.
  - apply set_warns_keys.
  - apply reset_warns_keys.
  - intros. apply add_filter_keys.
  - apply remove_filter_keys.
  - apply match_filter_keys.
  - apply list_filters_keys.
  - intros update c now _ w0 H. exact H.
Qed.

Lemma primary_keys_kept_witness :
  primary_keys (database (handle_all sample_session empty_world))
  /\ filters (database (handle_all sample_session empty_world)) = []
  /\ warn_count (database (handle_all sample_session empty_world)) (-100) 42 = 2.
Proof.
  split; [|split; reflexivity].
  apply (primary_keys_kept sample_session empty_world).
  repeat split; constructor.
Defined.

(* ===================================================================== *)
(** * The settings store: reads and writes *)
(* ===================================================================== *)

Section SettingsStore.

Lemma find_map_same {A} (p : A -> bool) (g : A -> A) (l : list A) :
  (forall a, p (g a) = p a) ->
  List.find p (map g l) = g <$> List.find p l.
Proof.
  intros Hp. induction l as [|a l IH]; [reflexivity|]. simpl.
  rewrite Hp. now destruct (p a).
Qed.

Lemma find_snoc {A} (p : A -> bool) (l : list A) (x : A) :
  List.find p (l ++ [x])
  = match List.find p l with
    | Some a => Some a
    | None => if p x then Some x else None
    end.
Proof.
  induction l as [|a l IH]; simpl; [reflexivity|]. now destruct (p a).
Qed.

Lemma find_none_existsb {A} (p : A -> bool) (l : list A) :
  List.find p l = None <-> existsb p l = false.
Proof.
  induction l as [|a l IH]; simpl; [tauto|].
  destruct (p a); simpl; [split; discriminate | exact IH].
Qed.

(** The row of a chat after [INSERT OR IGNORE]: its old row, or the
    default one. *)
Lemma find_insert_or_ignore chat rows c :
  List.find (fun r => s_chat_id r =? c) (insert_or_ignore_settings chat rows)
  = match List.find (fun r => s_chat_id r =? c) rows with
    | Some row => Some row
    | None => if chat =? c then Some (default_settings chat) else None
    end.
Proof.
  unfold insert_or_ignore_settings.
  destruct (existsb _ rows) eqn:Hex.
  - destruct (List.find (fun r => s_chat_id r =? c) rows) eqn:Hf; [reflexivity|].
    destruct (Z.eqb_spec chat c) as [->|_]; [|reflexivity].
    apply find_none_existsb in Hf. congruence.
  - rewrite find_snoc. simpl. reflexivity.
Qed.

Lemma column_set_column key key' v r :
  column key' (set_column key v r)
  = if decide (key' = key) then v else column key' r.
Proof. destruct key, key'; reflexivity. Qed.

Lemma s_chat_id_set_column key v r : s_chat_id (set_column key v r) = s_chat_id r.
Proof. now destruct key. Qed.

End SettingsStore.

Section SettingsReads.

Lemma find_chat_id c rows row :
  List.find (fun r => s_chat_id r =? c) rows = Some row -> s_chat_id row = c.
Proof. intros H. apply List.find_some in H as [_ H]. now apply Z.eqb_eq. Qed.

(** The row of a chat after a write to the settings of [chat]. *)
Lemma find_after_write chat key v rows c :
  List.find (fun r => s_chat_id r =? c)
    (update_settings chat key v (insert_or_ignore_settings chat rows))
  = match List.find (fun r => s_chat_id r =? c) rows with
    | Some row => Some (if chat =? c then set_column key v row else row)
    | None => if chat =? c then Some (set_column key v (default_settings chat)) else None
    end.
Proof.
  unfold update_settings.
  rewrite find_map_same.
  2:{ intros r. destruct (s_chat_id r =? chat); [now rewrite s_chat_id_set_column | reflexivity]. }
  rewrite find_insert_or_ignore.
  destruct (List.find _ rows) as [row|] eqn:Hf; simpl.
  - apply find_chat_id in Hf. rewrite Hf, (Z.eqb_sym c chat). reflexivity.
  - destruct (chat =? c); [|reflexivity]. simpl. now rewrite Z.eqb_refl.
Qed.

Lemma get_setting_reads ctx chat key w :
  db_available ctx = true ->
  result (get_setting ctx chat key (source_default key) w)
  = Return (setting_read (database w) chat key).
Proof.
  intros Hdb. rewrite get_setting_run by exact Hdb.
  unfold setting_read, setting_cell.
  destruct (List.find _ _); [|reflexivity]. simpl. now destruct (column key s).
Qed.

Lemma default_row_reads chat key :
  match column key (default_settings chat) with
  | PNone => source_default key
  | PInt n => PInt n
  | PStr s => PStr s
  end = source_default key.
Proof. now destruct key. Qed.

End SettingsReads.

(** X4: a setting that was written is what the next read answers, for
    whatever default the reader passes; writing [None] makes the read
    answer that default. The read changes nothing. *)
Theorem setting_written_is_read
    (ctx ctx' : Context) (chat : Z) (key : setting_key) (v dflt : PyVal) (w : World)
    (Hdb : db_available ctx = true) (Hdb' : db_available ctx' = true) :
  let w1 := final (set_setting ctx chat key v w) in
  get_setting ctx' chat key dflt w1
  = mkRun w1 []
      (Return (match v with PNone => dflt | PInt n => PInt n | PStr s => PStr s end)).
Proof.
  intros w1. subst w1. unfold set_setting. rewrite transaction_up by exact Hdb.
  rewrite get_setting_run by exact Hdb'.
  cbn -[update_settings insert_or_ignore_settings].
  change (chat_settings (with_chat_settings ?rows _)) with rows.
  rewrite find_after_write, Z.eqb_refl.
  destruct (List.find _ _); rewrite column_set_column;
    (destruct (decide (key = key)); [reflexivity | congruence]).
Qed.

Lemma setting_written_is_read_witness :
  result (get_setting (sample_ctx 2) (-100) welcome PNone
            (final (set_setting (sample_ctx 1) (-100) welcome (PStr "Hi {name}") empty_world)))
  = Return (PStr "Hi {name}").
Proof.
  exact (f_equal result
           (setting_written_is_read (sample_ctx 1) (sample_ctx 2) (-100) welcome
              (PStr "Hi {name}") PNone empty_world eq_refl eq_refl)).
Defined.

(** X5: a write to one setting of one chat leaves what the program reads
    for every other setting and every other chat as it was. *)
Theorem setting_write_frame
    (ctx : Context) (chat : Z) (key : setting_key) (v : PyVal) (w : World)
    (chat' : Z) (key' : setting_key)
    (Hother : (chat', key') <> (chat, key)) :
  setting_read (database (final (set_setting ctx chat key v w))) chat' key'
  = setting_read (database w) chat' key'.
Proof.
  unfold set_setting, transaction.
  destruct (db_available ctx); [|reflexivity].
  unfold setting_read, setting_cell.
  cbn -[update_settings insert_or_ignore_settings].
  change (chat_settings (with_chat_settings ?rows _)) with rows.
  rewrite find_after_write.
  destruct (List.find _ _) as [row|] eqn:Hf.
  - destruct (Z.eqb_spec chat chat') as [->|_]; [|reflexivity].
    rewrite column_set_column. destruct (decide (key' = key)); [congruence | reflexivity].
  - destruct (Z.eqb_spec chat chat') as [->|_]; [|reflexivity].
    rewrite column_set_column. destruct (decide (key' = key)); [congruence|].
    apply default_row_reads.
Qed.

Lemma setting_write_frame_witness :
  setting_read
    (database (final (set_setting (sample_ctx 1) (-100) antilink (PInt 1) (sample_world 0 1 0))))
    (-100) antispam
  = PInt 1.
Proof.
  exact (setting_write_frame (sample_ctx 1) (-100) antilink (PInt 1) (sample_world 0 1 0)
           (-100) antispam ltac:(discriminate)).
Defined.

(** X6: a read may materialise the default row of the chat, but it
    changes nothing the program reads afterwards, for any chat and
    setting, nor the other tables or the tracker; once the storage has
    answered a read for a chat, further reads for that chat leave the
    world as it is. *)
Theorem setting_reads_are_pure
    (ctx : Context) (chat : Z) (key : setting_key) (dflt : PyVal) (w : World) :
  let w1 := final (get_setting ctx chat key dflt w) in
  (forall chat' key',
     setting_read (database w1) chat' key' = setting_read (database w) chat' key')
  /\ (db_available ctx = true ->
      forall ctx' key' dflt', final (get_setting ctx' chat key' dflt' w1) = w1)
  /\ warns (database w1) = warns (database w)
  /\ filters (database w1) = filters (database w)
  /\ spam_tracker w1 = spam_tracker w.
Proof.
  intros w1.
  assert (Hw1 : (w1 = w
                 /\ (db_available ctx = true ->
                     List.find (fun r => s_chat_id r =? chat) (chat_settings (database w))
                     <> None))
                \/ (List.find (fun r => s_chat_id r =? chat) (chat_settings (database w)) = None
                    /\ w1 = set_database
                              (with_chat_settings
                                 (insert_or_ignore_settings chat (chat_settings (database w)))
                                 (database w)) w)).
  { subst w1. unfold get_setting, transaction.
    destruct (db_available ctx); [|left; split; [reflexivity | discriminate]].
    destruct (List.find _ _) eqn:Hf; simpl;
      [left; split; [apply set_database_same | discriminate] | right; auto]. }
  clearbody w1.
  assert (Hrow : db_available ctx = true ->
                 List.find (fun r => s_chat_id r =? chat) (chat_settings (database w1))
                 <> None).
  { intros Hdb. destruct Hw1 as [[-> Hw1]|(Hf & ->)]; [now apply Hw1|].
    simpl. rewrite find_insert_or_ignore, Hf, Z.eqb_refl. discriminate. }
  split; [|split; [|split; [|split]]].
  - intros chat' key'. destruct Hw1 as [[-> _]|(Hf & ->)]; [reflexivity|].
    unfold setting_read, setting_cell. simpl.
    rewrite find_insert_or_ignore.
    destruct (List.find (fun r => s_chat_id r =? chat') _) eqn:Hf'; [reflexivity|].
    destruct (chat =? chat'); [apply default_row_reads | reflexivity].
  - intros Hdb ctx' key' dflt'. specialize (Hrow Hdb).
    destruct (db_available ctx') eqn:Hdb'; [|now rewrite get_setting_down].
    rewrite get_setting_run by exact Hdb'.
    destruct (List.find _ (chat_settings (database w1))); [reflexivity | congruence].
  - destruct Hw1 as [[-> _]|(_ & ->)]; reflexivity.
  - destruct Hw1 as [[-> _]|(_ & ->)]; reflexivity.
  - destruct Hw1 as [[-> _]|(_ & ->)]; reflexivity.
Qed.

Lemma setting_reads_are_pure_witness :
  let w1 := final (get_setting (sample_ctx 1) (-100) welcome PNone empty_world) in
  chat_settings (database w1) = [default_settings (-100)]
  /\ final (get_setting (sample_ctx 2) (-100) rules PNone w1) = w1.
Proof.
  split; [reflexivity|].
  exact (proj1 (proj2 (setting_reads_are_pure (sample_ctx 1) (-100) welcome PNone
                         empty_world)) eq_refl (sample_ctx 2) rules PNone).
Defined.

(* ===================================================================== *)
(** * Commands: permission, target, toggles *)
(* ===================================================================== *)

Section Commands.

Lemma reply_run update ctx msg txt w :
  effective_message update = Some msg ->
  reply update ctx txt w = mkRun w [reply_text txt] (reply_outcome ctx txt).
Proof.
  intros Hmsg. unfold reply, call, reply_outcome. rewrite Hmsg.
  now destruct (bot_api ctx _).
Qed.

Lemma require_admin_denied update ctx msg w :
  is_admin update ctx = false ->
  effective_message update = Some msg ->
  require_admin update ctx w
  = mkRun w [reply_text access_denied]
      (match reply_outcome ctx access_denied with
       | Return _ => Return false
       | Raise e => Raise e
       end).
Proof.
  intros Hadmin Hmsg. unfold require_admin, reply_outcome. rewrite Hadmin, Hmsg.
  unfold mbind, M_bind, call. fold access_denied.
  now destruct (bot_api ctx _).
Qed.

Lemma cell_after_write ctx chat key v w :
  db_available ctx = true ->
  setting_cell (database (final (set_setting ctx chat key v w))) chat key = v.
Proof.
  intros Hdb. unfold set_setting. rewrite transaction_up by exact Hdb.
  unfold setting_cell. cbn -[update_settings insert_or_ignore_settings].
  change (chat_settings (with_chat_settings ?rows _)) with rows.
  rewrite find_after_write, Z.eqb_refl.
  destruct (List.find _ _); rewrite column_set_column;
    (destruct (decide (key = key)); [reflexivity | congruence]).
Qed.

End Commands.

(** X7: someone who is not an administrator and sends an admin-only
    command (warn, resetwarns, antilink, antispam, mute, filter, stop,
    setwelcome, setgoodbye, setrules) gets the access-denied reply and
    nothing else happens: no other call, no change of the tables or of
    the tracker. *)
Theorem admin_commands_deny_members
    (e : Entry) (update : Update) (ctx : Context) (msg : Message) (w : World)
    (He : admin_only e = true)
    (Hadmin : is_admin update ctx = false)
    (Hmsg : effective_message update = Some msg) :
  entry_point e update ctx w
  = mkRun w [reply_text access_denied] (reply_outcome ctx access_denied).
Proof.
  assert (Hk : forall k : bool -> M unit,
             k false = mret tt ->
             (require_admin update ctx ≫= k) w
             = mkRun w [reply_text access_denied] (reply_outcome ctx access_denied)).
  { intros k Hk. unfold mbind, M_bind.
    rewrite (require_admin_denied update ctx msg w Hadmin Hmsg). simpl.
    destruct (reply_outcome ctx access_denied) as [[]|]; [|reflexivity].
    rewrite Hk. reflexivity. }
  destruct e as [[]| | | | | | | | |]; try discriminate; simpl;
    apply Hk; reflexivity.
Qed.

Lemma admin_commands_deny_members_witness :
  entry_point (CLAIMED WARN) (sample_command_by_member "/warn") (sample_ctx 10)
    (sample_world 0 0 2)
  = mkRun (sample_world 0 0 2) [reply_text access_denied] (Return tt).
Proof.
  exact (admin_commands_deny_members (CLAIMED WARN) (sample_command_by_member "/warn")
           (sample_ctx 10)
           {| text := Some "/warn"; sender_chat := None;
              reply_to_message := Some (Some al) |}
           (sample_world 0 0 2) eq_refl eq_refl eq_refl).
Defined.



Section Toggles.

Lemma set_then_reply ctx chat key v update msg txt w :
  db_available ctx = true ->
  effective_message update = Some msg ->
  (set_setting ctx chat key v;; reply update ctx txt) w
  = mkRun (final (set_setting ctx chat key v w)) [reply_text txt] (reply_outcome ctx txt).
Proof.
  intros Hdb Hmsg. unfold set_setting at 1.
  erewrite bind_run by (apply transaction_up; exact Hdb).
  rewrite (reply_run update ctx msg) by exact Hmsg. simpl.
  unfold set_setting. now rewrite transaction_up by exact Hdb.
Qed.

(** The body the two toggle commands share, after the permission check. *)
Lemma toggle_run key label update ctx msg c w :
  effective_chat update = Some c ->
  effective_message update = Some msg ->
  db_available ctx = true ->
  let r := (chat_id ← effective_chat_id update;
            cur ← read_toggle ctx chat_id key;
            let new := if negb (cur =? 0) then 0 else 1 in
            set_setting ctx chat_id key (PInt new);;
            reply update ctx
              (label +:+ (if negb (new =? 0) then "enabled" else "disabled") +:+ ".")) w in
  (setting_off (database w) (chat_id c) key = true ->
   setting_cell (database (final r)) (chat_id c) key = PInt 1
   /\ calls r = [reply_text (label +:+ "enabled" +:+ ".")])
  /\ (setting_on (database w) (chat_id c) key = true ->
      setting_cell (database (final r)) (chat_id c) key = PInt 0
      /\ calls r = [reply_text (label +:+ "disabled" +:+ ".")]).
Proof.
  intros Hchat Hmsg Hdb r. subst r.
  unfold effective_chat_id. rewrite Hchat, bind_ret. split.
  - intros Hoff.
    destruct (read_toggle_off ctx (chat_id c) key w Hdb Hoff) as (w' & Hrun & _).
    erewrite bind_run by exact Hrun. simpl.
    rewrite (set_then_reply ctx (chat_id c) key (PInt 1) update msg) by assumption.
    simpl. split; [now apply cell_after_write | reflexivity].
  - intros Hon.
    destruct (read_toggle_on ctx (chat_id c) key w Hdb Hon) as (n & Hn & Hrun).
    erewrite bind_run by exact Hrun. simpl.
    apply Z.eqb_neq in Hn. rewrite Hn. simpl.
    rewrite (set_then_reply ctx (chat_id c) key (PInt 0) update msg) by assumption.
    simpl. split; [now apply cell_after_write | reflexivity].
Qed.

End Toggles.

(** X9: [/antilink] and [/antispam] sent by an administrator flip their
    setting: an off setting (0, empty or no row yet) becomes 1 and the
    reply says enabled, an on setting becomes 0 and the reply says
    disabled. *)
Theorem toggle_commands_flip
    (e : Entry) (key : setting_key) (label : string)
    (update : Update) (ctx : Context) (msg : Message) (c : Chat) (w : World)
    (He : toggle_of e = Some (key, label))
    (Hadmin : is_admin update ctx = true)
    (Hchat : effective_chat update = Some c)
    (Hmsg : effective_message update = Some msg)
    (Hdb : db_available ctx = true) :
  let r := entry_point e update ctx w in
  (setting_off (database w) (chat_id c) key = true ->
   setting_cell (database (final r)) (chat_id c) key = PInt 1
   /\ calls r = [reply_text (label +:+ "enabled" +:+ ".")])
  /\ (setting_on (database w) (chat_id c) key = true ->
      setting_cell (database (final r)) (chat_id c) key = PInt 0
      /\ calls r = [reply_text (label +:+ "disabled" +:+ ".")]).
Proof.
  destruct e as [[]| | | | | | | | |]; try discriminate; injection He as <- <-; simpl;
    unfold antilink_cmd, antispam_cmd, require_admin; rewrite Hadmin, bind_ret; simpl;
    now apply (toggle_run _ _ update ctx msg c w).
Qed.

Lemma toggle_commands_flip_witness :
  let r := antispam_cmd (sample_command "/antispam") (sample_ctx 1) (sample_world 0 0 0) in
  setting_cell (database (final r)) (-100) antispam = PInt 1
  /\ calls r = [reply_text "🛡️ Anti-spam enabled."].
Proof.
  exact (proj1 (toggle_commands_flip (CLAIMED ANTISPAM) antispam "🛡️ Anti-spam "
                  (sample_command "/antispam") (sample_ctx 1)
                  {| text := Some "/antispam"; sender_chat := None;
                     reply_to_message := Some (Some bob) |}
                  room (sample_world 0 0 0) eq_refl eq_refl eq_refl eq_refl eq_refl)
           eq_refl).
Defined.

(* ===================================================================== *)
(** * The ledger commands *)
(* ===================================================================== *)

Ltac keeps_by R Hrefl Htrans :=
  lazymatch goal with
  | |- keeps _ (mret _) => apply (keeps_ret R Hrefl)
  | |- keeps _ (raise _) => apply (keeps_raise R Hrefl)
  | |- keeps _ (call _ _) => apply (keeps_call R Hrefl)
  | |- keeps _ (call_quietly _ _) => apply (keeps_call_quietly R Hrefl)
  | |- keeps _ (reply _ _ _) => apply (keeps_reply R Hrefl)
  | |- keeps _ (effective_chat_id _) => apply (keeps_effective_chat_id R Hrefl)
  | |- keeps _ (require_admin _ _) => apply (keeps_require_admin R Hrefl Htrans)
  | |- keeps _ (py_int _) => apply (keeps_py_int R Hrefl)
  | |- keeps _ (try_except _ _) => apply (keeps_try_except R Htrans); [|intros ?]
  | |- keeps _ (_ ≫= _) => apply (keeps_bind R Htrans); [|intros ?]
  | |- keeps _ (if _ then _ else _) => case_match
  | |- keeps _ (match _ with _ => _ end) => case_match
  end.

Section LedgerCommands.

Lemma keeps_bind_ret (R : World -> World -> Prop) {A B} (a : A) (k : A -> M B) :
  keeps R (k a) -> keeps R (mret a ≫= k).
Proof. intros H w. rewrite bind_ret. apply H. Qed.

Lemma keeps_bind_raise (R : World -> World -> Prop) {A B} (e : exn) (k : A -> M B) :
  (forall w, R w w) -> keeps R (raise e ≫= k).
Proof. intros Hrefl w. apply Hrefl. Qed.

Lemma same_count_refl c u w : same_count c u w w.
Proof. reflexivity. Qed.

Lemma same_count_trans c u w1 w2 w3 :
  same_count c u w1 w2 -> same_count c u w2 w3 -> same_count c u w1 w3.
Proof. unfold same_count. congruence. Qed.

Lemma get_warns_same c u ctx c' u' : keeps (same_count c u) (get_warns ctx c' u').
Proof.
  unfold get_warns. apply keeps_transaction; [apply same_count_refl|]. now intros w.
Qed.

Lemma set_warns_same c u ctx c' u' n :
  (c, u) <> (c', u') -> keeps (same_count c u) (set_warns ctx c' u' n).
Proof.
  intros Hne. unfold set_warns. apply keeps_transaction; [apply same_count_refl|].
  intros w. unfold same_count. simpl. rewrite warn_count_upsert.
  destruct ((c' =? c) && (u' =? u)) eqn:E; [|reflexivity].
  apply andb_prop in E as [->%Z.eqb_eq ->%Z.eqb_eq]. congruence.
Qed.

Lemma find_filter_other {A} (p q : A -> bool) (l : list A) :
  (forall a, p a = true -> q a = true) ->
  List.find p (List.filter q l) = List.find p l.
Proof.
  intros Hpq. induction l as [|a l IH]; [reflexivity|]. simpl.
  destruct (q a) eqn:Eq; simpl.
  - now rewrite IH.
  - destruct (p a) eqn:Ep; [|exact IH]. apply Hpq in Ep. congruence.
Qed.

Lemma reset_warns_same c u ctx c' u' :
  (c, u) <> (c', u') -> keeps (same_count c u) (reset_warns ctx c' u').
Proof.
  intros Hne. unfold reset_warns. apply keeps_transaction; [apply same_count_refl|].
  intros w. unfold same_count, warn_count. simpl.
  rewrite find_filter_other; [reflexivity|].
  intros r Hr. apply negb_true_iff. apply not_true_is_false. intros Hr'.
  apply warn_row_is_key in Hr, Hr'. congruence.
Qed.

(** The ledger commands keep the count of every key that is not their
    target's. *)
Lemma ledger_commands_same_count c u update ctx :
  (forall ch t, effective_chat update = Some ch ->
                get_target_user_id update ctx = Some t -> (c, u) <> (chat_id ch, t)) ->
  keeps (same_count c u) (warn_cmd update ctx)
  /\ keeps (same_count c u) (resetwarns_cmd update ctx).
Proof.
  intros Hne. unfold warn_cmd, resetwarns_cmd.
  destruct (get_target_user_id update ctx) as [t|] eqn:Ht.
  2:{ split; repeat keeps_by (same_count c u) (same_count_refl c u) (same_count_trans c u). }
  unfold effective_chat_id.
  destruct (effective_chat update) as [ch|] eqn:Hch.
  - specialize (Hne ch t eq_refl eq_refl).
    split;
      repeat first [ lazymatch goal with |- keeps _ (mret _ ≫= _) => apply keeps_bind_ret end
                   | apply get_warns_same
                   | apply set_warns_same; exact Hne
                   | apply reset_warns_same; exact Hne
                   | keeps_by (same_count c u) (same_count_refl c u) (same_count_trans c u) ].
  - split;
      repeat first [ lazymatch goal with
                     | |- keeps _ (raise _ ≫= _) =>
                         apply keeps_bind_raise; apply same_count_refl
                     end
                   | keeps_by (same_count c u) (same_count_refl c u) (same_count_trans c u) ].
Qed.

End LedgerCommands.

(** X10: a warn or a reset changes the count of its target only: the
    count of every other (chat, user) pair reads as before. *)
Theorem ledger_change_is_local
    (update : Update) (ctx : Context) (w : World) (c u : Z)
    (Hother : forall ch t, effective_chat update = Some ch ->
                           get_target_user_id update ctx = Some t ->
                           (c, u) <> (chat_id ch, t)) :
  warn_count (database (final (warn_cmd update ctx w))) c u = warn_count (database w) c u
  /\ warn_count (database (final (resetwarns_cmd update ctx w))) c u
     = warn_count (database w) c u.
Proof.
  destruct (ledger_commands_same_count c u update ctx Hother) as [Hw Hr].
  split; [apply Hw | apply Hr].
Qed.

Lemma ledger_change_is_local_witness :
  warn_count (database (final (warn_cmd (sample_command "/warn") (sample_ctx 1)
                                 (sample_world 0 0 2)))) (-100) 7 = 0
  /\ warn_count (database (final (warn_cmd (sample_command "/warn") (sample_ctx 1)
                                    (sample_world 0 0 2)))) (-100) 42 = 3.
Proof.
  split; [|reflexivity].
  refine (proj1 (ledger_change_is_local (sample_command "/warn") (sample_ctx 1)
                   (sample_world 0 0 2) (-100) 7 _)).
  intros ch t [= <-] [= <-]. discriminate.
Defined.

(** X11: when the platform refuses the automatic mute, the warning
    stands: the count is stored incremented, the administrator is told
    the reason, and the command ends normally if that report goes out. *)
Theorem warn_stands_when_mute_fails
    (update : Update) (ctx : Context) (w : World) (chat : Chat) (msg : Message)
    (target : Z) (reason : string)
    (Hadmin : is_admin update ctx = true)
    (Hchat : effective_chat update = Some chat)
    (Hmsg : effective_message update = Some msg)
    (Htarget : get_target_user_id update ctx = Some target)
    (Hdb : db_available ctx = true)
    (Hthree : 3 <= warn_count (database w) (chat_id chat) target + 1)
    (Hfail : bot_api ctx (restrict_chat_member (chat_id chat) target false
                            (Some (int_of_float (time_time ctx) + 86400)))
             = Some reason) :
  let count := warn_count (database w) (chat_id chat) target + 1 in
  let r := warn_cmd update ctx w in
  warn_count (database (final r)) (chat_id chat) target = count
  /\ calls r = [restrict_chat_member (chat_id chat) target false
                  (Some (int_of_float (time_time ctx) + 86400));
                reply_text (warn_mute_failed_text count (TelegramError reason))]
  /\ result r = reply_outcome ctx (warn_mute_failed_text count (TelegramError reason)).
Proof.
  intros count r. subst r.
  pose proof (get_target_truthy _ _ _ Htarget) as Ht.
  unfold warn_cmd, require_admin. rewrite Hadmin, bind_ret. simpl.
  rewrite Htarget, Ht. simpl.
  unfold effective_chat_id. rewrite Hchat, bind_ret.
  erewrite bind_run by (apply get_warns_run; exact Hdb).
  erewrite bind_run by (apply set_warns_run; exact Hdb).
  fold count. apply Z.leb_le in Hthree. fold count in Hthree. rewrite Hthree.
  unfold try_except, mbind, M_bind, call. rewrite Hfail. simpl.
  rewrite (reply_run update ctx msg) by exact Hmsg. simpl.
  rewrite warn_count_upsert, !Z.eqb_refl. simpl. auto.
Qed.

Lemma warn_stands_when_mute_fails_witness :
  let r := warn_cmd (sample_command "/warn") (sample_ctx_no_restrict 1000)
             (sample_world 0 0 2) in
  warn_count (database (final r)) (-100) 42 = 2 + 1
  /\ result r = Return tt.
Proof.
  pose proof (warn_stands_when_mute_fails (sample_command "/warn")
                (sample_ctx_no_restrict 1000) (sample_world 0 0 2) room
                {| text := Some "/warn"; sender_chat := None;
                   reply_to_message := Some (Some bob) |} 42 "Not enough rights"
                eq_refl eq_refl eq_refl eq_refl eq_refl ltac:(vm_compute; discriminate)
                eq_refl) as H.
  split; [exact (proj1 H) | exact (proj2 (proj2 H))].
Defined.



(* ===================================================================== *)
(** * Numbers in text: [str], [isdigit] and [int] *)
(* ===================================================================== *)

Module PyNumFacts.
Import PyStr.

Lemma all_digits_uint (d : Decimal.uint) : all_digits (NilEmpty.string_of_uint d) = true.
Proof. induction d; simpl; auto. Qed.

Lemma int_digits_uint (d : Decimal.uint) (acc : Z) :
  int_digits acc (NilEmpty.string_of_uint d) = uint_value acc d.
Proof. revert acc. induction d; intros acc; simpl; [reflexivity | apply IHd ..]. Qed.

Lemma uint_value_acc (d : Decimal.uint) (acc : positive) :
  uint_value (Z.pos acc) d = Z.pos (Pos.of_uint_acc d acc).
Proof.
  revert acc. induction d; intros acc; simpl; [reflexivity | ..];
    rewrite <- IHd; f_equal; lia.
Qed.

Lemma uint_value_of_uint (d : Decimal.uint) : uint_value 0 d = Z.of_N (Pos.of_uint d).
Proof.
  induction d; simpl; [reflexivity | exact IHd | ..];
    match goal with
    | |- uint_value ?a _ = _ => change a with (Z.pos (Z.to_pos a))
    end; rewrite uint_value_acc; reflexivity.
Qed.

Lemma not_space_digit c : is_digit c = true -> is_space c = false.
Proof. destruct c as [[] [] [] [] [] [] [] []]; vm_compute; congruence. Qed.

Lemma lower_digit c : is_digit c = true -> lower_char c = c.
Proof. destruct c as [[] [] [] [] [] [] [] []]; vm_compute; congruence. Qed.

Lemma rstrip_digits s : all_digits s = true -> rstrip s = s.
Proof.
  induction s as [|c s IH]; [reflexivity|]. simpl.
  intros [Hc Hs]%andb_prop. rewrite (IH Hs), (not_space_digit c Hc).
  now destruct s.
Qed.

(** Stripping leaves a string of digits as it is. *)
Lemma strip_digits s : all_digits s = true -> strip s = s.
Proof.
  intros H. unfold strip.
  replace (lstrip s) with s; [now apply rstrip_digits|].
  destruct s as [|c s]; [reflexivity|]. simpl in *.
  apply andb_prop in H as [Hc _]. now rewrite (not_space_digit c Hc).
Qed.

Lemma lower_digits s : all_digits s = true -> lower s = s.
Proof.
  induction s as [|c s IH]; [reflexivity|]. simpl.
  intros [Hc Hs]%andb_prop. now rewrite (IH Hs), (lower_digit c Hc).
Qed.

(** [str(n)] of a natural number is a non-empty string of digits that
    [int] reads back as [n]. *)
Lemma str_of_int_digits (n : Z) :
  0 <= n ->
  all_digits (str_of_int n) = true
  /\ str_of_int n <> EmptyString
  /\ int_of_digits (str_of_int n) = n.
Proof.
  intros Hn. unfold str_of_int, int_of_digits.
  destruct n as [|p|p]; [repeat split; discriminate | | lia].
  simpl. unfold NilZero.string_of_uint.
  pose proof (Unsigned.to_uint_nonnil p) as Hnil.
  pose proof (Unsigned.of_to p) as Hof.
  pose proof (all_digits_uint (Pos.to_uint p)) as Hall.
  pose proof (int_digits_uint (Pos.to_uint p) 0) as Hint.
  rewrite uint_value_of_uint, Hof in Hint.
  destruct (Pos.to_uint p); [congruence | ..];
    (split; [exact Hall | split; [discriminate | exact Hint]]).
Qed.

Lemma isdigit_str_of_int (n : Z) : 0 <= n -> isdigit (str_of_int n) = true.
Proof.
  intros Hn. destruct (str_of_int_digits n Hn) as (Hall & Hne & _).
  unfold isdigit. destruct (str_of_int n); [congruence | exact Hall].
Qed.

End PyNumFacts.

(* ===================================================================== *)
(** * Who is addressed and who may command *)
(* ===================================================================== *)

(** X13: a numeric user id given as the first argument is read back as
    the target when the command replies to no user; the id 0 is never a
    target. *)
Theorem target_from_numeric_argument
    (update : Update) (ctx : Context) (n : Z) (rest : list string)
    (Hn : 0 <= n)
    (Hreply : truthy_id (parse_target_from_reply update) = false)
    (Hargs : args ctx = PyStr.str_of_int n :: rest) :
  get_target_user_id update ctx = (if n =? 0 then None else Some n).
Proof.
  unfold get_target_user_id. rewrite Hreply.
  unfold parse_target_from_args. rewrite Hargs.
  destruct (PyNumFacts.str_of_int_digits n Hn) as (Hall & _ & Hint).
  rewrite (PyNumFacts.strip_digits _ Hall), (PyNumFacts.isdigit_str_of_int n Hn), Hint.
  simpl. now destruct (n =? 0).
Qed.

Lemma target_from_numeric_argument_witness :
  get_target_user_id (sample_command_no_reply "/warn 42")
    (sample_ctx_args 7 [PyStr.str_of_int 42]) = Some 42.
Proof.
  exact (target_from_numeric_argument (sample_command_no_reply "/warn 42")
           (sample_ctx_args 7 [PyStr.str_of_int 42]) 42 [] ltac:(lia) eq_refl eq_refl).
Defined.

(** X14: the configured owner passes the admin check in every group,
    whatever the member lookup answers, provided the message is not sent
    on behalf of another chat. *)
Theorem owner_passes_admin_check
    (update : Update) (ctx : Context) (c : Chat) (u : User)
    (Howner : OWNER_ID ctx = PyStr.str_of_int (user_id u))
    (Hid : 0 < user_id u)
    (Hchat : effective_chat update = Some c)
    (Hgroup : is_group c = true)
    (Huser : effective_user update = Some u) :
  is_admin update ctx = true.
Proof.
  assert (Hoid : owner_id ctx = Some (user_id u)).
  { assert (Hpos : 0 <= user_id u) by lia.
    unfold owner_id. rewrite Howner.
    destruct (PyNumFacts.str_of_int_digits (user_id u) Hpos) as (Hall & _ & Hint).
    now rewrite (PyNumFacts.strip_digits _ Hall),
      (PyNumFacts.isdigit_str_of_int _ Hpos), Hint. }
  assert (Huser_ok : is_admin_user ctx c (Some u) = true).
  { unfold is_admin_user. rewrite Hoid, Z.eqb_refl.
    replace (user_id u =? 0) with false by (symmetry; apply Z.eqb_neq; lia).
    reflexivity. }
  unfold is_admin. rewrite Hchat, Hgroup, Huser. simpl.
  destruct (effective_message update ≫= sender_chat) as [sc|]; [|exact Huser_ok].
  destruct (sc =? chat_id c); [reflexivity|].
  destruct (match get_chat_member ctx (chat_id c) sc with
            | Some st => is_admin_status st
            | None => false
            end); [reflexivity | exact Huser_ok].
Qed.

Lemma owner_passes_admin_check_witness :
  is_admin (sample_command "/warn") (sample_ctx_owner "7" []) = true.
Proof.
  exact (owner_passes_admin_check (sample_command "/warn") (sample_ctx_owner "7" [])
           room al eq_refl ltac:(reflexivity) eq_refl eq_refl eq_refl).
Defined.

(** X15: the admin check fails closed: when the member lookup fails for
    everybody and no owner is configured, only a message sent as the
    group itself passes. *)
Theorem admin_check_fails_closed
    (update : Update) (ctx : Context)
    (Hlookup : forall c u, get_chat_member ctx c u = None)
    (Howner : owner_id ctx = None) :
  is_admin update ctx
  = match effective_chat update with
    | Some c =>
        is_group c
        && match effective_message update ≫= sender_chat with
           | Some sc => sc =? chat_id c
           | None => false
           end
    | None => false
    end.
Proof.
  unfold is_admin, is_admin_user.
  destruct (effective_chat update) as [c|]; [|reflexivity].
  destruct (is_group c); [|reflexivity]. simpl.
  rewrite Howner.
  destruct (effective_message update ≫= sender_chat) as [sc|].
  - rewrite !Hlookup. destruct (sc =? chat_id c); [reflexivity|].
    destruct (effective_user update); [now rewrite Hlookup | reflexivity].
  - destruct (effective_user update); [now rewrite Hlookup | reflexivity].
Qed.

Lemma admin_check_fails_closed_witness :
  is_admin (sample_command "/warn") (sample_ctx_owner "" []) = false
  /\ is_admin (sample_senderless (-100) "/warn") (sample_ctx_owner "" []) = true.
Proof.
  split.
  - exact (admin_check_fails_closed (sample_command "/warn") (sample_ctx_owner "" [])
             (fun _ _ => eq_refl) eq_refl).
  - exact (admin_check_fails_closed (sample_senderless (-100) "/warn")
             (sample_ctx_owner "" []) (fun _ _ => eq_refl) eq_refl).
Defined.

(* ===================================================================== *)
(** * The table of filters: removing, listing, matching *)
(* ===================================================================== *)

Section FilterStore.
Import PyStr.

Lemma with_filters_same d : with_filters (filters d) d = d.
Proof. now destruct d. Qed.

Lemma remove_filter_run ctx chat key w :
  db_available ctx = true ->
  remove_filter ctx chat key w
  = mkRun (set_database
             (with_filters
                (List.filter (fun r => negb (filter_row_is chat (lower (strip key)) r))
                   (filters (database w)))
                (database w)) w) []
      (Return (existsb (filter_row_is chat (lower (strip key))) (filters (database w)))).
Proof. intros Hdb. unfold remove_filter. now rewrite transaction_up by exact Hdb. Qed.

Lemma filter_all {A} (p : A -> bool) (l : list A) :
  existsb (fun a => negb (p a)) l = false -> List.filter p l = l.
Proof.
  induction l as [|a l IH]; [reflexivity|]. simpl.
  intros [Ha Hl]%orb_false_elim. apply negb_false_iff in Ha. rewrite Ha.
  f_equal. now apply IH.
Qed.

Lemma existsb_negb_negb {A} (p : A -> bool) (l : list A) :
  existsb (fun a => negb (negb (p a))) l = existsb p l.
Proof. induction l as [|a l IH]; simpl; [reflexivity|]. now rewrite negb_involutive, IH. Qed.

(** A fresh key is appended, so dropping it gives the old table back. *)
Lemma remove_upserted chat key reply rows :
  existsb (filter_row_is chat key) rows = false ->
  List.filter (fun r => negb (filter_row_is chat key r)) (upsert_filter chat key reply rows)
  = rows
  /\ existsb (filter_row_is chat key) (upsert_filter chat key reply rows) = true.
Proof.
  induction rows as [|r rows IH]; simpl.
  - intros _. now rewrite filter_row_is_new.
  - intros [Hr Hrows]%orb_false_elim. rewrite Hr. simpl. rewrite Hr. simpl.
    destruct (IH Hrows) as [-> ->]. auto.
Qed.

Lemma existsb_filter_out {A} (p : A -> bool) (l : list A) :
  existsb p (List.filter (fun a => negb (p a)) l) = false.
Proof.
  induction l as [|a l IH]; [reflexivity|]. simpl.
  destruct (p a) eqn:E; simpl; [exact IH | now rewrite E, IH].
Qed.

Lemma filter_filter_same {A} (p : A -> bool) (l : list A) :
  List.filter p (List.filter p l) = List.filter p l.
Proof.
  induction l as [|a l IH]; [reflexivity|]. simpl.
  destruct (p a) eqn:E; simpl; [now rewrite E, IH | exact IH].
Qed.

End FilterStore.

(** X16: a filter saved under a key the chat did not have and removed
    again, under any spelling of the key that differs in case or in
    surrounding blanks only, leaves the state as it was; the removal
    reports that the key existed. *)
Theorem filter_added_then_removed
    (ctx : Context) (w : World) (chat : Z) (key key' reply : string)
    (Hdb : db_available ctx = true)
    (Hsame : PyStr.lower (PyStr.strip key') = PyStr.lower (PyStr.strip key))
    (Hfresh : existsb (filter_row_is chat (PyStr.lower (PyStr.strip key)))
                (filters (database w)) = false) :
  (add_filter ctx chat key reply ;; remove_filter ctx chat key') w
  = mkRun w [] (Return true).
Proof.
  erewrite bind_run by (apply add_filter_run; exact Hdb).
  rewrite remove_filter_run by exact Hdb. rewrite Hsame. simpl.
  destruct (remove_upserted chat (PyStr.lower (PyStr.strip key)) reply
              (filters (database w)) Hfresh) as [-> ->].
  unfold set_database, with_filters. simpl. now destruct w as [[] ?].
Qed.

Lemma filter_added_then_removed_witness :
  (add_filter (sample_ctx 0) (-100) " Hello " "Hi!" ;;
   remove_filter (sample_ctx 0) (-100) "HELLO") sample_filters
  = mkRun sample_filters [] (Return true).
Proof.
  exact (filter_added_then_removed (sample_ctx 0) sample_filters (-100)
           " Hello " "HELLO" "Hi!" eq_refl eq_refl eq_refl).
Defined.

(** X17: removing a key reports whether the chat had it, deletes the rows
    of that key and no other, and a second removal finds nothing and
    changes nothing. *)
Theorem remove_filter_deletes_key
    (ctx : Context) (w : World) (chat : Z) (key : string)
    (Hdb : db_available ctx = true) :
  let k := PyStr.lower (PyStr.strip key) in
  let r := remove_filter ctx chat key w in
  (result r = Return true <-> In (chat, k) (map filter_key (filters (database w))))
  /\ (forall row, In row (filters (database (final r)))
                  <-> In row (filters (database w)) /\ filter_key row <> (chat, k))
  /\ remove_filter ctx chat key (final r) = mkRun (final r) [] (Return false).
Proof.
  intros k r. subst r. rewrite remove_filter_run by exact Hdb. fold k. simpl.
  split; [|split].
  - split.
    + intros [= Hex]. apply existsb_exists in Hex as (row & Hin & Hrow).
      apply filter_row_is_key in Hrow. apply in_map_iff. eauto.
    + intros (row & Hrow & Hin)%in_map_iff. f_equal. apply existsb_exists.
      exists row. split; [exact Hin | now apply filter_row_is_key].
  - intros row. rewrite List.filter_In, negb_true_iff.
    rewrite <- (filter_row_is_key chat k row).
    destruct (filter_row_is chat k row); intuition congruence.
  - rewrite remove_filter_run by exact Hdb. fold k. simpl.
    rewrite filter_filter_same, existsb_filter_out. reflexivity.
Qed.

Lemma remove_filter_deletes_key_witness :
  let r := remove_filter (sample_ctx 0) (-100) " FOO " sample_filters in
  result r = Return true
  /\ filters (database (final r))
     = [{| f_chat_id := -100; f_key := "foo-bar"; f_reply := "B" |}]
  /\ remove_filter (sample_ctx 0) (-100) " FOO " (final r) = mkRun (final r) [] (Return false).
Proof.
  pose proof (remove_filter_deletes_key (sample_ctx 0) sample_filters (-100) " FOO "
                eq_refl) as H.
  split; [reflexivity | split; [reflexivity | exact (proj2 (proj2 H))]].
Defined.

Section FilterListing.

Lemma insert_key_perm k ks : Permutation (insert_key k ks) (k :: ks).
Proof.
  induction ks as [|x ks IH]; simpl; [reflexivity|].
  destruct (String.leb k x); [reflexivity|].
  rewrite IH. apply perm_swap.
Qed.

Lemma order_by_key_perm ks : Permutation (order_by_key ks) ks.
Proof.
  induction ks as [|k ks IH]; simpl; [reflexivity|].
  rewrite insert_key_perm. now constructor.
Qed.

Lemma leb_flip a b : String.leb a b = false -> key_order b a.
Proof.
  intros H. destruct (String.leb_total a b) as [H'|H']; [congruence | exact H'].
Qed.

Lemma insert_key_sorted k ks : Sorted key_order ks -> Sorted key_order (insert_key k ks).
Proof.
  induction ks as [|x ks IH]; intros Hs; simpl.
  - repeat constructor.
  - destruct (String.leb k x) eqn:E.
    + constructor; [exact Hs | now constructor].
    + apply Sorted_inv in Hs as [Hs Hhd]. constructor; [now apply IH|].
      destruct ks as [|y ks]; simpl.
      * constructor. now apply leb_flip.
      * destruct (String.leb k y); constructor;
          [now apply leb_flip | now inversion Hhd].
Qed.

Lemma order_by_key_sorted ks : Sorted key_order (order_by_key ks).
Proof.
  induction ks as [|k ks IH]; simpl; [constructor | now apply insert_key_sorted].
Qed.

End FilterListing.

(** X18: the listing of a chat reads without changing anything, and gives
    the keys of that chat's rows, each once per row, in ascending order. *)
Theorem list_filters_sorted_keys
    (ctx : Context) (w : World) (chat : Z)
    (Hdb : db_available ctx = true) :
  exists ks,
    list_filters ctx chat w = mkRun w [] (Return ks)
    /\ Sorted key_order ks
    /\ Permutation ks (map f_key (select_filters chat (filters (database w)))).
Proof.
  eexists. split; [|split].
  - unfold list_filters. rewrite transaction_up by exact Hdb. simpl.
    now rewrite set_database_same.
  - apply order_by_key_sorted.
  - apply order_by_key_perm.
Qed.

Lemma list_filters_sorted_keys_witness :
  exists ks,
    list_filters (sample_ctx 0) (-100)
      (final (add_filter (sample_ctx 0) (-100) "bar" "C" sample_filters))
    = mkRun (final (add_filter (sample_ctx 0) (-100) "bar" "C" sample_filters)) []
        (Return ks)
    /\ Sorted key_order ks
    /\ Permutation ks ["foo"; "foo-bar"; "bar"].
Proof.
  exact (list_filters_sorted_keys (sample_ctx 0)
           (final (add_filter (sample_ctx 0) (-100) "bar" "C" sample_filters)) (-100)
           eq_refl).
Defined.

Section FilterMatching.
Import PyStr.

Lemma lower_char_twice c : lower_char (lower_char c) = lower_char c.
Proof. destruct c as [[] [] [] [] [] [] [] []]; reflexivity. Qed.

Lemma lower_twice s : lower (lower s) = lower s.
Proof. induction s as [|c s IH]; simpl; [reflexivity|]. now rewrite lower_char_twice, IH. Qed.

Lemma lower_empty s : lower s = EmptyString <-> s = EmptyString.
Proof. destruct s; simpl; split; congruence. Qed.

End FilterMatching.



(* ===================================================================== *)
(** * What [/filter] stores *)
(* ===================================================================== *)

Section WellKept.
Import PyStr.

Lemma transaction_well_kept {A} ctx (body : Database -> Database * A) :
  (forall d, forallb well_kept (filters d) = true ->
             forallb well_kept (filters (fst (body d))) = true) ->
  keeps well_kept_stays (transaction ctx body).
Proof.
  intros H. apply keeps_transaction; [now intros w Hw|].
  intros w Hw. unfold filters_well_kept. simpl. now apply H.
Qed.

Lemma no_space_lower s : no_space (lower s) = no_space s.
Proof.
  induction s as [|c s IH]; [reflexivity|]. simpl. now rewrite is_space_lower, IH.
Qed.

Lemma forallb_upsert_filter p chat key reply rows :
  p {| f_chat_id := chat; f_key := key; f_reply := reply |} = true ->
  forallb p rows = true ->
  forallb p (upsert_filter chat key reply rows) = true.
Proof.
  intros Hnew. induction rows as [|r rows IH]; simpl.
  - intros _. now rewrite Hnew.
  - intros [Hr Hrows]%andb_prop. destruct (filter_row_is chat key r); simpl.
    + now rewrite Hnew, Hrows.
    + now rewrite Hr, IH.
Qed.

Lemma forallb_filter {A} (p q : A -> bool) (l : list A) :
  forallb p l = true -> forallb p (List.filter q l) = true.
Proof.
  induction l as [|a l IH]; [reflexivity|]. simpl.
  intros [Ha Hl]%andb_prop. destruct (q a); simpl; [now rewrite Ha, IH | now apply IH].
Qed.

(** The row [add_filter] writes for a key that is a non-empty word and a
    non-empty reply. *)
Lemma add_filter_row_well_kept chat k r :
  k <> EmptyString -> no_space k = true -> r <> EmptyString ->
  well_kept {| f_chat_id := chat; f_key := lower (strip k); f_reply := r |} = true.
Proof.
  intros Hk Hns Hr. unfold well_kept. simpl.
  rewrite (PySplitFacts.strip_no_space k Hns), no_space_lower, Hns, lower_twice,
    String.eqb_refl.
  apply String.eqb_neq in Hr. rewrite Hr.
  assert (Hl : lower k <> EmptyString).
  { intros H. apply Hk. now apply (proj1 (lower_empty k)). }
  apply String.eqb_neq in Hl. now rewrite Hl.
Qed.

End WellKept.

(** X20: the rows of the filters table stay as [/filter] stores them,
    whatever is handled: every key is a non-empty lower-case word and
    every reply is non-empty. *)
Theorem filters_stay_well_kept (incoming : list Incoming) (w : World)
    (Hw : filters_well_kept w) :
  filters_well_kept (handle_all incoming w).
Proof.
  revert Hw. change (well_kept_stays w (handle_all incoming w)).
  apply handle_all_keeps.
  - now intros w0 H.
  - intros w1 w2 w3 H12 H23 H. auto.
  - intros ctx c key dflt. apply transaction_well_kept.
    intros d Hd. now destruct (List.find _ _).
  - intros ctx c key v. now apply transaction_well_kept.
  - intros ctx c u. now apply transaction_well_kept.
  - intros ctx c u n. now apply transaction_well_kept.
  - intros ctx c u. now apply transaction_well_kept.
  - intros ctx c k r Hk Hns Hr. apply transaction_well_kept.
    intros d Hd. simpl. apply forallb_upsert_filter; [|exact Hd].
    now apply add_filter_row_well_kept.
  - intros ctx c k. apply transaction_well_kept.
    intros d Hd. simpl. now apply forallb_filter.
  - intros ctx c t. unfold match_filter.
    destruct (String.eqb t EmptyString); [now intros w0 H|].
    apply keeps_bind.
    + intros w1 w2 w3 H12 H23 H. auto.
    + now apply transaction_well_kept.
    + intros rows w0 H. exact H.
  - intros ctx c. now apply transaction_well_kept.
  - intros update c now _ w0 H. exact H.
Qed.

Lemma filters_stay_well_kept_witness :
  filters_well_kept (handle_all sample_filter_session empty_world)
  /\ filters (database (handle_all sample_filter_session empty_world))
     = [{| f_chat_id := -100; f_key := "hello"; f_reply := "Hi  there!" |};
        {| f_chat_id := -100; f_key := "price"; f_reply := "ask an admin" |}].
Proof.
  split; [|reflexivity].
  apply (filters_stay_well_kept sample_filter_session empty_world). reflexivity.
Defined.

(* ===================================================================== *)
(** * Stored texts and greetings *)
(* ===================================================================== *)

Section Greetings.



(** The common body of the three text commands, past the permission
    check, on a text with a body. *)
Lemma set_text_setting_run key usage saved update ctx c msg txt p0 body l w :
  is_admin update ctx = true ->
  effective_chat update = Some c ->
  effective_message update = Some msg ->
  text msg = Some txt ->
  PySplit.split 1 txt = p0 :: body :: l ->
  db_available ctx = true ->
  set_text_setting key usage saved update ctx w
  = mkRun (final (set_setting ctx (chat_id c) key (PStr (PyStr.strip body)) w))
      [reply_text saved] (reply_outcome ctx saved).
Proof.
  intros Hadmin Hchat Hmsg Htxt Hsplit Hdb.
  unfold set_text_setting, require_admin. rewrite Hadmin, bind_ret. cbn [negb].
  unfold effective_chat_id. rewrite Hchat, bind_ret.
  unfold message_text. rewrite Hmsg, bind_ret, Htxt.
  change (default EmptyString (Some txt)) with txt. rewrite Hsplit.
  now apply (set_then_reply ctx (chat_id c) key _ update msg).
Qed.

Lemma text_setting_entry e key saved :
  text_setting_of e = Some (key, saved) ->
  exists usage, entry_point e = set_text_setting key usage saved.
Proof.
  destruct e as [h| | | | | | | | |]; try discriminate;
    intros [= <- <-]; eexists; reflexivity.
Qed.

End Greetings.



(** X22: the body of [/setwelcome], [/setgoodbye] or [/setrules], taken
    after the command word and stripped, is never empty and is what the
    column of the chat holds afterwards; the command confirms it. *)
Theorem text_command_stores_body
    (e : Entry) (key : setting_key) (saved : string)
    (update : Update) (ctx : Context) (c : Chat) (msg : Message)
    (txt p0 body : string) (l : list string) (w : World)
    (He : text_setting_of e = Some (key, saved))
    (Hadmin : is_admin update ctx = true)
    (Hchat : effective_chat update = Some c)
    (Hmsg : effective_message update = Some msg)
    (Htxt : text msg = Some txt)
    (Hsplit : PySplit.split 1 txt = p0 :: body :: l)
    (Hdb : db_available ctx = true) :
  let r := entry_point e update ctx w in
  setting_cell (database (final r)) (chat_id c) key = PStr (PyStr.strip body)
  /\ PyStr.strip body <> EmptyString
  /\ calls r = [reply_text saved].
Proof.
  intros r. subst r.
  destruct (text_setting_entry e key saved He) as [usage ->].
  rewrite (set_text_setting_run key usage saved update ctx c msg txt p0 body l)
    by assumption.
  simpl. split; [now apply cell_after_write|].
  split; [exact (PySplitFacts.split_body txt p0 body l Hsplit) | reflexivity].
Qed.

Lemma text_command_stores_body_witness :
  setting_cell
    (database (final (setrules_cmd (sample_command "/setrules   Be kind.  ") (sample_ctx 1)
                        empty_world))) (-100) rules
  = PStr "Be kind.".
Proof.
  exact (proj1 (text_command_stores_body SETRULES rules "📜 Group rules updated."
                  (sample_command "/setrules   Be kind.  ") (sample_ctx 1) room
                  {| text := Some "/setrules   Be kind.  "; sender_chat := None;
                     reply_to_message := Some (Some bob) |}
                  "/setrules   Be kind.  " "/setrules" "Be kind.  " [] empty_world
                  eq_refl eq_refl eq_refl eq_refl eq_refl eq_refl eq_refl)).
Defined.



(* ===================================================================== *)
(** * Administrators and the message handler *)
(* ===================================================================== *)

Section AdminBypass.

Lemma replies_only_ret {A} (a : A) : replies_only (mret a).
Proof. intros w. split; reflexivity. Qed.

Lemma replies_only_raise {A} (e : exn) : replies_only (@raise A e).
Proof. intros w. split; reflexivity. Qed.

Lemma replies_only_bind {A B} (m : M A) (k : A -> M B) :
  replies_only m -> (forall a, replies_only (k a)) -> replies_only (m ≫= k).
Proof.
  intros Hm Hk w. destruct (Hm w) as [Ht Hc].
  unfold mbind, M_bind. destruct (result (m w)) as [a|e]; simpl.
  - destruct (Hk a (final (m w))) as [Ht' Hc'].
    split; [congruence|]. unfold only_replies in *. rewrite forallb_app.
    now rewrite Hc, Hc'.
  - auto.
Qed.

Lemma replies_only_transaction {A} ctx (body : Database -> Database * A) :
  replies_only (transaction ctx body).
Proof.
  intros w. unfold transaction.
  destruct (db_available ctx); [|split; reflexivity].
  destruct (body (database w)). split; reflexivity.
Qed.

Lemma replies_only_reply_text ctx txt : replies_only (call ctx (reply_text txt)).
Proof. intros w. unfold call. destruct (bot_api ctx _); split; reflexivity. Qed.

Lemma replies_only_py_int v : replies_only (py_int v).
Proof.
  destruct v as [|n|s]; simpl;
    [apply replies_only_raise | apply replies_only_ret |].
  destruct (PyStr.isdigit _); [apply replies_only_ret | apply replies_only_raise].
Qed.

Lemma replies_only_read_toggle ctx chat key : replies_only (read_toggle ctx chat key).
Proof.
  unfold read_toggle. apply replies_only_bind.
  - apply replies_only_transaction.
  - intros v. apply replies_only_py_int.
Qed.

Lemma replies_only_filter_reply update ctx chat txt :
  replies_only (filter_reply update ctx chat txt).
Proof.
  unfold filter_reply, match_filter. apply replies_only_bind.
  - destruct (String.eqb txt EmptyString); [apply replies_only_ret|].
    apply replies_only_bind; [apply replies_only_transaction|].
    intros rows. apply replies_only_ret.
  - intros [r|]; [|apply replies_only_ret].
    destruct (String.eqb r EmptyString);
      [apply replies_only_ret | apply replies_only_reply_text].
Qed.

(** The message handler on a sender who passes the admin check. *)
Lemma moderate_messages_of_admin update ctx :
  sender_is_admin update ctx = true -> replies_only (moderate_messages update ctx).
Proof.
  intros Hadmin. unfold moderate_messages.
  destruct (effective_chat update) as [c|]; [|apply replies_only_ret].
  destruct (negb (is_group c)); [apply replies_only_ret|].
  destruct (effective_message update) as [msg|]; [|apply replies_only_ret].
  destruct (text msg) as [txt|]; [|apply replies_only_ret].
  destruct (String.eqb txt EmptyString); [apply replies_only_ret|].
  apply replies_only_bind; [apply replies_only_filter_reply|]. intros _.
  apply replies_only_bind.
  - unfold anti_link. apply replies_only_bind; [apply replies_only_read_toggle|].
    intros n. destruct (negb (n =? 0)); [|apply replies_only_ret].
    destruct (Re.LINK_RE_search _); [|apply replies_only_ret].
    rewrite Hadmin. apply replies_only_ret.
  - intros [|]; [apply replies_only_ret|].
    unfold anti_spam. apply replies_only_bind; [apply replies_only_read_toggle|].
    intros n. destruct (negb (n =? 0)); [|apply replies_only_ret].
    rewrite Hadmin. apply replies_only_ret.
Qed.

End AdminBypass.

(** X24: a message of a sender who passes the admin check is never
    moderated: whatever the toggles and the text, the handler deletes
    nothing, sends no notice and records no timestamp; its only calls
    are filter replies. *)
Theorem admins_are_not_moderated
    (update : Update) (ctx : Context) (w : World)
    (Hadmin : sender_is_admin update ctx = true) :
  only_replies (calls (moderate_messages update ctx w)) = true
  /\ spam_tracker (final (moderate_messages update ctx w)) = spam_tracker w.
Proof.
  destruct (moderate_messages_of_admin update ctx Hadmin w) as [Ht Hc]. auto.
Qed.

Lemma admins_are_not_moderated_witness :
  only_replies (calls (moderate_messages sample_admin_link (sample_ctx 1)
                         (sample_world 1 1 0))) = true
  /\ spam_tracker (final (moderate_messages sample_admin_link (sample_ctx 1)
                            (sample_world 1 1 0))) = ∅.
Proof.
  exact (admins_are_not_moderated sample_admin_link (sample_ctx 1) (sample_world 1 1 0)
           eq_refl).
Defined.

(* ===================================================================== *)
(** * Mutes *)
(* ===================================================================== *)

Section Mutes.
Import PyStr.

Lemma lower_append s t : lower (s +:+ t) = lower s +:+ lower t.
Proof.
  induction s as [|c s IH]; [reflexivity|].
  rewrite PyStrFacts.append_cons. simpl. now rewrite IH, PyStrFacts.append_cons.
Qed.

Lemma not_digit_unit u : is_unit (lower_char u) = true -> is_digit u = false.
Proof. destruct u as [[] [] [] [] [] [] [] []]; vm_compute; congruence. Qed.

(** The pattern of a duration splits a number followed by a unit into
    the two. *)
Lemma duration_groups_number ds u :
  all_digits ds = true -> is_unit u = true ->
  duration_groups (ds +:+ String u EmptyString) = Some (ds, u).
Proof.
  intros Hds Hu. induction ds as [|c ds IH].
  - rewrite PyStrFacts.append_empty_l. simpl. now rewrite Hu.
  - simpl in Hds. apply andb_prop in Hds as [Hc Hds].
    rewrite PyStrFacts.append_cons.
    assert (Hrest : exists a r, ds +:+ String u EmptyString = String a r).
    { destruct ds as [|a r]; [exists u, EmptyString | exists a, (r +:+ String u EmptyString)];
        reflexivity. }
    destruct Hrest as (a & r & Hrest). specialize (IH Hds). rewrite Hrest in *.
    simpl. simpl in IH. now rewrite Hc, IH.
Qed.

Lemma all_digits_unit ds u :
  is_unit (lower_char u) = true -> isdigit (ds +:+ String u EmptyString) = false.
Proof.
  intros Hu. apply not_digit_unit in Hu.
  assert (H : all_digits (ds +:+ String u EmptyString) = false).
  { induction ds as [|c ds IH].
    - rewrite PyStrFacts.append_empty_l. simpl. now rewrite Hu.
    - rewrite PyStrFacts.append_cons. simpl. rewrite IH. apply andb_false_r. }
  unfold isdigit. now destruct (ds +:+ String u EmptyString).
Qed.

Lemma parse_duration_number n u :
  0 <= n -> is_unit (lower_char u) = true ->
  parse_duration (str_of_int n +:+ String u EmptyString)
  = Some (n * unit_seconds (lower_char u)).
Proof.
  intros Hn Hu. unfold parse_duration.
  destruct (PyNumFacts.str_of_int_digits n Hn) as (Hall & Hne & Hint).
  rewrite lower_append, (PyNumFacts.lower_digits _ Hall). simpl lower.
  rewrite duration_groups_number by assumption.
  apply String.eqb_neq in Hne. now rewrite Hne, Hint.
Qed.

Lemma append_unit_nonempty s u : s +:+ String u EmptyString <> EmptyString.
Proof. destruct s; discriminate. Qed.

End Mutes.

(** X25: a duration written as a number and a unit among s, m, h, d, in
    either case, given as the first argument or after a numeric user id,
    ends the mute that many seconds after the current time. *)
Theorem mute_until_reads_duration
    (ctx : Context) (n : Z) (u : ascii) (pre rest : list string)
    (Hn : 0 <= n)
    (Hu : is_unit (PyStr.lower_char u) = true)
    (Hpre : match pre with
            | [] => True
            | [uid] => PyStr.isdigit uid = true
            | _ => False
            end)
    (Hargs : args ctx = pre ++ (PyStr.str_of_int n +:+ String u EmptyString) :: rest) :
  mute_until ctx
  = Some (int_of_float (time_time ctx) + n * unit_seconds (PyStr.lower_char u)).
Proof.
  unfold mute_until.
  assert (Harg : mute_duration_arg (args ctx)
                 = Some (PyStr.str_of_int n +:+ String u EmptyString)).
  { rewrite Hargs. destruct pre as [|uid [|x pre]]; [| |contradiction]; simpl.
    - destruct rest; [reflexivity|].
      assert (Hd : PyStr.isdigit (PyStr.str_of_int n +:+ String u EmptyString) = false)
        by (now apply all_digits_unit).
      now rewrite Hd.
    - now rewrite Hpre. }
  rewrite Harg.
  pose proof (append_unit_nonempty (PyStr.str_of_int n) u) as Hne.
  apply String.eqb_neq in Hne. rewrite Hne.
  now rewrite parse_duration_number by assumption.
Qed.

Lemma mute_until_reads_duration_witness :
  mute_until (sample_ctx_args 1000 ["42"; "10M"]) = Some (1000 + 10 * 60).
Proof.
  exact (mute_until_reads_duration (sample_ctx_args 1000 ["42"; "10M"]) 10 "M" ["42"] []
           ltac:(lia) eq_refl eq_refl eq_refl).
Defined.

(** X26: [/mute] by an administrator on a resolved target makes exactly
    one restriction, of that target in that chat, taking the right to
    send until the parsed date, and changes nothing in the state. It then
    confirms, or reports the reason of the platform's refusal; a
    confirmation that cannot be delivered is reported as a failed mute
    although the restriction was made. *)
Theorem mute_cmd_restricts_target
    (update : Update) (ctx : Context) (w : World) (c : Chat) (msg : Message) (t : Z)
    (Hadmin : is_admin update ctx = true)
    (Hchat : effective_chat update = Some c)
    (Hmsg : effective_message update = Some msg)
    (Htarget : get_target_user_id update ctx = Some t) :
  final (mute_cmd update ctx w) = w
  /\ calls (mute_cmd update ctx w)
     = restrict_chat_member (chat_id c) t false (mute_until ctx)
       :: map reply_text (mute_replies ctx (chat_id c) t).
Proof.
  pose proof (get_target_truthy _ _ _ Htarget) as Ht.
  unfold mute_cmd, require_admin. rewrite Hadmin, bind_ret. simpl.
  rewrite Htarget, Ht. simpl.
  unfold try_except, effective_chat_id, mute_replies. rewrite Hchat, bind_ret.
  unfold mbind, M_bind, call.
  destruct (bot_api ctx (restrict_chat_member _ _ _ _)) as [reason|]; simpl.
  - rewrite (reply_run update ctx msg) by exact Hmsg. split; reflexivity.
  - rewrite (reply_run update ctx msg) by exact Hmsg. unfold reply_outcome. simpl.
    destruct (bot_api ctx (reply_text _)) as [reason|]; simpl; [|split; reflexivity].
    rewrite (reply_run update ctx msg) by exact Hmsg. split; reflexivity.
Qed.

Lemma mute_cmd_restricts_target_witness :
  calls (mute_cmd (sample_command "/mute 1h") (sample_ctx_args 1000 ["1h"]) empty_world)
  = [restrict_chat_member (-100) 42 false (Some 4600); reply_text "🔇 User muted."].
Proof.
  exact (proj2 (mute_cmd_restricts_target (sample_command "/mute 1h")
                  (sample_ctx_args 1000 ["1h"]) empty_world room
                  {| text := Some "/mute 1h"; sender_chat := None;
                     reply_to_message := Some (Some bob) |} 42
                  eq_refl eq_refl eq_refl eq_refl)).
Defined.

(* ===================================================================== *)
(** * The rules of a chat *)
(* ===================================================================== *)

Section Rules.

Lemma get_setting_cell_run ctx chat key dflt w :
  db_available ctx = true ->
  exists w',
    get_setting ctx chat key dflt w
    = mkRun w' []
        (Return (match setting_cell (database w) chat key with
                 | PNone => dflt
                 | PInt n => PInt n
                 | PStr s => PStr s
                 end)).
Proof.
  intros Hdb. rewrite get_setting_run by exact Hdb. unfold setting_cell.
  destruct (List.find _ _) as [row|]; eexists; reflexivity.
Qed.

End Rules.

(** X27: after an administrator has set the rules, [/rules], open to
    every member of that chat, shows exactly the stored text under its
    heading. *)
Theorem rules_set_then_shown
    (update update' : Update) (ctx ctx' : Context) (c c' : Chat) (msg msg' : Message)
    (txt p0 body : string) (l : list string) (w : World)
    (Hadmin : is_admin update ctx = true)
    (Hchat : effective_chat update = Some c)
    (Hmsg : effective_message update = Some msg)
    (Htxt : text msg = Some txt)
    (Hsplit : PySplit.split 1 txt = p0 :: body :: l)
    (Hdb : db_available ctx = true)
    (Hdb' : db_available ctx' = true)
    (Hchat' : effective_chat update' = Some c')
    (Hmsg' : effective_message update' = Some msg')
    (Hsame : chat_id c' = chat_id c) :
  calls (rules_cmd update' ctx' (final (setrules_cmd update ctx w)))
  = [reply_text ("📜 *Group Rules*" +:+ nl +:+ nl +:+ PyStr.strip body)].
Proof.
  unfold setrules_cmd.
  erewrite set_text_setting_run by eassumption. simpl.
  unfold rules_cmd, effective_chat_id. rewrite Hchat', bind_ret, Hsame.
  destruct (get_setting_cell_run ctx' (chat_id c) rules PNone
              (final (set_setting ctx (chat_id c) rules (PStr (PyStr.strip body)) w)) Hdb')
    as (w' & Hrun).
  rewrite cell_after_write in Hrun by exact Hdb.
  erewrite bind_run by exact Hrun. simpl.
  pose proof (PySplitFacts.split_body txt p0 body l Hsplit) as Hne.
  apply String.eqb_neq in Hne. rewrite Hne. simpl.
  now rewrite (reply_run update' ctx' msg') by exact Hmsg'.
Qed.

Lemma rules_set_then_shown_witness :
  calls (rules_cmd (sample_message "/rules") (sample_ctx 2)
           (final (setrules_cmd (sample_command "/setrules   Be kind.  ") (sample_ctx 1)
                     empty_world)))
  = [reply_text ("📜 *Group Rules*" +:+ nl +:+ nl +:+ "Be kind.")].
Proof.
  exact (rules_set_then_shown (sample_command "/setrules   Be kind.  ")
           (sample_message "/rules") (sample_ctx 1) (sample_ctx 2) room room
           {| text := Some "/setrules   Be kind.  "; sender_chat := None;
              reply_to_message := Some (Some bob) |}
           {| text := Some "/rules"; sender_chat := None; reply_to_message := None |}
           "/setrules   Be kind.  " "/setrules" "Be kind.  " [] empty_world
           eq_refl eq_refl eq_refl eq_refl eq_refl eq_refl eq_refl eq_refl eq_refl eq_refl).
Defined.
